(** * Order assignment with timeout-driven reassignment

    A shallow embedding of the order model ([models/Order]), the order
    assignment service ([services/orderAssignmentService]), the OpenAI
    message service ([services/openaiService]) and the customer
    notification service ([services/customerNotificationService]),
    followed by the properties of the assignment state machine.

    Conventions of the embedding:
    - a JS [Map] is a [gmap]; the collection [orders] of the in-memory
      database and the map [assignmentTimers] of the service are the two
      components of the engine state;
    - a [Date] is an integer number of milliseconds; what [new Date()] and
      [generateId()] return during one operation is an input of that
      operation, gathered in the record [Host];
    - a method that mutates [this] and ends in [this.save()] returns the
      mutated order next to the new state;
    - an [async] function that may [throw] is a computation in the monad
      [M]: the state reached so far survives a throw, as in JS;
    - calls to the logger have no effect on data and are left out. *)

From stdpp Require Import base option list gmap strings pretty.
From Stdlib Require Import ZArith Ascii.

Local Open Scope string_scope.
Local Open Scope nat_scope.

(** ** Values supplied by the host *)

Record Host := {
  now : Z;                (* new Date() *)
  genOrderId : string;    (* generateId() in the Order constructor *)
  genAssignmentId : string; (* generateId() for a pushed assignment *)
  genLogId : string;      (* generateId() for a pushed reassignment log *)
  elapsed : Z             (* Date.now() - startTime around a call *)
}.

(** ** models/Order *)

Inductive OrderStatus := O_PENDING | O_ACCEPTED | O_COMPLETED | O_TIMEOUT | O_CANCELLED.
Inductive AssignmentStatus := A_PENDING | A_ACCEPTED | A_REJECTED | A_TIMED_OUT.

#[global] Instance OrderStatus_eq_dec : EqDecision OrderStatus.
Proof. solve_decision. Defined.
#[global] Instance AssignmentStatus_eq_dec : EqDecision AssignmentStatus.
Proof. solve_decision. Defined.

(** The string each enum member stands for. *)
Definition OrderStatus_str (s : OrderStatus) : string :=
  match s with
  | O_PENDING => "pending" | O_ACCEPTED => "accepted" | O_COMPLETED => "completed"
  | O_TIMEOUT => "timeout" | O_CANCELLED => "cancelled"
  end.

Definition AssignmentStatus_str (s : AssignmentStatus) : string :=
  match s with
  | A_PENDING => "pending" | A_ACCEPTED => "accepted"
  | A_REJECTED => "rejected" | A_TIMED_OUT => "timed_out"
  end.

Module Assignment.
Record t := mk {
  _id : string;
  driverId : string;
  status : AssignmentStatus;
  assignedAt : Z;
  respondedAt : option Z;
  responseTime : option Z
}.

(** [a.status = st; a.respondedAt = new Date();
     a.responseTime = a.respondedAt - a.assignedAt] *)
Definition respond (h : Host) (st : AssignmentStatus) (a : t) : t :=
  {| _id := _id a; driverId := driverId a; status := st;
     assignedAt := assignedAt a;
     respondedAt := Some (now h);
     responseTime := Some (now h - assignedAt a)%Z |}.

(** The object literal pushed by [addDriverAssignment] and [recordReassignment]. *)
Definition offered (h : Host) (d : string) : t :=
  {| _id := genAssignmentId h; driverId := d; status := A_PENDING;
     assignedAt := now h; respondedAt := None; responseTime := None |}.

(** [a => a.driverId.toString() === d.toString() && a.status === PENDING] *)
Definition pendingFor (d : string) (a : t) : Prop :=
  driverId a = d ∧ status a = A_PENDING.

#[global] Instance pendingFor_dec d a : Decision (pendingFor d a).
Proof. unfold pendingFor. apply _. Defined.
End Assignment.

Module ReassignmentLog.
Record t := mk {
  _id : string;
  previousDriverId : string;
  newDriverId : string;
  reason : string;
  timestamp : Z
}.
End ReassignmentLog.

Module Order.
Record t := mk {
  _id : string;
  customerId : string;
  orderDetails : string;
  status : OrderStatus;
  currentDriverId : option string;
  driverAssignments : list Assignment.t;
  createdAt : Z;
  updatedAt : Z;
  completedAt : option Z;
  timeoutAt : option Z;
  assignmentTimeout : nat;
  reassignmentCount : nat;
  reassignmentLogs : list ReassignmentLog.t
}.

(** [orderDetails] is the payload of the order, kept as a text; the empty
    text stands for a payload that is falsy. The constructor replaces a
    falsy payload by its default object. *)
Definition defaultOrderDetails : string :=
  "{ items: [], totalAmount: 0, deliveryAddress: '', deliveryCoordinates: { latitude: 0, longitude: 0 } }".

Definition detailsOrDefault (details : string) : string :=
  if decide (details = "") then defaultOrderDetails else details.

(** [new Order({ customerId, orderDetails, status })]: the constructor on
    the data the controller's [createOrder] passes. *)
Definition create (h : Host) (customer details : string) (st : OrderStatus) : t :=
  {| _id := genOrderId h; customerId := customer;
     orderDetails := detailsOrDefault details;
     status := st; currentDriverId := None; driverAssignments := [];
     createdAt := now h; updatedAt := now h; completedAt := None;
     timeoutAt := None; assignmentTimeout := 15; reassignmentCount := 0;
     reassignmentLogs := [] |}.

(** [new Order(orderData)] on a stored order, as [findById] calls it.
    Each field is [orderData.f || default]; the defaults replace the
    falsy values: the empty string and the number 0. The two arrays are
    shared with [orderData], not copied. *)
Definition revive (h : Host) (o : t) : t :=
  {| _id := if decide (_id o = "") then genOrderId h else _id o;
     customerId := customerId o;
     orderDetails := detailsOrDefault (orderDetails o);
     status := status o;
     currentDriverId :=
       match currentDriverId o with
       | Some d => if decide (d = "") then None else Some d
       | None => None
       end;
     driverAssignments := driverAssignments o;
     createdAt := createdAt o; updatedAt := updatedAt o;
     completedAt := completedAt o; timeoutAt := timeoutAt o;
     assignmentTimeout :=
       match assignmentTimeout o with 0 => 15 | n => n end;
     reassignmentCount := reassignmentCount o;
     reassignmentLogs := reassignmentLogs o |}.

Definition set_status (st : OrderStatus) (o : t) : t :=
  {| _id := _id o; customerId := customerId o; orderDetails := orderDetails o;
     status := st; currentDriverId := currentDriverId o;
     driverAssignments := driverAssignments o; createdAt := createdAt o;
     updatedAt := updatedAt o; completedAt := completedAt o;
     timeoutAt := timeoutAt o; assignmentTimeout := assignmentTimeout o;
     reassignmentCount := reassignmentCount o;
     reassignmentLogs := reassignmentLogs o |}.

Definition set_currentDriverId (d : option string) (o : t) : t :=
  {| _id := _id o; customerId := customerId o; orderDetails := orderDetails o;
     status := status o; currentDriverId := d;
     driverAssignments := driverAssignments o; createdAt := createdAt o;
     updatedAt := updatedAt o; completedAt := completedAt o;
     timeoutAt := timeoutAt o; assignmentTimeout := assignmentTimeout o;
     reassignmentCount := reassignmentCount o;
     reassignmentLogs := reassignmentLogs o |}.

Definition set_driverAssignments (l : list Assignment.t) (o : t) : t :=
  {| _id := _id o; customerId := customerId o; orderDetails := orderDetails o;
     status := status o; currentDriverId := currentDriverId o;
     driverAssignments := l; createdAt := createdAt o;
     updatedAt := updatedAt o; completedAt := completedAt o;
     timeoutAt := timeoutAt o; assignmentTimeout := assignmentTimeout o;
     reassignmentCount := reassignmentCount o;
     reassignmentLogs := reassignmentLogs o |}.

Definition set_updatedAt (z : Z) (o : t) : t :=
  {| _id := _id o; customerId := customerId o; orderDetails := orderDetails o;
     status := status o; currentDriverId := currentDriverId o;
     driverAssignments := driverAssignments o; createdAt := createdAt o;
     updatedAt := z; completedAt := completedAt o;
     timeoutAt := timeoutAt o; assignmentTimeout := assignmentTimeout o;
     reassignmentCount := reassignmentCount o;
     reassignmentLogs := reassignmentLogs o |}.

Definition set_timeoutAt (z : option Z) (o : t) : t :=
  {| _id := _id o; customerId := customerId o; orderDetails := orderDetails o;
     status := status o; currentDriverId := currentDriverId o;
     driverAssignments := driverAssignments o; createdAt := createdAt o;
     updatedAt := updatedAt o; completedAt := completedAt o;
     timeoutAt := z; assignmentTimeout := assignmentTimeout o;
     reassignmentCount := reassignmentCount o;
     reassignmentLogs := reassignmentLogs o |}.

Definition set_reassignmentCount (n : nat) (o : t) : t :=
  {| _id := _id o; customerId := customerId o; orderDetails := orderDetails o;
     status := status o; currentDriverId := currentDriverId o;
     driverAssignments := driverAssignments o; createdAt := createdAt o;
     updatedAt := updatedAt o; completedAt := completedAt o;
     timeoutAt := timeoutAt o; assignmentTimeout := assignmentTimeout o;
     reassignmentCount := n;
     reassignmentLogs := reassignmentLogs o |}.

Definition set_reassignmentLogs (l : list ReassignmentLog.t) (o : t) : t :=
  {| _id := _id o; customerId := customerId o; orderDetails := orderDetails o;
     status := status o; currentDriverId := currentDriverId o;
     driverAssignments := driverAssignments o; createdAt := createdAt o;
     updatedAt := updatedAt o; completedAt := completedAt o;
     timeoutAt := timeoutAt o; assignmentTimeout := assignmentTimeout o;
     reassignmentCount := reassignmentCount o;
     reassignmentLogs := l |}.
End Order.

(** ** Errors and the state-and-exception monad *)

Inductive Error :=
| OrderNotFound (orderId : string)
| CannotAssign (orderId : string) (st : OrderStatus)
| NotCurrentDriver (driverId orderId : string)
| NoPendingAssignment
| TypeErrorNull (property : string).

(** [error.message] *)
Definition Error_message (e : Error) : string :=
  match e with
  | OrderNotFound o => "Order not found: " ++ o
  | CannotAssign o st =>
      "Cannot assign: Order " ++ o ++ " has status " ++ OrderStatus_str st
  | NotCurrentDriver d o =>
      "Driver " ++ d ++ " is not currently assigned to order " ++ o
  | NoPendingAssignment => "No pending assignment found for this driver"
  | TypeErrorNull p =>
      "Cannot read properties of null (reading '" ++ p ++ "')"
  end.

(** The errors the service raises on purpose, as opposed to the runtime's
    [TypeError]. *)
Definition domainError (e : Error) : bool :=
  match e with TypeErrorNull _ => false | _ => true end.

(** A live entry of [assignmentTimers]: the handle of a [setTimeout] whose
    callback is [handleDriverTimeoutReassignment(orderId, driverId)]. *)
Record Timer := { timerDriverId : string; timerDelay : Z }.

Record State := {
  orders : gmap string Order.t;          (* getCollection('orders') *)
  assignmentTimers : gmap string Timer   (* this.assignmentTimers *)
}.

Definition M (A : Type) : Type := State → State * (Error + A).

#[global] Instance M_ret : MRet M := λ A a s, (s, inr a).
#[global] Instance M_bind : MBind M := λ A B f m s,
  match m s with
  | (s', inl e) => (s', inl e)
  | (s', inr a) => f a s'
  end.

Definition throw {A} (e : Error) : M A := λ s, (s, inl e).
Definition gets {A} (f : State → A) : M A := λ s, (s, inr (f s)).
Definition modify (f : State → State) : M unit := λ s, (f s, inr tt).

Definition with_orders (f : gmap string Order.t → gmap string Order.t) (s : State) : State :=
  {| orders := f (orders s); assignmentTimers := assignmentTimers s |}.
Definition with_timers (f : gmap string Timer → gmap string Timer) (s : State) : State :=
  {| orders := orders s; assignmentTimers := f (assignmentTimers s) |}.

(** ** Methods of [Order] that touch the database *)

(** [save()]: [this.updatedAt = new Date(); orders.set(this._id, this)] *)
Definition Order_save (h : Host) (o : Order.t) : M Order.t :=
  let o' := Order.set_updatedAt (now h) o in
  _ ← modify (with_orders (insert (Order._id o') o'));
  mret o'.

(** [Order.findById(id)] *)
Definition Order_findById (h : Host) (id : string) : M (option Order.t) :=
  gets (λ s, Order.revive h <$> orders s !! id).

Definition Order_addDriverAssignment (h : Host) (d : string) (o : Order.t) : M Order.t :=
  let o1 := Order.set_currentDriverId (Some d) o in
  let o2 := Order.set_driverAssignments
              (Order.driverAssignments o1 ++ [Assignment.offered h d]) o1 in
  let o3 := Order.set_reassignmentCount (List.length (Order.driverAssignments o2) - 1) o2 in
  Order_save h o3.

Definition Order_recordDriverResponse (h : Host) (d : string) (st : AssignmentStatus)
    (o : Order.t) : M Order.t :=
  match list_find (Assignment.pendingFor d) (Order.driverAssignments o) with
  | None => throw NoPendingAssignment
  | Some (i, a) =>
      let o1 := Order.set_driverAssignments
                  (<[i := Assignment.respond h st a]> (Order.driverAssignments o)) o in
      let o2 := if decide (st = A_ACCEPTED) then Order.set_status O_ACCEPTED o1 else o1 in
      Order_save h o2
  end.

Definition Order_recordReassignment (h : Host) (previousDriverId newDriverId reason : string)
    (o : Order.t) : M Order.t :=
  let l := Order.driverAssignments o in
  let l1 := match list_find (Assignment.pendingFor previousDriverId) l with
            | Some (i, a) => <[i := Assignment.respond h A_TIMED_OUT a]> l
            | None => l
            end in
  let o1 := Order.set_driverAssignments l1 o in
  let o2 := Order.set_currentDriverId (Some newDriverId) o1 in
  let o3 := Order.set_driverAssignments
              (Order.driverAssignments o2 ++ [Assignment.offered h newDriverId]) o2 in
  let o4 := Order.set_reassignmentLogs
              (Order.reassignmentLogs o3 ++
                 [ReassignmentLog.mk (genLogId h) previousDriverId newDriverId reason (now h)])
              o3 in
  let o5 := Order.set_reassignmentCount (Order.reassignmentCount o4 + 1) o4 in
  Order_save h o5.

Definition Order_markAsTimedOut (h : Host) (o : Order.t) : M Order.t :=
  let o1 := Order.set_status O_TIMEOUT o in
  let o2 := Order.set_timeoutAt (Some (now h)) o1 in
  Order_save h o2.

(** ** services/orderAssignmentService *)

Module Driver.
Record t := mk { driverId : string; name : string }.
End Driver.

(** The mock pool of [getNextAvailableDriver]. *)
Definition availableDrivers : list Driver.t :=
  [ Driver.mk "6123456789abcdef01234567" "Driver 1";
    Driver.mk "6123456789abcdef01234568" "Driver 2";
    Driver.mk "6123456789abcdef01234569" "Driver 3";
    Driver.mk "6123456789abcdef01234570" "Driver 4";
    Driver.mk "6123456789abcdef01234571" "Driver 5" ].

(** The two settings the constructor reads from the environment
    ([DRIVER_ASSIGNMENT_TIMEOUT], default 15000, and
    [MAX_ASSIGNMENT_ATTEMPTS], default 5), taken to parse to a number of
    milliseconds and to a natural number. *)
Record Config := { assignmentTimeout : Z; maxAssignmentAttempts : nat }.

Definition defaultConfig : Config :=
  {| assignmentTimeout := 15000; maxAssignmentAttempts := 5 |}.

(** What [getOrderStatus] returns. *)
Module OrderStatusView.
Record t := mk {
  orderId : string;
  status : OrderStatus;
  currentDriverId : option string;
  reassignmentCount : nat;
  reassignmentLogs : list ReassignmentLog.t;
  createdAt : Z;
  timeoutAt : option Z;
  assignmentTimeout : nat;
  orderDetails : string
}.
End OrderStatusView.

Section OrderAssignmentService.
Variable cfg : Config.

(** Any earlier timer of the order is cleared and its entry overwritten. *)
Definition setupAutoReassignment (orderId driverId : string) : M unit :=
  modify (with_timers
    (insert orderId {| timerDriverId := driverId; timerDelay := assignmentTimeout cfg |})).

Definition getNextAvailableDriver (h : Host) (orderId : string) : M (option Driver.t) :=
  order ← Order_findById h orderId;
  match order with
  | None => throw (TypeErrorNull "driverAssignments")
  | Some order =>
      let previousDriverIds : list string :=
        Assignment.driverId <$> Order.driverAssignments order in
      if decide (maxAssignmentAttempts cfg ≤ List.length previousDriverIds)%nat then mret None
      else mret (List.find
                   (λ driver, negb (bool_decide (Driver.driverId driver ∈ previousDriverIds)))
                   availableDrivers)
  end.

Definition assignOrderToDriver (h : Host) (orderId driverId : string) : M Order.t :=
  order ← Order_findById h orderId;
  match order with
  | None => throw (OrderNotFound orderId)
  | Some order =>
      if decide (Order.status order ≠ O_PENDING)
      then throw (CannotAssign orderId (Order.status order))
      else
        order ← Order_addDriverAssignment h driverId order;
        _ ← setupAutoReassignment orderId driverId;
        mret order
  end.

Definition handleDriverTimeoutReassignment (h : Host) (orderId driverId : string)
    : M Order.t :=
  order ← Order_findById h orderId;
  match order with
  | None => throw (OrderNotFound orderId)
  | Some order =>
      match List.find (λ a, bool_decide (Assignment.pendingFor driverId a))
              (Order.driverAssignments order) with
      | None => mret order
      | Some _ =>
          nextDriver ← getNextAvailableDriver h orderId;
          match nextDriver with
          | None =>
              order ← Order_markAsTimedOut h order;
              _ ← modify (with_timers (delete orderId));
              mret order
          | Some nextDriver =>
              order ← Order_recordReassignment h driverId
                        (Driver.driverId nextDriver) "TIMEOUT" order;
              _ ← setupAutoReassignment orderId (Driver.driverId nextDriver);
              mret order
          end
      end
  end.

Definition handleDriverResponse (h : Host) (orderId driverId : string) (accepted : bool)
    : M Order.t :=
  order ← Order_findById h orderId;
  match order with
  | None => throw (OrderNotFound orderId)
  | Some order =>
      match Order.currentDriverId order with
      | None => throw (TypeErrorNull "toString")
      | Some current =>
          if decide (current ≠ driverId)
          then throw (NotCurrentDriver driverId orderId)
          else
            _ ← modify (with_timers (delete orderId));
            let status := if accepted then A_ACCEPTED else A_REJECTED in
            order ← Order_recordDriverResponse h driverId status order;
            if accepted then mret order
            else
              nextDriver ← getNextAvailableDriver h orderId;
              match nextDriver with
              | None => Order_markAsTimedOut h order
              | Some nextDriver =>
                  order ← Order_recordReassignment h driverId
                            (Driver.driverId nextDriver) "REJECTION" order;
                  _ ← setupAutoReassignment orderId (Driver.driverId nextDriver);
                  mret order
              end
      end
  end.

Definition getOrderStatus (h : Host) (orderId : string) : M OrderStatusView.t :=
  order ← Order_findById h orderId;
  match order with
  | None => throw (OrderNotFound orderId)
  | Some order =>
      mret (OrderStatusView.mk (Order._id order) (Order.status order)
              (Order.currentDriverId order) (Order.reassignmentCount order)
              (Order.reassignmentLogs order) (Order.createdAt order)
              (Order.timeoutAt order) (Order.assignmentTimeout order)
              (Order.orderDetails order))
  end.
End OrderAssignmentService.

(** The controller's [createOrder]: a pending order with no driver, saved. *)
Definition createOrder (h : Host) (customerId orderDetails : string) : M Order.t :=
  Order_save h (Order.create h customerId orderDetails O_PENDING).

Definition initState : State := {| orders := ∅; assignmentTimers := ∅ |}.

(** ** services/openaiService *)

Module OpenAI.
(** The argument of [client.chat.completions.create]. *)
Record Request := mkRequest {
  model : string;
  systemContent : string;
  userContent : string;
  max_tokens : nat
}.

(** A thrown [Error] object. *)
Record JsError := mkError { name : string; message : string }.

(** The part of a completion the service reads: for each choice,
    [message.content], which may be [null]. *)
Record Completion := mkCompletion { choices : list (option string) }.

(** Strings hold the UTF-8 bytes of the JavaScript string. The white space
    of [String.prototype.trim] is ECMAScript's WhiteSpace and LineTerminator:
    U+0009 to U+000D and U+0020 (one byte); U+00A0 (two bytes); U+1680,
    U+2000 to U+200A, U+2028, U+2029, U+202F, U+205F, U+3000 and U+FEFF
    (three bytes). *)
Definition isSpace (c : ascii) : bool :=
  let n := nat_of_ascii c in
  bool_decide (n = 32 ∨ (9 ≤ n ∧ n ≤ 13))%nat.

Definition isSpace2 (a b : ascii) : bool :=
  bool_decide (nat_of_ascii a = 194 ∧ nat_of_ascii b = 160)%nat.

Definition isSpace3 (a b c : ascii) : bool :=
  let x := nat_of_ascii a in
  let y := nat_of_ascii b in
  let z := nat_of_ascii c in
  bool_decide ((x = 225 ∧ y = 154 ∧ z = 128) ∨
               (x = 226 ∧ y = 128 ∧
                  ((128 ≤ z ∧ z ≤ 138) ∨ z = 168 ∨ z = 169 ∨ z = 175)) ∨
               (x = 226 ∧ y = 129 ∧ z = 159) ∨
               (x = 227 ∧ y = 128 ∧ z = 128) ∨
               (x = 239 ∧ y = 187 ∧ z = 191))%nat.

(** The white space at the front of [s] removed; with [back], [s] is read
    as a reversed string, whose characters have their bytes in reverse. *)
Fixpoint strip (back : bool) (s : string) : string :=
  match s with
  | String a s1 =>
      if isSpace a then strip back s1
      else
        match s1 with
        | String b s2 =>
            if (if back then isSpace2 b a else isSpace2 a b) then strip back s2
            else
              match s2 with
              | String c s3 =>
                  if (if back then isSpace3 c b a else isSpace3 a b c)
                  then strip back s3 else s
              | EmptyString => s
              end
        | EmptyString => s
        end
  | EmptyString => EmptyString
  end.

Definition trimStart (s : string) : string := strip false s.

Definition trimEnd (s : string) : string := String.rev (strip true (String.rev s)).

(** [String.prototype.trim]. *)
Definition trim (s : string) : string := trimEnd (trimStart s).
End OpenAI.

Definition nl : string := String "010"%char EmptyString.
Definition dq : string := String "034"%char EmptyString.

Section OpenAIService.
(** [this.model], and the two host functions the service calls. *)
Variable model : string.
Variable JSON_stringify : OrderStatusView.t → OpenAI.JsError + string.
Variable chat_completions_create :
  OpenAI.Request → OpenAI.JsError + OpenAI.Completion.

Definition getFallbackMessage (orderData : OrderStatusView.t) (queryType : string)
    : string :=
  let id := OrderStatusView.orderId orderData in
  if decide (queryType = "reassignment_reason") then
    "Estamos reatribuindo seu pedido #" ++ id ++
    " para outro motorista para garantir a entrega mais rápida possível. Pedimos desculpas pelo inconveniente."
  else if decide (queryType = "delay_explanation") then
    "Pedimos desculpas pelo atraso no seu pedido #" ++ id ++
    ". Estamos trabalhando para entregá-lo o mais rápido possível."
  else if decide (queryType = "timeout_explanation") then
    "Infelizmente, não conseguimos encontrar um motorista disponível para seu pedido #"
    ++ id ++
    " após várias tentativas. Por favor, entre em contato com nosso suporte para assistência."
  else
    "O status atual do seu pedido #" ++ id ++ " é: " ++
    OrderStatus_str (OrderStatusView.status orderData) ++ ". Obrigado pela paciência.".

(** The [switch] that chooses the prompt, and the requirements appended
    to it. *)
Definition promptFor (orderData : OrderStatusView.t) (queryType : string) : string :=
  let id := OrderStatusView.orderId orderData in
  let st := OrderStatus_str (OrderStatusView.status orderData) in
  let n := pretty (OrderStatusView.reassignmentCount orderData) in
  (if decide (queryType = "general_status") then
     "Por favor, informe o cliente sobre o status do pedido #" ++ id ++
     ". Status atual: " ++ st ++ "."
   else if decide (queryType = "reassignment_reason") then
     "Explique educadamente por que o pedido #" ++ id ++
     " está sendo reatribuído para outro motorista. Número de reatribuições: "
     ++ n ++ "."
   else if decide (queryType = "delay_explanation") then
     "Explique o atraso para o pedido #" ++ id ++ " que foi reatribuído " ++ n ++
     " vezes. Seja empático e assegure que estamos trabalhando para entregar o pedido o mais rápido possível."
   else if decide (queryType = "timeout_explanation") then
     "Explique gentilmente ao cliente que seu pedido #" ++ id ++
     " não pôde ser atribuído após múltiplas tentativas. Status: " ++ st ++
     ". Ofereça cancelar o pedido ou tentar novamente."
   else
     "Forneça informações sobre o pedido #" ++ id ++ ". Status atual: " ++ st ++ ".")
  ++ nl ++ nl ++ "Requisitos técnicos na resposta:" ++ nl ++
  "      - Mencione que tentamos atribuir motoristas por até 15 segundos cada" ++ nl ++
  "      - Explique nosso processo de reatribuição automática quando não há resposta" ++ nl ++
  "      - Seja preciso sobre o número de reatribuições: " ++ n ++ nl ++
  "      - Se status for " ++ dq ++ "timeout" ++ dq ++
  ", explique que esgotamos todas as tentativas".

Definition systemMessageFor (context : string) : string :=
  "Você é um assistente virtual para uma empresa de delivery. " ++ nl ++
  "      Sua função é explicar aos clientes o status de seus pedidos de forma clara e empática."
  ++ nl ++
  "      Seja educado e profissional, mas também amigável. " ++ nl ++
  "      Não entre em detalhes técnicos complexos, mas explique de forma simplificada os tempos de espera por resposta dos motoristas (15 segundos) e o processo de reatribuição."
  ++ nl ++
  "      Contexto do pedido: " ++ context.

(** The body of the [try] block: every throw in it reaches the one
    [catch]. *)
Definition generateOrderStatusMessage_try (orderData : OrderStatusView.t)
    (queryType : string) : OpenAI.JsError + string :=
  let prompt := promptFor orderData queryType in
  match JSON_stringify orderData with
  | inl e => inl e
  | inr context =>
      match chat_completions_create
              (OpenAI.mkRequest model (systemMessageFor context) prompt 300) with
      | inl e => inl e
      | inr response =>
          match OpenAI.choices response with
          | [] => inl (OpenAI.mkError "TypeError"
                         "Cannot read properties of undefined (reading 'message')")
          | None :: _ => inl (OpenAI.mkError "TypeError"
                                "Cannot read properties of null (reading 'trim')")
          | Some content :: _ => inr (OpenAI.trim content)
          end
      end
  end.

(** [try { ... } catch (error) { ...; return this.getFallbackMessage(...) }] *)
Definition generateOrderStatusMessage (orderData : OrderStatusView.t)
    (queryType : string) : OpenAI.JsError + string :=
  match generateOrderStatusMessage_try orderData queryType with
  | inr text => inr text
  | inl _ => inr (getFallbackMessage orderData queryType)
  end.
End OpenAIService.

(** ** services/customerNotificationService *)

(** [ENABLE_REASSIGNMENT_NOTIFICATIONS === 'true'] and
    [MAX_NOTIFICATIONS_PER_ORDER] (default 3). *)
Record NotifyConfig := {
  enableReassignmentNotifications : bool;
  maxNotificationsPerOrder : nat
}.

(** The object a notification method resolves to. A field the object
    literal leaves out is [None] ([false] for [skipped]). *)
Module Notification.
Record t := mk {
  success : bool;
  orderId : string;
  customerId : option string;
  queryType : option string;
  message : option string;
  skipped : bool;
  error : option string;
  sentAt : option Z;
  responseTime : option Z
}.
End Notification.

Section CustomerNotificationService.
Variable ncfg : NotifyConfig.
Variable model : string.
Variable JSON_stringify : OrderStatusView.t → OpenAI.JsError + string.
Variable chat_completions_create :
  OpenAI.Request → OpenAI.JsError + OpenAI.Completion.

(** The service's own state is [this.notificationCounters]. *)
Definition getNotificationCount (orderId : string) (counters : gmap string nat) : nat :=
  default 0 (counters !! orderId).

Definition shouldLimitNotifications (orderId : string) (counters : gmap string nat) : bool :=
  bool_decide (maxNotificationsPerOrder ncfg ≤ getNotificationCount orderId counters)%nat.

Definition incrementNotificationCounter (orderId : string) (counters : gmap string nat)
    : gmap string nat :=
  let currentCount := getNotificationCount orderId counters in
  <[orderId := currentCount + 1]> counters.

Definition notifyCustomerAboutOrderStatus (h : Host) (orderId customerId queryType : string)
    (s : State) (counters : gmap string nat) : gmap string nat * Notification.t :=
  let failed (msg : string) :=
    Notification.mk false orderId (Some customerId) None None false (Some msg) None None in
  if shouldLimitNotifications orderId counters then
    (counters,
     Notification.mk false orderId (Some customerId) None
       (Some "Notification limit reached for this order") false None None None)
  else
    match (getOrderStatus h orderId s).2 with
    | inl e => (counters, failed (Error_message e))
    | inr orderStatus =>
        match generateOrderStatusMessage model JSON_stringify chat_completions_create
                orderStatus queryType with
        | inl e => (counters, failed (OpenAI.message e))
        | inr message =>
            (incrementNotificationCounter orderId counters,
             Notification.mk true orderId (Some customerId) (Some queryType)
               (Some message) false None (Some (now h)) (Some (elapsed h)))
        end
    end.

Definition notifyCustomerAboutReassignment (h : Host) (orderId customerId : string)
    (reassignmentCount : nat) (s : State) (counters : gmap string nat)
    : gmap string nat * Notification.t :=
  let skip := Notification.mk false orderId None None None true None None None in
  if negb (enableReassignmentNotifications ncfg) then (counters, skip)
  else if bool_decide (reassignmentCount ≤ 1)%nat then (counters, skip)
  else notifyCustomerAboutOrderStatus h orderId customerId "reassignment_reason" s counters.

Definition notifyCustomerAboutTimeout (h : Host) (orderId customerId : string)
    (s : State) (counters : gmap string nat) : gmap string nat * Notification.t :=
  notifyCustomerAboutOrderStatus h orderId customerId "timeout_explanation" s counters.
End CustomerNotificationService.

Definition defaultNotifyConfig : NotifyConfig :=
  {| enableReassignmentNotifications := false; maxNotificationsPerOrder := 3 |}.

(** ** Runs of the engine *)

(** The three entry points of the engine: the two HTTP operations and the
    callback of an armed timer. *)
Inductive Op :=
| Assign (orderId driverId : string)
| Respond (orderId driverId : string) (accepted : bool)
| TimerFired (orderId driverId : string).

Definition step (cfg : Config) (h : Host) (op : Op) : M Order.t :=
  match op with
  | Assign o d => assignOrderToDriver cfg h o d
  | Respond o d acc => handleDriverResponse cfg h o d acc
  | TimerFired o d => handleDriverTimeoutReassignment cfg h o d
  end.

(** A run keeps the state whether or not an operation throws. *)
Fixpoint run (cfg : Config) (tr : list (Host * Op)) (s : State) : State :=
  match tr with
  | [] => s
  | (h, op) :: tr' => run cfg tr' (step cfg h op s).1
  end.

(** The timer of [orderId] elapses: its callback runs with the driver it
    was armed for. The callback swallows what the handler throws. *)
Definition fireTimer (cfg : Config) (h : Host) (orderId : string) (s : State) : State :=
  match assignmentTimers s !! orderId with
  | Some t => (handleDriverTimeoutReassignment cfg h orderId (timerDriverId t) s).1
  | None => s
  end.

(** One timeout after the other, each at its own instant. *)
Fixpoint timeouts (cfg : Config) (hs : list Host) (orderId : string) (s : State) : State :=
  match hs with
  | [] => s
  | h :: hs' => timeouts cfg hs' orderId (fireTimer cfg h orderId s)
  end.

(** A next candidate exists at each of these timeouts. *)
Fixpoint candidateEachTime (cfg : Config) (hs : list Host) (orderId : string) (s : State)
    : Prop :=
  match hs with
  | [] => True
  | h :: hs' =>
      (∃ d, (getNextAvailableDriver cfg h orderId s).2 = inr (Some d)) ∧
      candidateEachTime cfg hs' orderId (fireTimer cfg h orderId s)
  end.

(** Every stored order sits under its own, non-empty id: what [save]
    establishes and the constructor relies on. *)
Definition store_wf (s : State) : Prop :=
  map_Forall (λ k o, Order._id o = k ∧ k ≠ "") (orders s).

#[global] Instance store_wf_dec s : Decision (store_wf s).
Proof. unfold store_wf. apply _. Defined.

(** Some entry of the history is an open offer to [d]. *)
Definition hasPending (d : string) (o : Order.t) : Prop :=
  Exists (Assignment.pendingFor d) (Order.driverAssignments o).

(** The open offers of an order. *)
Definition pendingAssignments (o : Order.t) : list Assignment.t :=
  filter (λ a, Assignment.status a = A_PENDING) (Order.driverAssignments o).

(** The driver and the outcome of the order's latest offer. *)
Definition lastOffer (o : Order.t) : option (string * AssignmentStatus) :=
  (λ a, (Assignment.driverId a, Assignment.status a)) <$> last (Order.driverAssignments o).

(** What an operation may do to a stored order: the id stays, a status
    other than pending never becomes pending again, and an entry of the
    history that is no longer pending stays as it is, at its place. *)
Record evolves (o o' : Order.t) : Prop := {
  ev_id : Order._id o' = Order._id o;
  ev_status : Order.status o ≠ O_PENDING → Order.status o' ≠ O_PENDING;
  ev_settled : ∀ i a,
    Order.driverAssignments o !! i = Some a →
    Assignment.status a ≠ A_PENDING →
    Order.driverAssignments o' !! i = Some a
}.

(** Two snapshots of the collection of orders, order by order. *)
Definition orders_evolve (m m' : gmap string Order.t) : Prop :=
  ∀ k, match m !! k, m' !! k with
       | Some o, Some o' => evolves o o'
       | None, None => True
       | _, _ => False
       end.

(** C4 as the specification words it: the response is acknowledged with
    the order and nothing changes. *)
Definition acknowledgedNoOp (cfg : Config) (h : Host) (orderId driverId : string)
    (accepted : bool) (s : State) : Prop :=
  ∃ o, handleDriverResponse cfg h orderId driverId accepted s = (s, inr o).

(** The drivers and the statuses of the history, in order. *)
Definition historyDrivers (o : Order.t) : list string :=
  Assignment.driverId <$> Order.driverAssignments o.
Definition historyStatuses (o : Order.t) : list AssignmentStatus :=
  Assignment.status <$> Order.driverAssignments o.

(** What each reassignment log says: from whom, to whom, why. *)
Definition logEntries (o : Order.t) : list (string * string * string) :=
  (λ l, (ReassignmentLog.previousDriverId l, ReassignmentLog.newDriverId l,
         ReassignmentLog.reason l)) <$> Order.reassignmentLogs o.

(** The handovers along a list of drivers, each for the given reason. *)
Definition handovers (reason : string) (ds : list string) : list (string * string * string) :=
  zip_with (λ p n, (p, n, reason)) ds (tail ds).

(** The order [n] timeouts after its first offer, to [d0]: [n]
    reassignments counted, still pending, every entry of the history timed
    out except the last, which is the open offer to the current driver;
    no driver tried twice; one log entry per handover, with reason TIMEOUT. *)
Record afterTimeouts (d0 : string) (n : nat) (o : Order.t) : Prop := {
  at_count : Order.reassignmentCount o = n;
  at_status : Order.status o = O_PENDING;
  at_statuses : historyStatuses o = (replicate n A_TIMED_OUT ++ [A_PENDING])%list;
  at_first : head (historyDrivers o) = Some d0;
  at_nodup : NoDup (historyDrivers o);
  at_current : Order.currentDriverId o = last (historyDrivers o);
  at_logs : logEntries o = handovers "TIMEOUT" (historyDrivers o)
}.

(** The same for the state of the engine: the order is stored, and its
    timer is armed for the current driver. *)
Definition timedOutTimes (d0 : string) (n : nat) (orderId : string) (s : State) : Prop :=
  store_wf s ∧
  ∃ o t, orders s !! orderId = Some o ∧ afterTimeouts d0 n o ∧
         assignmentTimers s !! orderId = Some t ∧
         Order.currentDriverId o = Some (timerDriverId t).

(** ** Concrete scenarios *)

Definition hostAt (t : Z) : Host :=
  {| now := t; genOrderId := "o1"; genAssignmentId := "a" ++ pretty t;
     genLogId := "l" ++ pretty t; elapsed := 120 |}.

(** A new order [o1] of customer [c1]. *)
Definition s_created : State := (createOrder (hostAt 0) "c1" "pizza" initState).1.

(** [o1] offered to driver [d1]. *)
Definition s_offered : State :=
  (assignOrderToDriver defaultConfig (hostAt 1000) "o1" "d1" s_created).1.

(** [d1] accepted. *)
Definition s_accepted : State :=
  (handleDriverResponse defaultConfig (hostAt 2000) "o1" "d1" true s_offered).1.

(** [o1] offered to six drivers in a row, none of whom answered. *)
Definition sixOffers : list (Host * Op) :=
  [ (hostAt 1000, Assign "o1" "d1"); (hostAt 2000, Assign "o1" "d2");
    (hostAt 3000, Assign "o1" "d3"); (hostAt 4000, Assign "o1" "d4");
    (hostAt 5000, Assign "o1" "d5"); (hostAt 6000, Assign "o1" "d6") ].

(** [o1] offered to [d1]; [d1] and then each driver the engine picked
    declined, until none was left. *)
Definition fiveRejections : list (Host * Op) :=
  [ (hostAt 1000, Assign "o1" "d1");
    (hostAt 2000, Respond "o1" "d1" false);
    (hostAt 3000, Respond "o1" "6123456789abcdef01234567" false);
    (hostAt 4000, Respond "o1" "6123456789abcdef01234568" false);
    (hostAt 5000, Respond "o1" "6123456789abcdef01234569" false);
    (hostAt 6000, Respond "o1" "6123456789abcdef01234570" false) ].

Definition s_exhausted : State := run defaultConfig fiveRejections s_created.

(** [o1] offered to [d1], followed by four timeouts. *)
Definition fourInstants : list Host :=
  [hostAt 16000; hostAt 31000; hostAt 46000; hostAt 61000].
Definition s_fourTimeouts : State := timeouts defaultConfig fourInstants "o1" s_offered.

(** Notifications about reassignments switched on, cap at its default. *)
Definition notifyOn : NotifyConfig :=
  {| enableReassignmentNotifications := true; maxNotificationsPerOrder := 3 |}.

(** A text generator that is down, and one that answers. *)
Definition apiDown (_ : OpenAI.Request) : OpenAI.JsError + OpenAI.Completion :=
  inl (OpenAI.mkError "APIConnectionTimeoutError" "Request timed out.").
Definition apiUp (_ : OpenAI.Request) : OpenAI.JsError + OpenAI.Completion :=
  inr (OpenAI.mkCompletion [Some " Seu pedido foi reatribuido. "]).
Definition jsonOk (v : OrderStatusView.t) : OpenAI.JsError + string :=
  inr ("{" ++ OrderStatusView.orderId v ++ "}").

(** The counters after the reassignment notifications of counts 2, 3 and 4
    of [o1]. *)
Definition countersAtCap : gmap string nat :=
  let notifyR n c :=
    (notifyCustomerAboutReassignment notifyOn "gpt-4o-mini" jsonOk apiUp (hostAt 7000)
       "o1" "c1" n s_exhausted c).1 in
  notifyR 4 (notifyR 3 (notifyR 2 ∅)).


(** ** More of the service and of the model *)

(** [cleanupOrderTimers(orderId)] *)
Definition cleanupOrderTimers (orderId : string) : M unit :=
  modify (with_timers (delete orderId)).

(** [Order.deleteById(id)]: [Map.prototype.delete] tells whether the key
    was there. *)
Definition Order_deleteById (id : string) : M bool :=
  λ s, (with_orders (delete id) s, inr (bool_decide (is_Some (orders s !! id)))).

(** The first driver of the pool who is not among [tried]. *)
Definition firstUntried (tried : list string) (nd : Driver.t) : Prop :=
  ∃ i, availableDrivers !! i = Some nd ∧
       (Driver.driverId nd ∉ tried) ∧
       ∀ j d, j < i → availableDrivers !! j = Some d → Driver.driverId d ∈ tried.

(** No candidate is left for a history of these drivers. *)
Definition exhausted (cfg : Config) (tried : list string) : Prop :=
  maxAssignmentAttempts cfg ≤ length tried ∨
  Forall (λ drv, Driver.driverId drv ∈ tried) availableDrivers.

(** The order an operation is about. *)
Definition opTarget (op : Op) : string :=
  match op with
  | Assign o _ | Respond o _ _ | TimerFired o _ => o
  end.

(** Apart from order [k] and its timer, [s'] is [s]. *)
Definition sameElsewhere (k : string) (s s' : State) : Prop :=
  ∀ k', k' ≠ k →
    orders s' !! k' = orders s !! k' ∧
    assignmentTimers s' !! k' = assignmentTimers s !! k'.

(** A second order, [o2], next to [o1] and its open offer. *)
Definition s_two : State :=
  (createOrder {| now := 500; genOrderId := "o2"; genAssignmentId := "a";
                  genLogId := "l"; elapsed := 0 |} "c2" "sushi" s_offered).1.

(** What identifies an offer: its id, its driver and the date it was made. *)
Definition offerKey (a : Assignment.t) : string * string * Z :=
  (Assignment._id a, Assignment.driverId a, Assignment.assignedAt a).

(** [o'] continues the audit trail of [o]: the offers of [o] are there, in
    place, each one as it was if it had an outcome; the log of [o] is there,
    at the front; the fixed data of the order are the same. *)
Record extends (o o' : Order.t) : Prop := {
  ex_offers :
    (offerKey <$> Order.driverAssignments o) `prefix_of`
    (offerKey <$> Order.driverAssignments o');
  ex_settled : ∀ i a,
    Order.driverAssignments o !! i = Some a →
    Assignment.status a ≠ A_PENDING →
    Order.driverAssignments o' !! i = Some a;
  ex_logs : Order.reassignmentLogs o `prefix_of` Order.reassignmentLogs o';
  ex_customer : Order.customerId o' = Order.customerId o;
  ex_details :
    Order.orderDetails o' = Order.orderDetails o ∨
    (Order.orderDetails o = "" ∧ Order.orderDetails o' = Order.defaultOrderDetails);
  ex_created : Order.createdAt o' = Order.createdAt o
}.

(** What holds of every order the engine has produced. *)
Record orderSound (o : Order.t) : Prop := {
  os_count :
    Order.reassignmentCount o = length (Order.driverAssignments o) - 1;
  os_logs : length (Order.reassignmentLogs o) ≤ Order.reassignmentCount o;
  os_status :
    Order.status o = O_PENDING ∨ Order.status o = O_ACCEPTED ∨ Order.status o = O_TIMEOUT;
  os_reasons :
    Forall (λ l, ReassignmentLog.reason l = "TIMEOUT" ∨
                 ReassignmentLog.reason l = "REJECTION") (Order.reassignmentLogs o);
  os_logged :
    Forall (λ l, ReassignmentLog.previousDriverId l ∈ historyDrivers o ∧
                 ReassignmentLog.newDriverId l ∈ historyDrivers o)
      (Order.reassignmentLogs o);
  os_current : ∀ d, Order.currentDriverId o = Some d → d ∈ historyDrivers o;
  os_accepted :
    Order.status o = O_ACCEPTED →
    Exists (λ a, Assignment.status a = A_ACCEPTED) (Order.driverAssignments o);
  os_timeout : Order.status o = O_TIMEOUT → is_Some (Order.timeoutAt o);
  os_responded :
    Forall (λ a, (Assignment.status a = A_PENDING ↔ Assignment.respondedAt a = None) ∧
                 Assignment.responseTime a =
                   (λ r, r - Assignment.assignedAt a)%Z <$> Assignment.respondedAt a)
      (Order.driverAssignments o);
  os_completed : Order.completedAt o = None
}.

(** The states of the engine: orders are created, with an id that is not
    empty, and operated on. *)
Inductive reachable (cfg : Config) : State → Prop :=
| reachable_init : reachable cfg initState
| reachable_create h customerId details s :
    reachable cfg s → genOrderId h ≠ "" →
    reachable cfg (createOrder h customerId details s).1
| reachable_step h op s :
    reachable cfg s → reachable cfg (step cfg h op s).1.

(** At most one open offer: every entry of the history has an outcome,
    except possibly the last, which is then the offer to the current
    driver; no driver occurs twice, none has an empty id, and the history
    is within the cap (one offer is always possible). *)
Record singleOffer (cfg : Config) (o : Order.t) : Prop := {
  so_shape :
    Forall (λ x, Assignment.status x ≠ A_PENDING) (Order.driverAssignments o) ∨
    ∃ l0 a,
      Order.driverAssignments o = (l0 ++ [a])%list ∧
      Forall (λ x, Assignment.status x ≠ A_PENDING) l0 ∧
      Assignment.status a = A_PENDING ∧
      Order.currentDriverId o = Some (Assignment.driverId a);
  so_nodup : NoDup (historyDrivers o);
  so_named : Forall (λ d, d ≠ "") (historyDrivers o);
  so_cap : length (Order.driverAssignments o) ≤ Nat.max 1 (maxAssignmentAttempts cfg)
}.

(** The states of the engine when an order is offered from outside only
    once, while its history is empty, and to a driver with a name; all
    later offers are the engine's own reassignments. *)
Inductive reachableFirstOffer (cfg : Config) : State → Prop :=
| rfo_init : reachableFirstOffer cfg initState
| rfo_create h customerId details s :
    reachableFirstOffer cfg s → genOrderId h ≠ "" →
    reachableFirstOffer cfg (createOrder h customerId details s).1
| rfo_offer h orderId driverId s :
    reachableFirstOffer cfg s → driverId ≠ "" →
    (∀ o, orders s !! orderId = Some o → Order.driverAssignments o = []) →
    reachableFirstOffer cfg (assignOrderToDriver cfg h orderId driverId s).1
| rfo_respond h orderId driverId accepted s :
    reachableFirstOffer cfg s →
    reachableFirstOffer cfg (handleDriverResponse cfg h orderId driverId accepted s).1
| rfo_timer h orderId driverId s :
    reachableFirstOffer cfg s →
    reachableFirstOffer cfg (handleDriverTimeoutReassignment cfg h orderId driverId s).1.

(** ** The chatbot of the notification service *)

(** [s.includes(pat)] *)
Fixpoint includes (pat s : string) : bool :=
  if String.prefix pat s then true
  else match s with
       | EmptyString => false
       | String _ s' => includes pat s'
       end.

(** What [handleCustomerChatbotQuery] resolves to. *)
Module ChatResponse.
Record t := mk {
  success : bool;
  orderId : string;
  customerId : string;
  queryType : option string;
  response : option string;
  error : option string;
  timestamp : option Z;
  responseTime : option Z
}.
End ChatResponse.

Section Chatbot.
(** [String.prototype.toLowerCase], a function of the host. *)
Variable toLowerCase : string → string.
Variable model : string.
Variable JSON_stringify : OrderStatusView.t → OpenAI.JsError + string.
Variable chat_completions_create :
  OpenAI.Request → OpenAI.JsError + OpenAI.Completion.

Definition determineQueryType (query : string) : string :=
  let queryLower := toLowerCase query in
  if includes "atraso" queryLower || includes "demora" queryLower then
    "delay_explanation"
  else if includes "novo motorista" queryLower || includes "reatribuição" queryLower then
    "reassignment_reason"
  else if includes "cancelar" queryLower || includes "cancelamento" queryLower then
    "timeout_explanation"
  else "general_status".

Definition handleCustomerChatbotQuery (h : Host) (orderId customerId query : string)
    (s : State) : ChatResponse.t :=
  let failed (msg : string) :=
    ChatResponse.mk false orderId customerId None None (Some msg) None None in
  let queryType := determineQueryType query in
  match (getOrderStatus h orderId s).2 with
  | inl e => failed (Error_message e)
  | inr orderStatus =>
      match generateOrderStatusMessage model JSON_stringify chat_completions_create
              orderStatus queryType with
      | inl e => failed (OpenAI.message e)
      | inr response =>
          ChatResponse.mk true orderId customerId (Some queryType) (Some response) None
            (Some (now h)) (Some (elapsed h))
      end
  end.
End Chatbot.

(** ** Notifications, one after the other *)

(** The three entry points of the notification service. *)
Inductive NotifyCall :=
| AboutStatus (orderId customerId queryType : string)
| AboutReassignment (orderId customerId : string) (reassignmentCount : nat)
| AboutTimeout (orderId customerId : string).

Definition callOrder (c : NotifyCall) : string :=
  match c with
  | AboutStatus o _ _ | AboutReassignment o _ _ | AboutTimeout o _ => o
  end.

Section NotificationRuns.
Variable ncfg : NotifyConfig.
Variable model : string.
Variable JSON_stringify : OrderStatusView.t → OpenAI.JsError + string.
Variable chat_completions_create :
  OpenAI.Request → OpenAI.JsError + OpenAI.Completion.

Definition notify (h : Host) (c : NotifyCall) (s : State) (counters : gmap string nat)
    : gmap string nat * Notification.t :=
  match c with
  | AboutStatus o cu q =>
      notifyCustomerAboutOrderStatus ncfg model JSON_stringify chat_completions_create
        h o cu q s counters
  | AboutReassignment o cu n =>
      notifyCustomerAboutReassignment ncfg model JSON_stringify chat_completions_create
        h o cu n s counters
  | AboutTimeout o cu =>
      notifyCustomerAboutTimeout ncfg model JSON_stringify chat_completions_create
        h o cu s counters
  end.

(** Calls that each complete before the next one starts, each at its own
    instant and state of the engine. *)
Fixpoint notifyAll (calls : list (Host * State * NotifyCall)) (counters : gmap string nat)
    : gmap string nat :=
  match calls with
  | [] => counters
  | (h, s, c) :: calls' => notifyAll calls' (notify h c s counters).1
  end.
End NotificationRuns.

(** ** The health probe of services/openaiService *)

Module ApiHealth.
(** What [getApiHealth] resolves to, without its timestamp. *)
Record t := mk {
  status : string;
  error : option string;
  model : string;
  apiVersion : string
}.
End ApiHealth.

(** [OpenAIService.getApiHealth]; [models_list] is the outcome of
    [this.client.models.list()]. *)
Definition getApiHealth (model apiVersion : string) (models_list : OpenAI.JsError + unit)
    : OpenAI.JsError + ApiHealth.t :=
  match models_list with
  | inr _ => inr (ApiHealth.mk "healthy" None model apiVersion)
  | inl error =>
      inr (ApiHealth.mk "unhealthy" (Some (OpenAI.message error)) model apiVersion)
  end.

(** ** middleware/errorHandler and controllers/orderController *)

Module Http.
(** The JSON bodies the controllers and the error handler send, without
    their timestamps and measured times. *)
Inductive Body :=
| OrderBody (message : option string) (order : Order.t)
| StatusBody (orderStatus : OrderStatusView.t)
| ChatBody (response : ChatResponse.t)
| HealthBody (status : string) (openai : ApiHealth.t) (chatbot : string)
| UnhealthyBody (error : string)
| ErrorBody (statusCode : nat) (message : string).

Record Response := mk { status : nat; body : Body }.
End Http.

(** What reaches [next(error)]: an [ApiError], or an [Error] thrown by the
    service, which has no [statusCode] and no [isOperational]. *)
Inductive Thrown :=
| ApiError (statusCode : nat) (message : string) (isOperational : bool)
| ServiceError (e : Error).

Definition badRequest (message : string) : Thrown := ApiError 400 message true.
Definition notFound (message : string) : Thrown := ApiError 404 message true.
Definition serverError (message : string) (isOperational : bool) : Thrown :=
  ApiError 500 message isOperational.

(** [errorHandler(err, req, res, next)]; [production] is
    [process.env.NODE_ENV === 'production']. *)
Definition errorHandler (production : bool) (err : Thrown) : Http.Response :=
  let statusCode :=
    match err with
    | ApiError c _ _ => if decide (c = 0) then 500 else c
    | ServiceError _ => 500
    end in
  let message :=
    match err with ApiError _ m _ => m | ServiceError e => Error_message e end in
  let errorMessage := if decide (message = "") then "Internal Server Error" else message in
  let isOperational :=
    match err with ApiError _ _ op => op | ServiceError _ => true end in
  let errorMessage :=
    if production && negb isOperational then "Internal Server Error" else errorMessage in
  Http.mk statusCode (Http.ErrorBody statusCode errorMessage).

(** [!x] for a field of the request body that is a string or absent. *)
Definition missing (x : option string) : bool :=
  match x with
  | None => true
  | Some v => bool_decide (v = "")
  end.

Section OrderController.
Variable cfg : Config.
Variable ncfg : NotifyConfig.
Variable production : bool.
Variable model : string.
Variable JSON_stringify : OrderStatusView.t → OpenAI.JsError + string.
Variable chat_completions_create :
  OpenAI.Request → OpenAI.JsError + OpenAI.Completion.

Definition ctl_createOrder (h : Host) (customerId orderDetails : option string)
    (s : State) : State * Http.Response :=
  match customerId, orderDetails with
  | Some c, Some d =>
      if missing customerId || missing orderDetails then
        (s, errorHandler production
              (badRequest "Missing required fields: customerId and orderDetails"))
      else
        match createOrder h c d s with
        | (s', inr newOrder) => (s', Http.mk 201 (Http.OrderBody None newOrder))
        | (s', inl e) => (s', errorHandler production (ServiceError e))
        end
  | _, _ =>
      (s, errorHandler production
            (badRequest "Missing required fields: customerId and orderDetails"))
  end.

Definition ctl_getOrderById (h : Host) (orderId : string) (s : State)
    : State * Http.Response :=
  match Order_findById h orderId s with
  | (s', inr (Some order)) => (s', Http.mk 200 (Http.OrderBody None order))
  | (s', inr None) =>
      (s', errorHandler production (notFound ("Order not found: " ++ orderId)))
  | (s', inl e) => (s', errorHandler production (ServiceError e))
  end.

Definition ctl_assignOrderToDriver (h : Host) (orderId : string) (driverId : option string)
    (s : State) : State * Http.Response :=
  match driverId with
  | Some d =>
      if missing driverId then
        (s, errorHandler production (badRequest "Driver ID is required"))
      else
        match assignOrderToDriver cfg h orderId d s with
        | (s', inr updatedOrder) =>
            (s', Http.mk 200
                   (Http.OrderBody
                      (Some ("Order " ++ orderId ++ " assigned to driver " ++ d))
                      updatedOrder))
        | (s', inl e) => (s', errorHandler production (ServiceError e))
        end
  | None => (s, errorHandler production (badRequest "Driver ID is required"))
  end.

(** The controller does not wait for the notification it starts; its
    outcome is the third component: the counters afterwards and what the
    notification resolved to, or nothing when none was started. *)
Definition ctl_handleDriverResponse (h : Host) (orderId : string)
    (driverId : option string) (accepted : option bool)
    (s : State) (counters : gmap string nat)
    : State * Http.Response * (gmap string nat * option Notification.t) :=
  match driverId, accepted with
  | Some d, Some acc =>
      match handleDriverResponse cfg h orderId d acc s with
      | (s', inr updatedOrder) =>
          let sent :=
            if negb acc && bool_decide (0 < Order.reassignmentCount updatedOrder) then
              let r := notifyCustomerAboutReassignment ncfg model JSON_stringify
                         chat_completions_create h orderId
                         (Order.customerId updatedOrder)
                         (Order.reassignmentCount updatedOrder) s' counters in
              (r.1, Some r.2)
            else (counters, None) in
          (s',
           Http.mk 200
             (Http.OrderBody
                (Some ("Driver " ++ d ++ " " ++ (if acc then "accepted" else "rejected")
                       ++ " order " ++ orderId))
                updatedOrder),
           sent)
      | (s', inl e) => (s', errorHandler production (ServiceError e), (counters, None))
      end
  | _, _ =>
      (s, errorHandler production
            (badRequest "Driver ID and response (accepted) are required"),
       (counters, None))
  end.

Definition ctl_getOrderStatus (h : Host) (orderId : string) (s : State)
    : State * Http.Response :=
  match getOrderStatus h orderId s with
  | (s', inr orderStatus) => (s', Http.mk 200 (Http.StatusBody orderStatus))
  | (s', inl e) => (s', errorHandler production (ServiceError e))
  end.

(** routes/orderRoutes: the five routes of the router, each with the part of
    the request its controller reads. *)
Inductive Request :=
| POST_orders (customerId orderDetails : option string)
| GET_order (orderId : string)
| GET_status (orderId : string)
| POST_assign (orderId : string) (driverId : option string)
| POST_driver_response (orderId : string) (driverId : option string)
    (accepted : option bool).

Definition orderRoutes (h : Host) (req : Request) (s : State) (counters : gmap string nat)
    : State * Http.Response * (gmap string nat * option Notification.t) :=
  match req with
  | POST_orders c d => (ctl_createOrder h c d s, (counters, None))
  | GET_order k => (ctl_getOrderById h k s, (counters, None))
  | GET_status k => (ctl_getOrderStatus h k s, (counters, None))
  | POST_assign k d => (ctl_assignOrderToDriver h k d s, (counters, None))
  | POST_driver_response k d acc => ctl_handleDriverResponse h k d acc s counters
  end.
End OrderController.

(** The request carries every field its controller asks for. *)
Definition bodyComplete (req : Request) : bool :=
  match req with
  | POST_orders c d => negb (missing c) && negb (missing d)
  | POST_assign _ d => negb (missing d)
  | POST_driver_response _ d acc => bool_decide (is_Some d) && bool_decide (is_Some acc)
  | GET_order _ | GET_status _ => true
  end.

(** The order named in the path of the request. *)
Definition requestOrder (req : Request) : option string :=
  match req with
  | POST_orders _ _ => None
  | GET_order k | GET_status k | POST_assign k _ | POST_driver_response k _ _ => Some k
  end.

(** ** controllers/chatController *)

Section ChatController.
Variable production : bool.
Variable toLowerCase : string → string.
Variable model : string.
Variable apiVersion : string.
Variable JSON_stringify : OrderStatusView.t → OpenAI.JsError + string.
Variable chat_completions_create :
  OpenAI.Request → OpenAI.JsError + OpenAI.Completion.

Definition ctl_handleChatQuery (h : Host) (orderId customerId message : option string)
    (s : State) : Http.Response :=
  match orderId, customerId, message with
  | Some k, Some c, Some m =>
      if missing orderId || missing customerId || missing message then
        errorHandler production
          (badRequest "Missing required fields: orderId, customerId, and message are required")
      else
        Http.mk 200
          (Http.ChatBody
             (handleCustomerChatbotQuery toLowerCase model JSON_stringify
                chat_completions_create h k c m s))
  | _, _, _ =>
      errorHandler production
        (badRequest "Missing required fields: orderId, customerId, and message are required")
  end.

Definition ctl_getHealthStatus (models_list : OpenAI.JsError + unit) : Http.Response :=
  match getApiHealth model apiVersion models_list with
  | inr apiHealth =>
      Http.mk 200
        (Http.HealthBody
           (if decide (ApiHealth.status apiHealth = "healthy") then "healthy" else "degraded")
           apiHealth "healthy")
  | inl error => Http.mk 500 (Http.UnhealthyBody (OpenAI.message error))
  end.
End ChatController.
(** * Properties *)

(** ** Reading the database *)

Lemma findById_eq h id s :
  Order_findById h id s = (s, inr (Order.revive h <$> orders s !! id)).
Proof. reflexivity. Qed.

Lemma findById_stored h id s o :
  orders s !! id = Some o → Order_findById h id s = (s, inr (Some (Order.revive h o))).
Proof. intros Ho. rewrite findById_eq, Ho. reflexivity. Qed.

Lemma findById_missing h id s :
  orders s !! id = None → Order_findById h id s = (s, inr None).
Proof. intros Ho. rewrite findById_eq, Ho. reflexivity. Qed.

Lemma revive_id h o : Order._id o ≠ "" → Order._id (Order.revive h o) = Order._id o.
Proof. intros Hne. simpl. destruct (decide (Order._id o = "")); congruence. Qed.

Lemma getOrderStatus_reads h id s : (getOrderStatus h id s).1 = s.
Proof.
  unfold getOrderStatus, mbind, M_bind. rewrite findById_eq.
  destruct (orders s !! id); reflexivity.
Qed.

Lemma getOrderStatus_found h id s o :
  orders s !! id = Some o → ∃ v, (getOrderStatus h id s).2 = inr v.
Proof.
  intros Ho. unfold getOrderStatus, mbind, M_bind. rewrite findById_eq, Ho.
  simpl. eauto.
Qed.

(** ** Text generation never throws *)

Lemma generate_returns model js create od q :
  ∃ text, generateOrderStatusMessage model js create od q = inr text.
Proof.
  unfold generateOrderStatusMessage.
  destruct (generateOrderStatusMessage_try model js create od q); eauto.
Qed.

Lemma generate_fallback_on_throw model js create od q context e :
  js od = inr context →
  create (OpenAI.mkRequest model (systemMessageFor context) (promptFor od q) 300) = inl e →
  generateOrderStatusMessage model js create od q = inr (getFallbackMessage od q).
Proof.
  intros Hjs Hthrow. unfold generateOrderStatusMessage, generateOrderStatusMessage_try.
  rewrite Hjs, Hthrow. reflexivity.
Qed.

Lemma generate_fallback_on_context model js create od q e :
  js od = inl e →
  generateOrderStatusMessage model js create od q = inr (getFallbackMessage od q).
Proof.
  intros Hjs. unfold generateOrderStatusMessage, generateOrderStatusMessage_try.
  rewrite Hjs. reflexivity.
Qed.

(** C9. [generateOrderStatusMessage] resolves to a text for every order
    snapshot, query type and behaviour of the two host calls. When the call
    to OpenAI that the function makes (the request it builds for this order
    and query type) throws, a timeout included, the text is the fallback of
    the query type, and so it is when the order context cannot be
    serialised. The fallback is one of three fixed messages for the three
    known kinds and the default message for every other query type. *)
Theorem C9_generateOrderStatusMessage_contains_failures
    (model : string) (js : OrderStatusView.t → OpenAI.JsError + string)
    (create : OpenAI.Request → OpenAI.JsError + OpenAI.Completion)
    (od : OrderStatusView.t) (q : string) :
  (∃ text, generateOrderStatusMessage model js create od q = inr text) ∧
  (∀ context e,
     js od = inr context →
     create (OpenAI.mkRequest model (systemMessageFor context) (promptFor od q) 300)
       = inl e →
     generateOrderStatusMessage model js create od q = inr (getFallbackMessage od q)) ∧
  (∀ e, js od = inl e →
     generateOrderStatusMessage model js create od q = inr (getFallbackMessage od q)) ∧
  getFallbackMessage od "reassignment_reason" =
    "Estamos reatribuindo seu pedido #" ++ OrderStatusView.orderId od ++
    " para outro motorista para garantir a entrega mais rápida possível. Pedimos desculpas pelo inconveniente." ∧
  getFallbackMessage od "delay_explanation" =
    "Pedimos desculpas pelo atraso no seu pedido #" ++ OrderStatusView.orderId od ++
    ". Estamos trabalhando para entregá-lo o mais rápido possível." ∧
  getFallbackMessage od "timeout_explanation" =
    "Infelizmente, não conseguimos encontrar um motorista disponível para seu pedido #"
    ++ OrderStatusView.orderId od ++
    " após várias tentativas. Por favor, entre em contato com nosso suporte para assistência." ∧
  (q ≠ "reassignment_reason" → q ≠ "delay_explanation" → q ≠ "timeout_explanation" →
     getFallbackMessage od q =
       "O status atual do seu pedido #" ++ OrderStatusView.orderId od ++ " é: " ++
       OrderStatus_str (OrderStatusView.status od) ++ ". Obrigado pela paciência.").
Proof.
  split; [apply generate_returns|].
  split; [intros context e; apply generate_fallback_on_throw|].
  split; [intros e; apply generate_fallback_on_context|].
  repeat split; try reflexivity.
  intros H1 H2 H3. unfold getFallbackMessage.
  repeat case_decide; congruence.
Qed.

Lemma C9_witness :
  generateOrderStatusMessage "gpt-4o-mini" jsonOk apiDown
    (OrderStatusView.mk "o1" O_TIMEOUT (Some "d1") 4 [] 0 (Some 9000%Z) 15 "pizza")
    "timeout_explanation"
  = inr ("Infelizmente, não conseguimos encontrar um motorista disponível para seu pedido #o1 após várias tentativas. Por favor, entre em contato com nosso suporte para assistência.").
Proof.
  pose proof (C9_generateOrderStatusMessage_contains_failures "gpt-4o-mini" jsonOk apiDown
    (OrderStatusView.mk "o1" O_TIMEOUT (Some "d1") 4 [] 0 (Some 9000%Z) 15 "pizza")
    "timeout_explanation") as (_ & Hthrow & _).
  rewrite (Hthrow _ _ eq_refl eq_refl). reflexivity.
Defined.

(** ** Notifications *)

Lemma notifyStatus_sends ncfg model js create h orderId customerId q s counters o :
  shouldLimitNotifications ncfg orderId counters = false →
  orders s !! orderId = Some o →
  ∃ text,
    notifyCustomerAboutOrderStatus ncfg model js create h orderId customerId q s counters =
      (incrementNotificationCounter orderId counters,
       Notification.mk true orderId (Some customerId) (Some q) (Some text) false None
         (Some (now h)) (Some (elapsed h))).
Proof.
  intros Hlim Ho. unfold notifyCustomerAboutOrderStatus. rewrite Hlim.
  destruct (getOrderStatus_found h orderId s o Ho) as [v ->].
  destruct (generate_returns model js create v q) as [text ->].
  eauto.
Qed.

Lemma notifyStatus_limited ncfg model js create h orderId customerId q s counters :
  shouldLimitNotifications ncfg orderId counters = true →
  notifyCustomerAboutOrderStatus ncfg model js create h orderId customerId q s counters =
    (counters,
     Notification.mk false orderId (Some customerId) None
       (Some "Notification limit reached for this order") false None None None).
Proof. intros Hlim. unfold notifyCustomerAboutOrderStatus. rewrite Hlim. reflexivity. Qed.

Lemma count_after_increment orderId counters :
  getNotificationCount orderId (incrementNotificationCounter orderId counters) =
  S (getNotificationCount orderId counters).
Proof.
  unfold incrementNotificationCounter, getNotificationCount at 1.
  rewrite lookup_insert_eq. simpl. lia.
Qed.

(** C7 fails as stated: notifications are enabled, no notification of
    [o7] has been sent and the reassignment count is 2, but [o7] is not
    stored: no message is produced and nothing is counted; the result
    reports "Order not found". *)
Lemma C7_counterexample :
  enableReassignmentNotifications notifyOn = true ∧
  shouldLimitNotifications notifyOn "o7" ∅ = false ∧
  orders s_offered !! "o7" = None ∧
  notifyCustomerAboutReassignment notifyOn "gpt-4o-mini" jsonOk apiUp (hostAt 3000)
    "o7" "c1" 2 s_offered ∅ =
  (∅,
   Notification.mk false "o7" (Some "c1") None None false
     (Some "Order not found: o7") None None) ∧
  Notification.message
    (notifyCustomerAboutReassignment notifyOn "gpt-4o-mini" jsonOk apiUp (hostAt 3000)
       "o7" "c1" 2 s_offered ∅).2 = None.
Proof. vm_compute. repeat split; reflexivity. Qed.

(** C7, amended. With reassignment notifications enabled,
    [notifyCustomerAboutReassignment] skips when the reassignment count is 0
    or 1: no message, counter untouched, whether or not the order is stored.
    When the count is 2 or more and the cap of the order is not reached, it
    reads the status of the order: if the order is stored, it has
    [generateOrderStatusMessage] produce the text for it under
    [reassignment_reason], reports that text as the message of a successful
    notification, and counts it; if the order is not stored, it reports
    "Order not found", with no message, and counts nothing. At the cap it
    reports the limit, with no text generated and nothing counted. *)
Theorem C7_first_reassignment_not_notified
    (ncfg : NotifyConfig) (model : string)
    (js : OrderStatusView.t → OpenAI.JsError + string)
    (create : OpenAI.Request → OpenAI.JsError + OpenAI.Completion)
    (h : Host) (orderId customerId : string) (n : nat)
    (s : State) (counters : gmap string nat) :
  enableReassignmentNotifications ncfg = true →
  let r := notifyCustomerAboutReassignment ncfg model js create h orderId customerId n
             s counters in
  (n ≤ 1 →
     r = (counters, Notification.mk false orderId None None None true None None None)) ∧
  (2 ≤ n →
     getNotificationCount orderId counters < maxNotificationsPerOrder ncfg →
     match orders s !! orderId with
     | Some o =>
         ∃ v text,
           getOrderStatus h orderId s = (s, inr v) ∧
           OrderStatusView.orderId v = Order._id (Order.revive h o) ∧
           OrderStatusView.status v = Order.status o ∧
           OrderStatusView.reassignmentCount v = Order.reassignmentCount o ∧
           generateOrderStatusMessage model js create v "reassignment_reason" = inr text ∧
           r = (incrementNotificationCounter orderId counters,
                Notification.mk true orderId (Some customerId)
                  (Some "reassignment_reason") (Some text) false None
                  (Some (now h)) (Some (elapsed h))) ∧
           getNotificationCount orderId r.1 = S (getNotificationCount orderId counters)
     | None =>
         r = (counters,
              Notification.mk false orderId (Some customerId) None None false
                (Some ("Order not found: " ++ orderId)) None None)
     end) ∧
  (2 ≤ n →
     maxNotificationsPerOrder ncfg ≤ getNotificationCount orderId counters →
     r = (counters,
          Notification.mk false orderId (Some customerId) None
            (Some "Notification limit reached for this order") false None None None)).
Proof.
  intros Hen r. subst r. unfold notifyCustomerAboutReassignment.
  rewrite Hen. cbn [negb]. split; [|split]; intros Hn.
  - rewrite bool_decide_eq_true_2 by done. reflexivity.
  - intros Hcap. rewrite bool_decide_eq_false_2 by lia.
    unfold notifyCustomerAboutOrderStatus, shouldLimitNotifications.
    rewrite bool_decide_eq_false_2 by lia.
    unfold getOrderStatus, mbind, M_bind. rewrite findById_eq.
    destruct (orders s !! orderId) as [o|]; [|reflexivity].
    cbn [fmap option_fmap option_map fst snd mret M_ret].
    match goal with |- context [generateOrderStatusMessage ?m ?j ?c ?v ?q] =>
      destruct (generate_returns m j c v q) as [text Htext]; exists v, text end.
    rewrite Htext. cbn [fst]. rewrite count_after_increment.
    repeat split; exact Htext.
  - intros Hcap. rewrite bool_decide_eq_false_2 by lia.
    apply notifyStatus_limited. unfold shouldLimitNotifications.
    by apply bool_decide_eq_true_2.
Qed.

Lemma C7_witness :
  (notifyCustomerAboutReassignment notifyOn "gpt-4o-mini" jsonOk apiUp (hostAt 3000)
     "o1" "c1" 1 s_offered ∅).1 = ∅ ∧
  Notification.queryType
    (notifyCustomerAboutReassignment notifyOn "gpt-4o-mini" jsonOk apiUp (hostAt 3000)
       "o1" "c1" 2 s_offered ∅).2 = Some "reassignment_reason" ∧
  getNotificationCount "o1"
    (notifyCustomerAboutReassignment notifyOn "gpt-4o-mini" jsonOk apiUp (hostAt 3000)
       "o1" "c1" 2 s_offered ∅).1 = 1.
Proof.
  assert (Hs : ∃ o, orders s_offered !! "o1" = Some o) by (vm_compute; eauto).
  destruct Hs as [o Ho].
  assert (Hcap : getNotificationCount "o1" ∅ < maxNotificationsPerOrder notifyOn)
    by (vm_compute; lia).
  destruct (C7_first_reassignment_not_notified notifyOn "gpt-4o-mini" jsonOk apiUp
              (hostAt 3000) "o1" "c1" 1 s_offered ∅ eq_refl) as [H1 _].
  destruct (C7_first_reassignment_not_notified notifyOn "gpt-4o-mini" jsonOk apiUp
              (hostAt 3000) "o1" "c1" 2 s_offered ∅ eq_refl) as (_ & H2 & _).
  split.
  - rewrite H1 by lia. reflexivity.
  - specialize (H2 ltac:(lia) Hcap). rewrite Ho in H2.
    destruct H2 as (v & text & _ & _ & _ & _ & _ & Hr & Hcount).
    split; [rewrite Hr; reflexivity|]. rewrite Hcount. reflexivity.
Defined.

(** C8 fails on the code. Order [o1] is exhausted after five rejections;
    the reassignment notifications of counts 2, 3 and 4 reach the default
    cap of 3; the timeout notification that follows is dropped: no text is
    generated, the result reports the limit and the counter stays at 3. *)
Theorem C8_timeout_notification_dropped_at_cap :
  Order.status <$> orders s_exhausted !! "o1" = Some O_TIMEOUT ∧
  getNotificationCount "o1" countersAtCap = 3 ∧
  notifyCustomerAboutTimeout notifyOn "gpt-4o-mini" jsonOk apiUp (hostAt 9000)
    "o1" "c1" s_exhausted countersAtCap =
  (countersAtCap,
   Notification.mk false "o1" (Some "c1") None
     (Some "Notification limit reached for this order") false None None None).
Proof. vm_compute. repeat split; reflexivity. Qed.

(** At the cap, the timeout notification is dropped for every order and
    every state of the engine. *)
Lemma timeout_notification_limited ncfg model js create h orderId customerId s counters :
  (maxNotificationsPerOrder ncfg ≤ getNotificationCount orderId counters)%nat →
  notifyCustomerAboutTimeout ncfg model js create h orderId customerId s counters =
    (counters,
     Notification.mk false orderId (Some customerId) None
       (Some "Notification limit reached for this order") false None None None).
Proof.
  intros Hcap. unfold notifyCustomerAboutTimeout. apply notifyStatus_limited.
  unfold shouldLimitNotifications. by apply bool_decide_eq_true_2.
Qed.

(** ** A response before any offer *)

(** C10 fails on the code. On an order that was created and never offered,
    [handleDriverResponse] throws the runtime's [TypeError] for reading
    [toString] of [null], which is not one of the service's own errors; the
    state is left as it was. *)
Theorem C10_response_before_offer_dereferences_null
    (cfg : Config) (h h' : Host) (customerId details driverId : string) (accepted : bool) :
  let s := (createOrder h customerId details initState).1 in
  handleDriverResponse cfg h' (genOrderId h) driverId accepted s =
    (s, inl (TypeErrorNull "toString")) ∧
  domainError (TypeErrorNull "toString") = false.
Proof.
  intros s. split; [|reflexivity].
  unfold handleDriverResponse, mbind, M_bind. rewrite findById_eq.
  subst s. unfold createOrder, Order_save, mbind, M_bind, modify, with_orders. simpl.
  rewrite lookup_insert_eq. reflexivity.
Qed.

(** ** Late and duplicate responses *)

Lemma no_pending_list_find d (l : list Assignment.t) :
  ¬ Exists (Assignment.pendingFor d) l → list_find (Assignment.pendingFor d) l = None.
Proof.
  intros Hno. apply list_find_None. apply Forall_forall. intros a Ha Hp.
  apply Hno. apply Exists_exists. eauto.
Qed.

Lemma no_pending_find d (l : list Assignment.t) :
  ¬ Exists (Assignment.pendingFor d) l →
  List.find (λ a, bool_decide (Assignment.pendingFor d a)) l = None.
Proof.
  induction l as [|a l IH]; intros Hno; [reflexivity|]. simpl.
  rewrite bool_decide_eq_false_2.
  - apply IH. intros Hex. apply Hno. by right.
  - intros Hp. apply Hno. by left.
Qed.

Lemma revive_current h o cur :
  Order.currentDriverId o = Some cur → cur ≠ "" →
  Order.currentDriverId (Order.revive h o) = Some cur.
Proof. intros Hc Hne. simpl. rewrite Hc. destruct (decide (cur = "")); congruence. Qed.

(** C4 fails as stated: the driver who accepted answers again, and the
    operation throws instead of acknowledging. *)
Lemma C4_counterexample :
  handleDriverResponse defaultConfig (hostAt 3000) "o1" "d1" true s_accepted =
    (s_accepted, inl NoPendingAssignment) ∧
  ¬ acknowledgedNoOp defaultConfig (hostAt 3000) "o1" "d1" true s_accepted.
Proof.
  assert (Hr : handleDriverResponse defaultConfig (hostAt 3000) "o1" "d1" true s_accepted =
               (s_accepted, inl NoPendingAssignment)) by (vm_compute; reflexivity).
  split; [exact Hr|]. intros [o Ho]. rewrite Hr in Ho. discriminate.
Qed.

(** C4, amended. For a stored order that has a current driver and no open
    offer to the responding driver, [handleDriverResponse] throws: "Driver
    ... is not currently assigned ..." when the driver is not the current
    one, "No pending assignment found for this driver" when it is. The
    stored orders are unchanged in both cases; in the second the order's
    timer entry has been removed before the throw. *)
Theorem C4_late_response_is_an_error
    (cfg : Config) (h : Host) (s : State) (orderId driverId : string) (accepted : bool)
    (o : Order.t) (cur : string) :
  orders s !! orderId = Some o →
  Order.currentDriverId o = Some cur →
  cur ≠ "" →
  ¬ hasPending driverId o →
  let r := handleDriverResponse cfg h orderId driverId accepted s in
  orders r.1 = orders s ∧
  (cur ≠ driverId → r = (s, inl (NotCurrentDriver driverId orderId))) ∧
  (cur = driverId → r = (with_timers (delete orderId) s, inl NoPendingAssignment)).
Proof.
  intros Ho Hcur Hne Hno r. subst r.
  unfold handleDriverResponse, mbind, M_bind. rewrite (findById_stored h _ _ o Ho).
  lazy beta iota. rewrite (revive_current h o cur Hcur Hne).
  destruct (decide (cur ≠ driverId)) as [Hd|Hd].
  - split; [reflexivity|]. split; [reflexivity|]. intros ->. done.
  - apply dec_stable in Hd. subst cur.
    unfold modify at 1. lazy beta iota.
    unfold Order_recordDriverResponse.
    change (Order.driverAssignments (Order.revive h o)) with (Order.driverAssignments o).
    rewrite (no_pending_list_find driverId _ Hno).
    split; [reflexivity|]. split; [done|]. reflexivity.
Qed.

Lemma C4_witness :
  handleDriverResponse defaultConfig (hostAt 3000) "o1" "d1" false s_accepted =
    (with_timers (delete "o1") s_accepted, inl NoPendingAssignment).
Proof.
  assert (Hs : ∃ o, orders s_accepted !! "o1" = Some o ∧
                    Order.currentDriverId o = Some "d1" ∧ ¬ hasPending "d1" o).
  { eexists. split; [vm_compute; reflexivity|]. split; [reflexivity|].
    unfold hasPending. simpl. rewrite Exists_cons, Exists_nil.
    unfold Assignment.pendingFor. simpl. intros [[_ ?]|[]]. discriminate. }
  destruct Hs as (o & Ho & Hcur & Hno).
  apply (C4_late_response_is_an_error defaultConfig (hostAt 3000) s_accepted "o1" "d1"
           false o "d1" Ho Hcur); [discriminate|exact Hno|reflexivity].
Defined.

(** ** What the operations preserve *)

Lemma evolves_refl o : evolves o o.
Proof. split; auto. Qed.

Lemma evolves_trans o1 o2 o3 : evolves o1 o2 → evolves o2 o3 → evolves o1 o3.
Proof.
  intros [Hid1 Hst1 Hse1] [Hid2 Hst2 Hse2]. split.
  - congruence.
  - auto.
  - intros i a Hi Ha. eauto.
Qed.

Lemma evolves_revive h o : Order._id o ≠ "" → evolves o (Order.revive h o).
Proof. intros Hne. split; [by apply revive_id|auto|auto]. Qed.

Lemma orders_evolve_refl m : orders_evolve m m.
Proof. intros k. destruct (m !! k); [apply evolves_refl|exact I]. Qed.

Lemma orders_evolve_trans m1 m2 m3 :
  orders_evolve m1 m2 → orders_evolve m2 m3 → orders_evolve m1 m3.
Proof.
  intros H12 H23 k. specialize (H12 k). specialize (H23 k).
  destruct (m1 !! k), (m2 !! k), (m3 !! k); try done.
  eapply evolves_trans; eauto.
Qed.

Lemma orders_evolve_insert m m' k o o' :
  orders_evolve m m' → m !! k = Some o → evolves o o' →
  orders_evolve m (<[k:=o']> m').
Proof.
  intros Hm Hk Ho k'. destruct (decide (k = k')) as [<-|Hne].
  - rewrite Hk, lookup_insert_eq. exact Ho.
  - rewrite lookup_insert_ne by done. apply Hm.
Qed.

Lemma orders_evolve_wf s s' :
  store_wf s → orders_evolve (orders s) (orders s') → store_wf s'.
Proof.
  intros Hwf Hev k o' Hk. specialize (Hev k). rewrite Hk in Hev.
  destruct (orders s !! k) as [o|] eqn:Ho; [|done].
  destruct (Hwf k o Ho) as [Hid Hne]. split; [|done].
  rewrite <- Hid. apply Hev.
Qed.

Lemma save_eq h o s :
  Order_save h o s =
    (with_orders (insert (Order._id o) (Order.set_updatedAt (now h) o)) s,
     inr (Order.set_updatedAt (now h) o)).
Proof. reflexivity. Qed.

Lemma addDriverAssignment_evolves h d o s :
  ∃ o', Order_addDriverAssignment h d o s =
          (with_orders (insert (Order._id o) o') s, inr o') ∧ evolves o o'.
Proof.
  eexists. split; [reflexivity|]. split; [reflexivity|auto|].
  intros i a Hi _. simpl. by apply lookup_app_l_Some.
Qed.

Lemma markAsTimedOut_evolves h o s :
  ∃ o', Order_markAsTimedOut h o s =
          (with_orders (insert (Order._id o) o') s, inr o') ∧ evolves o o'.
Proof.
  eexists. split; [reflexivity|]. split; [reflexivity| |auto].
  intros _. simpl. discriminate.
Qed.

(** Marking the first open offer to [d] touches no settled entry. *)
Lemma respond_first_settled h st d (l : list Assignment.t) i a j b :
  list_find (Assignment.pendingFor d) l = Some (i, a) →
  l !! j = Some b → Assignment.status b ≠ A_PENDING →
  <[i := Assignment.respond h st a]> l !! j = Some b.
Proof.
  intros Hfind Hj Hb. apply list_find_Some in Hfind as (Hi & [_ Hp] & _).
  rewrite list_lookup_insert_ne; [done|]. intros ->. congruence.
Qed.

Lemma recordDriverResponse_evolves h d st o s :
  Order_recordDriverResponse h d st o s = (s, inl NoPendingAssignment) ∨
  ∃ o', Order_recordDriverResponse h d st o s =
          (with_orders (insert (Order._id o) o') s, inr o') ∧ evolves o o'.
Proof.
  unfold Order_recordDriverResponse.
  destruct (list_find _ _) as [[i a]|] eqn:Hfind; [right|by left].
  destruct (decide (st = A_ACCEPTED)).
  - eexists. split; [reflexivity|]. split; [reflexivity|simpl; discriminate|].
    intros j b Hj Hb. simpl. eauto using respond_first_settled.
  - eexists. split; [reflexivity|]. split; [reflexivity|auto|].
    intros j b Hj Hb. simpl. eauto using respond_first_settled.
Qed.

Lemma recordReassignment_evolves h p n reason o s :
  ∃ o', Order_recordReassignment h p n reason o s =
          (with_orders (insert (Order._id o) o') s, inr o') ∧ evolves o o'.
Proof.
  eexists. split; [reflexivity|]. split; [reflexivity|auto|].
  intros j b Hj Hb. simpl. apply lookup_app_l_Some.
  destruct (list_find _ _) as [[i a]|] eqn:Hfind; [|done].
  eauto using respond_first_settled.
Qed.

Lemma getNext_reads cfg h id s : (getNextAvailableDriver cfg h id s).1 = s.
Proof.
  unfold getNextAvailableDriver, mbind, M_bind. rewrite findById_eq.
  destruct (orders s !! id); simpl; [|reflexivity].
  by destruct (decide _).
Qed.

Lemma stored_key h s k o :
  store_wf s → orders s !! k = Some o →
  Order._id (Order.revive h o) = k ∧ evolves o (Order.revive h o).
Proof.
  intros Hwf Ho. destruct (Hwf k o Ho) as [Hid Hne].
  assert (Order._id o ≠ "") by congruence.
  split; [rewrite revive_id; done|by apply evolves_revive].
Qed.

Lemma assign_evolves cfg h k d s :
  store_wf s → orders_evolve (orders s) (orders (assignOrderToDriver cfg h k d s).1).
Proof.
  intros Hwf. unfold assignOrderToDriver, mbind, M_bind.
  destruct (orders s !! k) as [o|] eqn:Ho.
  - rewrite (findById_stored h _ _ o Ho). lazy beta iota.
    destruct (stored_key h s k o Hwf Ho) as [Hk Hev0].
    destruct (decide _); [apply orders_evolve_refl|].
    destruct (addDriverAssignment_evolves h d (Order.revive h o) s) as (o' & -> & Hev).
    rewrite Hk. simpl.
    eapply orders_evolve_insert; eauto using orders_evolve_refl, evolves_trans.
  - rewrite (findById_missing h _ _ Ho). apply orders_evolve_refl.
Qed.

Lemma getNext_pair cfg h id s :
  getNextAvailableDriver cfg h id s = (s, (getNextAvailableDriver cfg h id s).2).
Proof. rewrite <- (getNext_reads cfg h id s) at 2. by destruct (getNextAvailableDriver _ _ _ _). Qed.

Lemma timeout_evolves cfg h k d s :
  store_wf s →
  orders_evolve (orders s) (orders (handleDriverTimeoutReassignment cfg h k d s).1).
Proof.
  intros Hwf. unfold handleDriverTimeoutReassignment, mbind, M_bind.
  destruct (orders s !! k) as [o|] eqn:Ho.
  - rewrite (findById_stored h _ _ o Ho). lazy beta iota.
    destruct (stored_key h s k o Hwf Ho) as [Hk Hev0].
    destruct (List.find _ _); [|apply orders_evolve_refl].
    rewrite getNext_pair.
    destruct (getNextAvailableDriver cfg h k s).2 as [e|[nd|]];
      [apply orders_evolve_refl| |].
    + destruct (recordReassignment_evolves h d (Driver.driverId nd) "TIMEOUT"
                  (Order.revive h o) s) as (o' & -> & Hev).
      rewrite Hk. simpl.
      eapply orders_evolve_insert; eauto using orders_evolve_refl, evolves_trans.
    + destruct (markAsTimedOut_evolves h (Order.revive h o) s) as (o' & -> & Hev).
      rewrite Hk. simpl.
      eapply orders_evolve_insert; eauto using orders_evolve_refl, evolves_trans.
  - rewrite (findById_missing h _ _ Ho). apply orders_evolve_refl.
Qed.

Lemma respond_evolves cfg h k d acc s :
  store_wf s →
  orders_evolve (orders s) (orders (handleDriverResponse cfg h k d acc s).1).
Proof.
  intros Hwf. unfold handleDriverResponse, mbind, M_bind.
  destruct (orders s !! k) as [o|] eqn:Ho.
  - rewrite (findById_stored h _ _ o Ho). lazy beta iota.
    destruct (stored_key h s k o Hwf Ho) as [Hk Hev0].
    destruct (Order.currentDriverId _); [|apply orders_evolve_refl].
    destruct (decide _); [apply orders_evolve_refl|].
    unfold modify at 1. lazy beta iota.
    set (s1 := with_timers (delete k) s).
    destruct (recordDriverResponse_evolves h d (if acc then A_ACCEPTED else A_REJECTED)
                (Order.revive h o) s1) as [->|(o1 & -> & Hev1)];
      [apply orders_evolve_refl|].
    rewrite Hk.
    assert (Hm1 : orders_evolve (orders s) (<[k:=o1]> (orders s))).
    { eapply orders_evolve_insert; eauto using orders_evolve_refl, evolves_trans. }
    destruct acc; [exact Hm1|].
    rewrite getNext_pair.
    set (s2 := with_orders (insert k o1) s1).
    assert (Hk1 : Order._id o1 = k) by (rewrite (ev_id _ _ Hev1); done).
    destruct (getNextAvailableDriver cfg h k s2).2 as [e|[nd|]]; [exact Hm1| |].
    + destruct (recordReassignment_evolves h d (Driver.driverId nd) "REJECTION" o1 s2)
        as (o2 & -> & Hev2).
      rewrite Hk1. simpl.
      eapply orders_evolve_insert; eauto using evolves_trans.
    + destruct (markAsTimedOut_evolves h o1 s2) as (o2 & -> & Hev2).
      rewrite Hk1. simpl.
      eapply orders_evolve_insert; eauto using evolves_trans.
  - rewrite (findById_missing h _ _ Ho). apply orders_evolve_refl.
Qed.

Lemma step_evolves cfg h op s :
  store_wf s → orders_evolve (orders s) (orders (step cfg h op s).1).
Proof.
  destruct op; simpl; auto using assign_evolves, respond_evolves, timeout_evolves.
Qed.

Lemma run_evolves cfg tr s :
  store_wf s → store_wf (run cfg tr s) ∧ orders_evolve (orders s) (orders (run cfg tr s)).
Proof.
  revert s. induction tr as [|[h op] tr IH]; intros s Hwf; simpl.
  - split; [done|apply orders_evolve_refl].
  - pose proof (step_evolves cfg h op s Hwf) as Hstep.
    destruct (IH (step cfg h op s).1) as [Hwf' Hev]; [eauto using orders_evolve_wf|].
    split; [done|]. eauto using orders_evolve_trans.
Qed.

(** ** The timer that lost the race *)

Lemma run_keeps_settled cfg tr s k o i a :
  store_wf s → orders s !! k = Some o →
  Order.driverAssignments o !! i = Some a → Assignment.status a ≠ A_PENDING →
  ∃ o', orders (run cfg tr s) !! k = Some o' ∧ Order.driverAssignments o' !! i = Some a.
Proof.
  intros Hwf Ho Hi Ha. destruct (run_evolves cfg tr s Hwf) as [_ Hev].
  specialize (Hev k). rewrite Ho in Hev.
  destruct (orders (run cfg tr s) !! k) as [o'|]; [|done].
  exists o'. split; [done|]. eapply ev_settled; eauto.
Qed.

(** When the timer fires for a driver who has no open offer on the order
    any more, [handleDriverTimeoutReassignment] changes nothing: it returns
    the order as stored, with the same status, history, reassignment count
    and reassignment log, and the state is the one it started from. No later
    operation then touches an entry of the history that has been accepted,
    rejected or timed out. *)
Theorem late_timer_is_noop
    (cfg : Config) (h : Host) (s : State) (orderId driverId : string) (o : Order.t) :
  orders s !! orderId = Some o →
  ¬ hasPending driverId o →
  handleDriverTimeoutReassignment cfg h orderId driverId s = (s, inr (Order.revive h o)) ∧
  Order.status (Order.revive h o) = Order.status o ∧
  Order.driverAssignments (Order.revive h o) = Order.driverAssignments o ∧
  Order.reassignmentCount (Order.revive h o) = Order.reassignmentCount o ∧
  Order.reassignmentLogs (Order.revive h o) = Order.reassignmentLogs o ∧
  (store_wf s →
   ∀ tr i a,
     Order.driverAssignments o !! i = Some a → Assignment.status a ≠ A_PENDING →
     ∃ o', orders (run cfg tr s) !! orderId = Some o' ∧
           Order.driverAssignments o' !! i = Some a).
Proof.
  intros Ho Hno. split; [|repeat split; eauto using run_keeps_settled].
  unfold handleDriverTimeoutReassignment, mbind, M_bind.
  rewrite (findById_stored h _ _ o Ho). lazy beta iota.
  change (Order.driverAssignments (Order.revive h o)) with (Order.driverAssignments o).
  rewrite (no_pending_find driverId _ Hno). reflexivity.
Qed.

Lemma late_timer_is_noop_witness :
  (handleDriverTimeoutReassignment defaultConfig (hostAt 16000) "o1" "d1" s_accepted).1
  = s_accepted.
Proof.
  assert (Hs : ∃ o, orders s_accepted !! "o1" = Some o ∧ ¬ hasPending "d1" o).
  { eexists. split; [vm_compute; reflexivity|].
    unfold hasPending. simpl. rewrite Exists_cons, Exists_nil.
    unfold Assignment.pendingFor. simpl. intros [[_ ?]|[]]. discriminate. }
  destruct Hs as (o & Ho & Hno).
  destruct (late_timer_is_noop defaultConfig (hostAt 16000) s_accepted "o1" "d1" o
              Ho Hno) as [-> _].
  reflexivity.
Defined.

(** C3 fails on the code. Order [o1] has had its five offers; the last
    one, to driver [6123456789abcdef01234570], is open when its timer fires.
    No driver is left, so the timeout is applied: the order is saved as
    timed out, with [timeoutAt], and its timer is removed. The offer itself
    is left pending ([markAsTimedOut] does not close it, as
    [recordReassignment] does on the way to the next driver), and
    [handleDriverResponse] does not look at the status of the order: when
    the driver accepts afterwards, the acceptance is applied as well, to the
    same offer, and the timed-out order becomes an accepted one. *)
Theorem C3_timeout_then_accept_both_applied :
  let d := "6123456789abcdef01234570" in
  let fired := handleDriverTimeoutReassignment defaultConfig (hostAt 76000) "o1" d
                 s_fourTimeouts in
  let answered := handleDriverResponse defaultConfig (hostAt 90000) "o1" d true fired.1 in
  lastOffer <$> orders s_fourTimeouts !! "o1" = Some (Some (d, A_PENDING)) ∧
  (getNextAvailableDriver defaultConfig (hostAt 76000) "o1" s_fourTimeouts).2 = inr None ∧
  Order.status <$> orders fired.1 !! "o1" = Some O_TIMEOUT ∧
  Order.timeoutAt <$> orders fired.1 !! "o1" = Some (Some 76000%Z) ∧
  assignmentTimers fired.1 !! "o1" = None ∧
  lastOffer <$> orders fired.1 !! "o1" = Some (Some (d, A_PENDING)) ∧
  match answered.2 with
  | inr o => Order.status o = O_ACCEPTED
  | inl _ => False
  end ∧
  Order.status <$> orders answered.1 !! "o1" = Some O_ACCEPTED ∧
  Order.timeoutAt <$> orders answered.1 !! "o1" = Some (Some 76000%Z) ∧
  lastOffer <$> orders answered.1 !! "o1" = Some (Some (d, A_ACCEPTED)).
Proof. vm_compute. repeat split; reflexivity. Qed.

(** ** Exhaustion *)

Lemma find_untried_none (tried : list string) (pool : list Driver.t) :
  Forall (λ drv, Driver.driverId drv ∈ tried) pool →
  List.find (λ drv, negb (bool_decide (Driver.driverId drv ∈ tried))) pool = None.
Proof.
  induction 1 as [|drv pool Hin _ IH]; [reflexivity|]. simpl.
  by rewrite bool_decide_eq_true_2.
Qed.

Lemma getNext_none cfg h s k o :
  orders s !! k = Some o →
  (maxAssignmentAttempts cfg ≤ length (Order.driverAssignments o) ∨
   Forall (λ drv, Driver.driverId drv ∈ (Assignment.driverId <$> Order.driverAssignments o))
     availableDrivers) →
  getNextAvailableDriver cfg h k s = (s, inr None).
Proof.
  intros Ho Hex. unfold getNextAvailableDriver, mbind, M_bind.
  rewrite (findById_stored h _ _ o Ho). lazy beta iota zeta.
  change (Order.driverAssignments (Order.revive h o)) with (Order.driverAssignments o).
  destruct (decide _) as [|Hlt]; [reflexivity|].
  destruct Hex as [Hmax|Hall].
  - exfalso. apply Hlt. by rewrite length_fmap.
  - unfold mret, M_ret. by rewrite find_untried_none.
Qed.

Lemma has_pending_find d (l : list Assignment.t) :
  Exists (Assignment.pendingFor d) l →
  ∃ a, List.find (λ a, bool_decide (Assignment.pendingFor d a)) l = Some a.
Proof.
  induction 1 as [a l Hp|a l _ [b IH]]; simpl.
  - rewrite bool_decide_eq_true_2 by done. eauto.
  - rewrite IH. destruct (bool_decide _); eauto.
Qed.

Lemma assign_not_pending cfg h s k d o :
  orders s !! k = Some o → Order.status o ≠ O_PENDING →
  assignOrderToDriver cfg h k d s = (s, inl (CannotAssign k (Order.status o))).
Proof.
  intros Ho Hst. unfold assignOrderToDriver, mbind, M_bind.
  rewrite (findById_stored h _ _ o Ho). lazy beta iota.
  change (Order.status (Order.revive h o)) with (Order.status o).
  by destruct (decide _).
Qed.

(** C5. The timeout handler runs on a stored order with an open offer to
    the driver, and there is no next candidate: the history has reached
    [maxAssignmentAttempts], or every driver of the pool has been tried.
    Then the order is saved with status [timeout] and [timeoutAt] set to the
    current date, with the same history (nothing appended), reassignment
    count and log; the order's timer entry is removed; and from then on,
    after any operations of the engine, [assignOrderToDriver] on the order
    throws "Cannot assign" with a status other than pending. *)
Theorem C5_exhaustion_times_out
    (cfg : Config) (h : Host) (s : State) (orderId driverId : string) (o : Order.t) :
  store_wf s →
  orders s !! orderId = Some o →
  hasPending driverId o →
  (maxAssignmentAttempts cfg ≤ length (Order.driverAssignments o) ∨
   Forall (λ drv, Driver.driverId drv ∈ (Assignment.driverId <$> Order.driverAssignments o))
     availableDrivers) →
  ∃ o' s',
    handleDriverTimeoutReassignment cfg h orderId driverId s = (s', inr o') ∧
    s' = {| orders := <[orderId := o']> (orders s);
            assignmentTimers := delete orderId (assignmentTimers s) |} ∧
    Order.status o' = O_TIMEOUT ∧
    Order.timeoutAt o' = Some (now h) ∧
    Order.driverAssignments o' = Order.driverAssignments o ∧
    Order.reassignmentCount o' = Order.reassignmentCount o ∧
    Order.reassignmentLogs o' = Order.reassignmentLogs o ∧
    assignmentTimers s' !! orderId = None ∧
    ∀ tr h' d', ∃ st,
      st ≠ O_PENDING ∧
      assignOrderToDriver cfg h' orderId d' (run cfg tr s') =
        (run cfg tr s', inl (CannotAssign orderId st)).
Proof.
  intros Hwf Ho Hpend Hex.
  destruct (stored_key h s orderId o Hwf Ho) as [Hk Hev0].
  destruct (has_pending_find driverId _ Hpend) as [a Hfind].
  set (o' := Order.set_updatedAt (now h)
               (Order.set_timeoutAt (Some (now h))
                  (Order.set_status O_TIMEOUT (Order.revive h o)))).
  set (s' := {| orders := <[orderId := o']> (orders s);
                assignmentTimers := delete orderId (assignmentTimers s) |}).
  exists o', s'. split.
  { unfold handleDriverTimeoutReassignment, mbind, M_bind.
    rewrite (findById_stored h _ _ o Ho). lazy beta iota.
    change (Order.driverAssignments (Order.revive h o)) with (Order.driverAssignments o).
    rewrite Hfind, (getNext_none cfg h s orderId o Ho Hex). lazy beta iota.
    unfold Order_markAsTimedOut. rewrite save_eq. lazy beta iota.
    change (Order._id (Order.set_timeoutAt (Some (now h))
                         (Order.set_status O_TIMEOUT (Order.revive h o))))
      with (Order._id (Order.revive h o)).
    rewrite Hk. reflexivity. }
  do 6 (split; [reflexivity|]).
  split; [apply lookup_delete_eq|].
  intros tr h' d'.
  assert (Ho' : orders s' !! orderId = Some o') by apply lookup_insert_eq.
  assert (Hwf' : store_wf s').
  { apply (orders_evolve_wf s); [done|].
    eapply orders_evolve_insert; eauto using orders_evolve_refl.
    eapply evolves_trans; [exact Hev0|]. split; [reflexivity| |auto].
    intros _. discriminate. }
  destruct (run_evolves cfg tr s' Hwf') as [_ Hev].
  specialize (Hev orderId). rewrite Ho' in Hev.
  destruct (orders (run cfg tr s') !! orderId) as [o''|] eqn:Ho''; [|done].
  assert (Hst : Order.status o'' ≠ O_PENDING).
  { apply (ev_status _ _ Hev). discriminate. }
  exists (Order.status o''). split; [done|].
  by apply assign_not_pending.
Qed.

Lemma C5_witness :
  Order.status <$>
    orders (handleDriverTimeoutReassignment defaultConfig (hostAt 76000) "o1"
              "6123456789abcdef01234570" s_fourTimeouts).1 !! "o1"
  = Some O_TIMEOUT.
Proof.
  assert (Hwf : store_wf s_fourTimeouts)
    by (apply (bool_decide_unpack _); vm_compute; exact I).
  assert (Hs : ∃ o, orders s_fourTimeouts !! "o1" = Some o ∧
                    hasPending "6123456789abcdef01234570" o ∧
                    5 ≤ length (Order.driverAssignments o)).
  { eexists. split; [vm_compute; reflexivity|]. split; [|simpl; lia].
    apply (bool_decide_unpack _). vm_compute. exact I. }
  destruct Hs as (o & Ho & Hpend & Hlen).
  destruct (C5_exhaustion_times_out defaultConfig (hostAt 76000) s_fourTimeouts "o1"
              "6123456789abcdef01234570" o Hwf Ho Hpend (or_introl Hlen))
    as (o' & s' & -> & -> & Hst & _).
  cbn [fst orders]. rewrite lookup_insert_eq.
  change (Some (Order.status o') = Some O_TIMEOUT). by rewrite Hst.
Defined.

(** ** Consecutive timeouts *)

Lemma handovers_cons_snoc (r x : string) (ds : list string) (n p : string) :
  last (x :: ds) = Some p →
  zip_with (λ p n : string, (p, n, r)) (x :: ds ++ [n])%list (ds ++ [n])%list =
  (zip_with (λ p n : string, (p, n, r)) (x :: ds) ds ++ [(p, n, r)])%list.
Proof.
  revert x. induction ds as [|y ds IH]; intros x Hlast.
  - simpl in *. congruence.
  - rewrite last_cons_cons in Hlast. simpl. f_equal. apply (IH y Hlast).
Qed.

Lemma handovers_snoc (r : string) (ds : list string) (p n : string) :
  last ds = Some p →
  handovers r (ds ++ [n])%list = (handovers r ds ++ [(p, n, r)])%list.
Proof.
  destruct ds as [|x ds]; [discriminate|]. intros Hlast.
  unfold handovers. simpl tail. by apply handovers_cons_snoc.
Qed.

Lemma list_find_snoc_settled d (l0 : list Assignment.t) a :
  Forall (λ x, Assignment.status x ≠ A_PENDING) l0 →
  Assignment.pendingFor d a →
  list_find (Assignment.pendingFor d) (l0 ++ [a])%list = Some (length l0, a).
Proof.
  intros Hl0 Ha. apply list_find_Some. split; [|split; [done|]].
  - rewrite lookup_app_r by lia. by rewrite Nat.sub_diag.
  - intros j b Hj Hlt [_ Hp].
    rewrite lookup_app_l in Hj by done.
    rewrite Forall_forall in Hl0. eapply Hl0; [|done].
    eapply list_elem_of_lookup_2; eauto.
Qed.

Lemma insert_snoc {A} (l0 : list A) (a b : A) :
  <[length l0 := b]> (l0 ++ [a])%list = (l0 ++ [b])%list.
Proof.
  replace (length l0) with (length l0 + 0) by lia. by rewrite insert_app_r.
Qed.

(** [recordReassignment] on a history whose only open offer is its last
    entry, to the previous driver. *)
Lemma recordReassignment_last h p n r o s l0 a :
  Order.driverAssignments o = (l0 ++ [a])%list →
  Forall (λ x, Assignment.status x ≠ A_PENDING) l0 →
  Assignment.pendingFor p a →
  ∃ o', Order_recordReassignment h p n r o s =
          (with_orders (insert (Order._id o) o') s, inr o') ∧
        Order._id o' = Order._id o ∧
        Order.status o' = Order.status o ∧
        Order.currentDriverId o' = Some n ∧
        Order.driverAssignments o' =
          (l0 ++ [Assignment.respond h A_TIMED_OUT a; Assignment.offered h n])%list ∧
        Order.reassignmentLogs o' =
          (Order.reassignmentLogs o ++
             [ReassignmentLog.mk (genLogId h) p n r (now h)])%list ∧
        Order.reassignmentCount o' = S (Order.reassignmentCount o).
Proof.
  intros Hl Hl0 Ha. eexists. split; [reflexivity|].
  repeat split; simpl.
  - rewrite Hl, (list_find_snoc_settled p l0 a Hl0 Ha), insert_snoc.
    by rewrite <- app_assoc.
  - lia.
Qed.

Lemma getNext_untried cfg h s k o nd :
  orders s !! k = Some o →
  (getNextAvailableDriver cfg h k s).2 = inr (Some nd) →
  (Driver.driverId nd ∉ historyDrivers o) ∧
  (length (Order.driverAssignments o) < maxAssignmentAttempts cfg) ∧
  (nd ∈ availableDrivers).
Proof.
  intros Ho. unfold getNextAvailableDriver, mbind, M_bind.
  rewrite (findById_stored h _ _ o Ho). lazy beta iota zeta.
  change (Order.driverAssignments (Order.revive h o)) with (Order.driverAssignments o).
  destruct (decide _) as [|Hlt]; [discriminate|].
  intros Hfind.
  assert (Hfind' : List.find
            (λ driver, negb (bool_decide (Driver.driverId driver ∈ historyDrivers o)))
            availableDrivers = Some nd) by (injection Hfind as Hfind; exact Hfind).
  clear Hfind. apply find_some in Hfind' as [Hin Hnot].
  rewrite length_fmap in Hlt.
  split; [|split; [lia|by apply list_elem_of_In]].
  apply negb_true_iff, bool_decide_eq_false in Hnot. exact Hnot.
Qed.

(** The statuses [replicate n TIMED_OUT ++ [PENDING]] say that the history
    is a settled part followed by one open offer. *)
Lemma statuses_split (l : list Assignment.t) n :
  Assignment.status <$> l = (replicate n A_TIMED_OUT ++ [A_PENDING])%list →
  ∃ l0 a, l = (l0 ++ [a])%list ∧
          Assignment.status <$> l0 = replicate n A_TIMED_OUT ∧
          Forall (λ x, Assignment.status x ≠ A_PENDING) l0 ∧
          Assignment.status a = A_PENDING.
Proof.
  intros Hst. apply fmap_app_inv in Hst as (l0 & l1 & H0 & H1 & ->).
  destruct l1 as [|a [|? ?]]; try discriminate. injection H1 as Ha.
  exists l0, a. split; [done|]. split; [done|]. split; [|done].
  apply Forall_forall. intros x Hx.
  assert (Hin : Assignment.status x ∈ Assignment.status <$> l0)
    by (apply list_elem_of_fmap; eauto).
  rewrite <- H0 in Hin. apply elem_of_replicate in Hin as [Hx' _].
  rewrite Hx'. discriminate.
Qed.

(** One more timeout, with candidate [nd]: the history grows by the open
    offer to [nd], who had not been tried, and the log by the handover. *)
Lemma timeout_step_appends cfg h d0 n orderId s nd :
  timedOutTimes d0 n orderId s →
  (getNextAvailableDriver cfg h orderId s).2 = inr (Some nd) →
  timedOutTimes d0 (S n) orderId (fireTimer cfg h orderId s) ∧
  ∃ o o' cur,
    orders s !! orderId = Some o ∧
    orders (fireTimer cfg h orderId s) !! orderId = Some o' ∧
    Order.currentDriverId o = Some cur ∧
    (Driver.driverId nd ∉ historyDrivers o) ∧
    historyDrivers o' = (historyDrivers o ++ [Driver.driverId nd])%list ∧
    logEntries o' = (logEntries o ++ [(cur, Driver.driverId nd, "TIMEOUT")])%list.
Proof.
  intros (Hwf & o & t & Ho & Hat & Ht & Hcur) Hnd.
  destruct Hat as [Hcount Hstatus Hstatuses Hfirst Hnodup Hcurrent Hlogs].
  destruct (statuses_split _ n Hstatuses) as (l0 & a & Hl & Hst0 & Hl0 & Ha).
  assert (Hds : historyDrivers o =
                ((Assignment.driverId <$> l0) ++ [Assignment.driverId a])%list).
  { unfold historyDrivers. by rewrite Hl, fmap_snoc. }
  assert (Hlast : last (historyDrivers o) = Some (Assignment.driverId a)).
  { rewrite Hds. apply last_snoc. }
  assert (Hta : timerDriverId t = Assignment.driverId a) by congruence.
  assert (Hpa : Assignment.pendingFor (timerDriverId t) a) by (by split).
  destruct (stored_key h s orderId o Hwf Ho) as [Hk Hev0].
  destruct (Hwf orderId o Ho) as [_ Hne].
  destruct (getNext_untried cfg h s orderId o nd Ho Hnd) as (Hfresh & _ & _).
  destruct (recordReassignment_last h (timerDriverId t) (Driver.driverId nd) "TIMEOUT"
              (Order.revive h o) s l0 a Hl Hl0 Hpa)
    as (o' & Heq & Hid & Hst' & Hcur' & Hl' & Hlogs' & Hcount').
  set (t' := {| timerDriverId := Driver.driverId nd; timerDelay := assignmentTimeout cfg |}).
  assert (Hfire : fireTimer cfg h orderId s =
                  with_timers (insert orderId t') (with_orders (insert orderId o') s)).
  { unfold fireTimer. rewrite Ht.
    unfold handleDriverTimeoutReassignment, mbind, M_bind.
    rewrite (findById_stored h _ _ o Ho). lazy beta iota.
    change (Order.driverAssignments (Order.revive h o)) with (Order.driverAssignments o).
    destruct (has_pending_find (timerDriverId t) (Order.driverAssignments o)) as [b ->].
    { rewrite Hl. apply Exists_app. right. by left. }
    rewrite getNext_pair, Hnd. lazy beta iota. rewrite Heq. lazy beta iota.
    rewrite Hk. reflexivity. }
  rewrite Hfire.
  assert (Hds' : historyDrivers o' = (historyDrivers o ++ [Driver.driverId nd])%list).
  { unfold historyDrivers at 1. rewrite Hl', Hds, fmap_app. simpl.
    by rewrite <- app_assoc. }
  assert (Hlog' : logEntries o' =
                  (logEntries o ++ [(timerDriverId t, Driver.driverId nd, "TIMEOUT")])%list).
  { unfold logEntries. rewrite Hlogs', fmap_snoc. reflexivity. }
  split; [split|].
  - apply map_Forall_insert_2; [|exact Hwf]. split; [congruence|done].
  - exists o', t'. split; [apply lookup_insert_eq|].
    split; [|split; [apply lookup_insert_eq|exact Hcur']].
    split.
    + rewrite Hcount'. simpl. by rewrite Hcount.
    + by rewrite Hst'.
    + rewrite replicate_S_end.
      unfold historyStatuses. rewrite Hl', fmap_app, Hst0, <- app_assoc. reflexivity.
    + rewrite Hds', head_app, Hfirst. reflexivity.
    + rewrite Hds'. apply NoDup_app. split; [done|]. split; [|apply NoDup_singleton].
      intros x Hx Hx'. apply list_elem_of_singleton in Hx'. by subst x.
    + rewrite Hcur', Hds'. symmetry. apply last_snoc.
    + rewrite Hlog', Hlogs, Hds'. symmetry. apply handovers_snoc. congruence.
  - exists o, o', (timerDriverId t).
    split; [done|]. split; [apply lookup_insert_eq|]. done.
Qed.

Lemma timeout_step cfg h d0 n orderId s :
  timedOutTimes d0 n orderId s →
  (∃ d, (getNextAvailableDriver cfg h orderId s).2 = inr (Some d)) →
  timedOutTimes d0 (S n) orderId (fireTimer cfg h orderId s).
Proof.
  intros Hinv [nd Hnd]. by destruct (timeout_step_appends cfg h d0 n orderId s nd).
Qed.

Lemma timeouts_steps cfg hs d0 n orderId s :
  timedOutTimes d0 n orderId s →
  candidateEachTime cfg hs orderId s →
  timedOutTimes d0 (n + length hs) orderId (timeouts cfg hs orderId s).
Proof.
  revert n s. induction hs as [|h hs IH]; intros n s Hinv Hcand; simpl.
  - by rewrite Nat.add_0_r.
  - destruct Hcand as [Hnext Hrest].
    replace (n + S (length hs)) with (S n + length hs) by lia.
    apply IH; [|done]. by apply timeout_step.
Qed.

Lemma first_offer cfg h d0 orderId s o :
  store_wf s →
  orders s !! orderId = Some o →
  Order.status o = O_PENDING →
  Order.driverAssignments o = [] →
  Order.reassignmentLogs o = [] →
  timedOutTimes d0 0 orderId (assignOrderToDriver cfg h orderId d0 s).1.
Proof.
  intros Hwf Ho Hst Hl Hlogs.
  split; [eauto using orders_evolve_wf, assign_evolves|].
  destruct (stored_key h s orderId o Hwf Ho) as [Hk Hev0].
  unfold assignOrderToDriver, mbind, M_bind.
  rewrite (findById_stored h _ _ o Ho). lazy beta iota.
  change (Order.status (Order.revive h o)) with (Order.status o).
  destruct (decide _) as [Hne|_]; [done|].
  unfold Order_addDriverAssignment. rewrite save_eq. lazy beta iota.
  eexists _, _. split.
  { unfold setupAutoReassignment, modify. cbn [fst]. unfold with_timers, with_orders.
    cbn [orders]. 
    change (Order._id (Order.set_reassignmentCount _ _)) with (Order._id (Order.revive h o)).
    rewrite Hk. apply lookup_insert_eq. }
  split; [|split; [apply lookup_insert_eq|reflexivity]].
  split; unfold historyDrivers, historyStatuses, logEntries; simpl;
    rewrite ?Hl, ?Hlogs; simpl; try done.
  apply NoDup_singleton.
Qed.

(** C6. An order with an empty history is offered to [d0]; then its timer
    elapses [N] times in a row, a next candidate being available each
    time. Afterwards the stored order has reassignment count [N] and is
    still pending; the [N] first entries of its history are timed out and
    the last one is the open offer to the current driver; the history
    starts with [d0] and no driver occurs twice in it; the log has one entry
    per handover, from each driver to the next, with reason TIMEOUT. One
    more timeout with candidate [nd] appends the offer to [nd], who is not
    in the history, and the log entry from the current driver to [nd]. *)
Theorem C6_consecutive_timeouts
    (cfg : Config) (h0 : Host) (hs : list Host) (s0 : State) (orderId d0 : string)
    (o0 : Order.t) :
  store_wf s0 →
  orders s0 !! orderId = Some o0 →
  Order.status o0 = O_PENDING →
  Order.driverAssignments o0 = [] →
  Order.reassignmentLogs o0 = [] →
  candidateEachTime cfg hs orderId (assignOrderToDriver cfg h0 orderId d0 s0).1 →
  let sN := timeouts cfg hs orderId (assignOrderToDriver cfg h0 orderId d0 s0).1 in
  ∃ o,
    orders sN !! orderId = Some o ∧
    Order.reassignmentCount o = length hs ∧
    Order.status o = O_PENDING ∧
    historyStatuses o = (replicate (length hs) A_TIMED_OUT ++ [A_PENDING])%list ∧
    head (historyDrivers o) = Some d0 ∧
    NoDup (historyDrivers o) ∧
    Order.currentDriverId o = last (historyDrivers o) ∧
    logEntries o = handovers "TIMEOUT" (historyDrivers o) ∧
    length (Order.reassignmentLogs o) = length hs ∧
    (∀ h nd,
       (getNextAvailableDriver cfg h orderId sN).2 = inr (Some nd) →
       ∃ o' cur,
         orders (fireTimer cfg h orderId sN) !! orderId = Some o' ∧
         Order.currentDriverId o = Some cur ∧
         (Driver.driverId nd ∉ historyDrivers o) ∧
         historyDrivers o' = (historyDrivers o ++ [Driver.driverId nd])%list ∧
         historyStatuses o' =
           (replicate (S (length hs)) A_TIMED_OUT ++ [A_PENDING])%list ∧
         logEntries o' = (logEntries o ++ [(cur, Driver.driverId nd, "TIMEOUT")])%list).
Proof.
  intros Hwf Ho Hst Hl Hlogs Hcand sN.
  pose proof (first_offer cfg h0 d0 orderId s0 o0 Hwf Ho Hst Hl Hlogs) as H1.
  pose proof (timeouts_steps cfg hs d0 0 orderId _ H1 Hcand) as HN.
  fold sN in HN. simpl in HN.
  destruct HN as (HwfN & o & t & HoN & Hat & Ht & Hcur).
  exists o. split; [done|].
  destruct Hat as [Hcount Hstatus Hstatuses Hfirst Hnodup Hcurrent Hlog].
  do 7 (split; [done|]). split.
  - assert (Hlen : length (logEntries o) = length (handovers "TIMEOUT" (historyDrivers o)))
      by (by rewrite Hlog).
    unfold logEntries, handovers in Hlen.
    rewrite length_fmap, length_zip_with in Hlen.
    assert (Hds : length (historyDrivers o) = S (length hs)).
    { unfold historyDrivers. rewrite length_fmap.
      rewrite <- (length_fmap Assignment.status). fold (historyStatuses o).
      rewrite Hstatuses, length_app, length_replicate. simpl. lia. }
    destruct (historyDrivers o) as [|d ds]; cbn [tail length] in Hlen, Hds; lia.
  - intros h nd Hnd.
    destruct (timeout_step_appends cfg h d0 (length hs) orderId sN nd) as [Hinv Happ];
      [by (split; [done|]; exists o, t; repeat split)|done|].
    destruct Happ as (o1 & o' & cur & Ho1 & Ho' & Hc & Hfresh & Hds & Hlg).
    assert (o1 = o) by congruence. subst o1.
    exists o', cur. repeat (split; [done|]).
    destruct Hinv as (_ & o2 & _ & Ho2 & Hat2 & _).
    assert (o2 = o') by congruence. subst o2.
    split; [apply Hat2|done].
Qed.

Lemma C6_witness :
  Order.reassignmentCount <$> orders s_fourTimeouts !! "o1" = Some 4 ∧
  Order.status <$> orders s_fourTimeouts !! "o1" = Some O_PENDING.
Proof.
  assert (Hwf : store_wf s_created)
    by (apply (bool_decide_unpack _); vm_compute; exact I).
  assert (Hs : ∃ o, orders s_created !! "o1" = Some o ∧ Order.status o = O_PENDING ∧
                    Order.driverAssignments o = [] ∧ Order.reassignmentLogs o = []).
  { eexists. split; [vm_compute; reflexivity|]. repeat split. }
  destruct Hs as (o0 & Ho & Hst & Hl & Hlogs).
  assert (Hcand : candidateEachTime defaultConfig fourInstants "o1"
                    (assignOrderToDriver defaultConfig (hostAt 1000) "o1" "d1" s_created).1).
  { repeat split; eexists; vm_compute; reflexivity. }
  destruct (C6_consecutive_timeouts defaultConfig (hostAt 1000) fourInstants s_created
              "o1" "d1" o0 Hwf Ho Hst Hl Hlogs Hcand)
    as (o & HoN & Hcount & Hstatus & _).
  change (timeouts defaultConfig fourInstants "o1"
            (assignOrderToDriver defaultConfig (hostAt 1000) "o1" "d1" s_created).1)
    with s_fourTimeouts in HoN.
  rewrite HoN. cbn [fmap option_fmap option_map].
  rewrite Hcount, Hstatus. split; reflexivity.
Defined.

(** ** The cap on attempts and the single open offer *)

Lemma recordDriverResponse_length h d st o s s' o' :
  Order_recordDriverResponse h d st o s = (s', inr o') →
  length (Order.driverAssignments o') = length (Order.driverAssignments o).
Proof.
  unfold Order_recordDriverResponse.
  destruct (list_find _ _) as [[i a]|]; [|discriminate].
  rewrite save_eq. intros Heq. injection Heq as _ <-.
  destruct (decide _); simpl; apply length_insert.
Qed.

Lemma recordReassignment_length h p n r o s s' o' :
  Order_recordReassignment h p n r o s = (s', inr o') →
  length (Order.driverAssignments o') = S (length (Order.driverAssignments o)).
Proof.
  unfold Order_recordReassignment. rewrite save_eq. intros Heq. injection Heq as _ <-.
  simpl. rewrite length_app. simpl.
  destruct (list_find _ _) as [[i a]|]; rewrite ?length_insert; lia.
Qed.

Lemma markAsTimedOut_length h o s s' o' :
  Order_markAsTimedOut h o s = (s', inr o') →
  Order.driverAssignments o' = Order.driverAssignments o.
Proof.
  unfold Order_markAsTimedOut. rewrite save_eq. intros Heq. by injection Heq as _ <-.
Qed.

(** The automatic reassignment after a timeout never takes the history of
    the order beyond [maxAssignmentAttempts]. *)
Lemma timeout_respects_cap cfg h k d s o :
  store_wf s → orders s !! k = Some o →
  length (Order.driverAssignments o) ≤ maxAssignmentAttempts cfg →
  ∃ o', orders (handleDriverTimeoutReassignment cfg h k d s).1 !! k = Some o' ∧
        length (Order.driverAssignments o') ≤ maxAssignmentAttempts cfg.
Proof.
  intros Hwf Ho Hcap. unfold handleDriverTimeoutReassignment, mbind, M_bind.
  rewrite (findById_stored h _ _ o Ho). lazy beta iota.
  destruct (stored_key h s k o Hwf Ho) as [Hk _].
  destruct (List.find _ _); [|by exists o].
  rewrite getNext_pair.
  destruct (getNextAvailableDriver cfg h k s).2 as [e|[nd|]] eqn:Hnext; [by exists o| |].
  - destruct (getNext_untried cfg h s k o nd Ho Hnext) as (_ & Hlt & _).
    destruct (recordReassignment_evolves h d (Driver.driverId nd) "TIMEOUT"
                (Order.revive h o) s) as (o' & Heq & _).
    pose proof (recordReassignment_length _ _ _ _ _ _ _ _ Heq) as Hlen.
    rewrite Heq, Hk. exists o'. split; [apply lookup_insert_eq|].
    rewrite Hlen. simpl. lia.
  - destruct (markAsTimedOut_evolves h (Order.revive h o) s) as (o' & Heq & _).
    pose proof (markAsTimedOut_length _ _ _ _ _ Heq) as Hlen.
    rewrite Heq, Hk. exists o'. split; [apply lookup_insert_eq|].
    by rewrite Hlen.
Qed.

(** Nor does the reassignment after a rejection. *)
Lemma respond_respects_cap cfg h k d acc s o :
  store_wf s → orders s !! k = Some o →
  length (Order.driverAssignments o) ≤ maxAssignmentAttempts cfg →
  ∃ o', orders (handleDriverResponse cfg h k d acc s).1 !! k = Some o' ∧
        length (Order.driverAssignments o') ≤ maxAssignmentAttempts cfg.
Proof.
  intros Hwf Ho Hcap. unfold handleDriverResponse, mbind, M_bind.
  rewrite (findById_stored h _ _ o Ho). lazy beta iota.
  destruct (stored_key h s k o Hwf Ho) as [Hk _].
  destruct (Order.currentDriverId _); [|by exists o].
  destruct (decide _); [by exists o|].
  unfold modify at 1. lazy beta iota.
  set (s1 := with_timers (delete k) s).
  destruct (recordDriverResponse_evolves h d (if acc then A_ACCEPTED else A_REJECTED)
              (Order.revive h o) s1) as [->|(o1 & Heq1 & Hev1)]; [by exists o|].
  pose proof (recordDriverResponse_length _ _ _ _ _ _ _ Heq1) as Hlen1.
  simpl in Hlen1. rewrite Heq1, Hk.
  destruct acc.
  { exists o1. split; [apply lookup_insert_eq|]. by rewrite Hlen1. }
  rewrite getNext_pair.
  set (s2 := with_orders (insert k o1) s1).
  assert (Ho1 : orders s2 !! k = Some o1) by apply lookup_insert_eq.
  assert (Hk1 : Order._id o1 = k) by (rewrite (ev_id _ _ Hev1); done).
  destruct (getNextAvailableDriver cfg h k s2).2 as [e|[nd|]] eqn:Hnext.
  - exists o1. split; [done|]. by rewrite Hlen1.
  - destruct (getNext_untried cfg h s2 k o1 nd Ho1 Hnext) as (_ & Hlt & _).
    destruct (recordReassignment_evolves h d (Driver.driverId nd) "REJECTION" o1 s2)
      as (o2 & Heq2 & _).
    pose proof (recordReassignment_length _ _ _ _ _ _ _ _ Heq2) as Hlen2.
    rewrite Heq2, Hk1. exists o2. split; [apply lookup_insert_eq|].
    rewrite Hlen2. lia.
  - destruct (markAsTimedOut_evolves h o1 s2) as (o2 & Heq2 & _).
    pose proof (markAsTimedOut_length _ _ _ _ _ Heq2) as Hlen2.
    rewrite Heq2, Hk1. exists o2. split; [apply lookup_insert_eq|].
    by rewrite Hlen2, Hlen1.
Qed.

(** [assignOrderToDriver] has no such check: on a pending order it appends
    one more open offer, whatever the history. *)
Lemma assign_appends cfg h k d s o :
  store_wf s → orders s !! k = Some o → Order.status o = O_PENDING →
  ∃ o', orders (assignOrderToDriver cfg h k d s).1 !! k = Some o' ∧
        Order.driverAssignments o' =
          (Order.driverAssignments o ++ [Assignment.offered h d])%list ∧
        Order.currentDriverId o' = Some d ∧
        Order.status o' = O_PENDING.
Proof.
  intros Hwf Ho Hst. unfold assignOrderToDriver, mbind, M_bind.
  rewrite (findById_stored h _ _ o Ho). lazy beta iota.
  destruct (stored_key h s k o Hwf Ho) as [Hk _].
  change (Order.status (Order.revive h o)) with (Order.status o).
  destruct (decide _) as [Hne|_]; [done|].
  unfold Order_addDriverAssignment. rewrite save_eq. lazy beta iota.
  eexists. split.
  { unfold setupAutoReassignment, modify. cbn [fst]. unfold with_timers, with_orders.
    cbn [orders].
    change (Order._id (Order.set_reassignmentCount _ _)) with (Order._id (Order.revive h o)).
    rewrite Hk. apply lookup_insert_eq. }
  repeat split. exact Hst.
Qed.

(** C1 fails on the code. With the default cap of 5, six calls of
    [assignOrderToDriver] on the pending order [o1] all succeed and leave a
    history of six entries. *)
Theorem C1_six_offers_exceed_the_cap :
  maxAssignmentAttempts defaultConfig = 5 ∧
  (length ∘ Order.driverAssignments) <$> orders (run defaultConfig sixOffers s_created) !! "o1"
    = Some 6 ∧
  Order.status <$> orders (run defaultConfig sixOffers s_created) !! "o1" = Some O_PENDING.
Proof. vm_compute. repeat split; reflexivity. Qed.

(** C2 fails on the code. After two calls of [assignOrderToDriver] on the
    pending order [o1], the history holds two open offers, to [d1] and to
    [d2], and only [d2] is the current driver. *)
Theorem C2_second_offer_leaves_two_pending :
  (λ o, (Order.status o, Order.currentDriverId o,
         Assignment.driverId <$> pendingAssignments o))
    <$> orders (run defaultConfig (take 2 sixOffers) s_created) !! "o1"
  = Some (O_PENDING, Some "d2", ["d1"; "d2"]).
Proof. vm_compute. reflexivity. Qed.

(** * Further properties of the code *)

(** ** The choice of the next driver *)

Lemma find_first {A} (f : A → bool) (l : list A) x :
  List.find f l = Some x →
  ∃ i, l !! i = Some x ∧ f x = true ∧ ∀ j y, j < i → l !! j = Some y → f y = false.
Proof.
  induction l as [|a l IH]; [discriminate|]. simpl.
  destruct (f a) eqn:Ha.
  - intros [= ->]. exists 0. split; [done|]. split; [done|]. intros j y Hj. lia.
  - intros Hfind. destruct (IH Hfind) as (i & Hi & Hx & Hbefore).
    exists (S i). split; [done|]. split; [done|].
    intros [|j] y Hj Hy; simpl in Hy; [congruence|].
    apply (Hbefore j); [lia|done].
Qed.

Lemma find_none_all {A} (f : A → bool) (l : list A) :
  List.find f l = None → Forall (λ x, f x = false) l.
Proof.
  induction l as [|a l IH]; [constructor|]. simpl.
  destruct (f a) eqn:Ha; [discriminate|]. intros Hfind. constructor; auto.
Qed.

(** [getNextAvailableDriver] only reads. For a stored order it answers
    with the first driver of the pool, in the order of the pool, who is not
    in the history, provided the history is shorter than
    [maxAssignmentAttempts]; it answers [null] exactly when the history has
    reached the cap or the whole pool has been tried; it never throws. *)
Theorem getNextAvailableDriver_first_untried
    (cfg : Config) (h : Host) (s : State) (orderId : string) (o : Order.t) :
  orders s !! orderId = Some o →
  (getNextAvailableDriver cfg h orderId s).1 = s ∧
  match (getNextAvailableDriver cfg h orderId s).2 with
  | inr (Some nd) =>
      length (Order.driverAssignments o) < maxAssignmentAttempts cfg ∧
      firstUntried (historyDrivers o) nd
  | inr None => exhausted cfg (historyDrivers o)
  | inl _ => False
  end.
Proof.
  intros Ho. split; [apply getNext_reads|].
  unfold getNextAvailableDriver, mbind, M_bind.
  rewrite (findById_stored h _ _ o Ho). lazy beta iota zeta.
  change (Order.driverAssignments (Order.revive h o)) with (Order.driverAssignments o).
  fold (historyDrivers o).
  destruct (decide _) as [Hge|Hlt].
  - left. exact Hge.
  - change (match List.find
                    (λ driver, negb (bool_decide (Driver.driverId driver ∈ historyDrivers o)))
                    availableDrivers with
            | Some nd =>
                length (Order.driverAssignments o) < maxAssignmentAttempts cfg ∧
                firstUntried (historyDrivers o) nd
            | None => exhausted cfg (historyDrivers o)
            end).
    destruct (List.find _ _) as [nd|] eqn:Hfind.
    + unfold historyDrivers in Hlt. rewrite length_fmap in Hlt. split; [lia|].
      apply find_first in Hfind as (i & Hi & Hnd & Hbefore).
      exists i. split; [done|]. split.
      * by apply negb_true_iff, bool_decide_eq_false in Hnd.
      * intros j d Hj Hd. specialize (Hbefore j d Hj Hd).
        by apply negb_false_iff, bool_decide_eq_true in Hbefore.
    + right. apply find_none_all in Hfind.
      eapply Forall_impl; [exact Hfind|]. intros d Hd. simpl in Hd.
      by apply negb_false_iff, bool_decide_eq_true in Hd.
Qed.

Lemma getNextAvailableDriver_first_untried_witness :
  (getNextAvailableDriver defaultConfig (hostAt 16000) "o1" s_offered).1 = s_offered.
Proof.
  assert (Hs : ∃ o, orders s_offered !! "o1" = Some o) by (vm_compute; eauto).
  destruct Hs as [o Ho].
  exact (proj1 (getNextAvailableDriver_first_untried defaultConfig (hostAt 16000)
                  s_offered "o1" o Ho)).
Defined.

(** ** Offers *)

(** [assignOrderToDriver] on an unknown id throws "Order not found" and on
    an order that is not pending "Cannot assign", both without touching the
    state. On a pending order of a well-formed store it saves the order with
    one more open offer, to the given driver, who becomes the current
    driver; the reassignment count becomes the former length of the history;
    the status, the earlier entries and the log stay; the order's timer is
    armed for that driver, in place of any earlier timer of the order. *)
Theorem assignOrderToDriver_effect
    (cfg : Config) (h : Host) (s : State) (orderId driverId : string) :
  store_wf s →
  match orders s !! orderId with
  | None =>
      assignOrderToDriver cfg h orderId driverId s = (s, inl (OrderNotFound orderId))
  | Some o =>
      if decide (Order.status o = O_PENDING) then
        ∃ o',
          assignOrderToDriver cfg h orderId driverId s =
            ({| orders := <[orderId := o']> (orders s);
                assignmentTimers :=
                  <[orderId := {| timerDriverId := driverId;
                                  timerDelay := assignmentTimeout cfg |}]>
                    (assignmentTimers s) |},
             inr o') ∧
          Order.driverAssignments o' =
            (Order.driverAssignments o ++ [Assignment.offered h driverId])%list ∧
          Order.currentDriverId o' = Some driverId ∧
          Order.reassignmentCount o' = length (Order.driverAssignments o) ∧
          Order.status o' = O_PENDING ∧
          Order.reassignmentLogs o' = Order.reassignmentLogs o ∧
          Order._id o' = orderId
      else
        assignOrderToDriver cfg h orderId driverId s =
          (s, inl (CannotAssign orderId (Order.status o)))
  end.
Proof.
  intros Hwf. destruct (orders s !! orderId) as [o|] eqn:Ho.
  - destruct (decide (Order.status o = O_PENDING)) as [Hst|Hst];
      [|by apply assign_not_pending].
    destruct (stored_key h s orderId o Hwf Ho) as [Hk _].
    eexists. split.
    + unfold assignOrderToDriver, mbind, M_bind.
      rewrite (findById_stored h _ _ o Ho). lazy beta iota.
      change (Order.status (Order.revive h o)) with (Order.status o).
      destruct (decide _) as [Hne|_]; [done|].
      unfold Order_addDriverAssignment. rewrite save_eq. lazy beta iota.
      unfold setupAutoReassignment, modify, mret, M_ret, with_timers, with_orders.
      cbn [orders assignmentTimers].
      change (Order._id (Order.set_reassignmentCount _ _))
        with (Order._id (Order.revive h o)).
      rewrite Hk. reflexivity.
    + repeat split; try done.
      cbn [Order.reassignmentCount Order.set_updatedAt Order.set_reassignmentCount].
      cbn [Order.driverAssignments Order.set_driverAssignments Order.set_currentDriverId
           Order.revive].
      rewrite length_app. simpl. lia.
  - unfold assignOrderToDriver, mbind, M_bind.
    by rewrite (findById_missing h _ _ Ho).
Qed.

Lemma assignOrderToDriver_effect_witness :
  assignOrderToDriver defaultConfig (hostAt 1000) "o2" "d1" s_created =
    (s_created, inl (OrderNotFound "o2")).
Proof.
  assert (Hwf : store_wf s_created)
    by (apply (bool_decide_unpack _); vm_compute; exact I).
  pose proof (assignOrderToDriver_effect defaultConfig (hostAt 1000) s_created
                "o2" "d1" Hwf) as H.
  assert (Hnone : orders s_created !! "o2" = None) by (vm_compute; reflexivity).
  rewrite Hnone in H. exact H.
Defined.

(** ** Responses to an open offer *)

Lemma recordDriverResponse_last h d st o s l0 a :
  Order.driverAssignments o = (l0 ++ [a])%list →
  Forall (λ x, Assignment.status x ≠ A_PENDING) l0 →
  Assignment.pendingFor d a →
  ∃ o', Order_recordDriverResponse h d st o s =
          (with_orders (insert (Order._id o) o') s, inr o') ∧
        Order._id o' = Order._id o ∧
        Order.status o' =
          (if decide (st = A_ACCEPTED) then O_ACCEPTED else Order.status o) ∧
        Order.currentDriverId o' = Order.currentDriverId o ∧
        Order.driverAssignments o' = (l0 ++ [Assignment.respond h st a])%list ∧
        Order.reassignmentLogs o' = Order.reassignmentLogs o ∧
        Order.reassignmentCount o' = Order.reassignmentCount o ∧
        Order.timeoutAt o' = Order.timeoutAt o.
Proof.
  intros Hl Hl0 Ha. unfold Order_recordDriverResponse.
  rewrite Hl, (list_find_snoc_settled d l0 a Hl0 Ha), insert_snoc.
  destruct (decide (st = A_ACCEPTED)); eexists; (split; [reflexivity|]); by repeat split.
Qed.

Lemma settled_no_pending d (l : list Assignment.t) :
  Forall (λ x, Assignment.status x ≠ A_PENDING) l →
  ¬ Exists (Assignment.pendingFor d) l.
Proof.
  intros Hl Hex. apply Exists_exists in Hex as (a & Ha & _ & Hp).
  rewrite Forall_forall in Hl. by apply (Hl a).
Qed.

(** [recordReassignment] on a history without open offer: nothing to close. *)
Lemma recordReassignment_settled h p n r o s :
  Forall (λ x, Assignment.status x ≠ A_PENDING) (Order.driverAssignments o) →
  ∃ o', Order_recordReassignment h p n r o s =
          (with_orders (insert (Order._id o) o') s, inr o') ∧
        Order._id o' = Order._id o ∧
        Order.status o' = Order.status o ∧
        Order.currentDriverId o' = Some n ∧
        Order.driverAssignments o' =
          (Order.driverAssignments o ++ [Assignment.offered h n])%list ∧
        Order.reassignmentLogs o' =
          (Order.reassignmentLogs o ++
             [ReassignmentLog.mk (genLogId h) p n r (now h)])%list ∧
        Order.reassignmentCount o' = S (Order.reassignmentCount o) ∧
        Order.timeoutAt o' = Order.timeoutAt o.
Proof.
  intros Hl. eexists. split; [reflexivity|]. repeat split; simpl.
  - by rewrite (no_pending_list_find p _ (settled_no_pending p _ Hl)).
  - lia.
Qed.

Lemma getNext_same_history cfg h h' s s' k o o' :
  orders s !! k = Some o → orders s' !! k = Some o' →
  historyDrivers o = historyDrivers o' →
  (getNextAvailableDriver cfg h' k s').2 = (getNextAvailableDriver cfg h k s).2.
Proof.
  intros Ho Ho' Hds. unfold getNextAvailableDriver, mbind, M_bind.
  rewrite (findById_stored h _ _ o Ho), (findById_stored h' _ _ o' Ho').
  lazy beta iota zeta.
  change (Order.driverAssignments (Order.revive h o)) with (Order.driverAssignments o).
  change (Order.driverAssignments (Order.revive h' o')) with (Order.driverAssignments o').
  fold (historyDrivers o) (historyDrivers o'). rewrite Hds.
  by destruct (decide _).
Qed.

Lemma settled_snoc (l0 : list Assignment.t) a :
  Forall (λ x, Assignment.status x ≠ A_PENDING) l0 →
  Assignment.status a ≠ A_PENDING →
  Forall (λ x, Assignment.status x ≠ A_PENDING) (l0 ++ [a])%list.
Proof. intros Hl0 Ha. apply Forall_app. split; [done|]. by constructor. Qed.

Lemma timer_without_offer cfg h s k d o :
  orders s !! k = Some o → ¬ hasPending d o →
  handleDriverTimeoutReassignment cfg h k d s = (s, inr (Order.revive h o)).
Proof.
  intros Ho Hno. unfold handleDriverTimeoutReassignment, mbind, M_bind.
  rewrite (findById_stored h _ _ o Ho). lazy beta iota.
  change (Order.driverAssignments (Order.revive h o)) with (Order.driverAssignments o).
  by rewrite (no_pending_find d _ Hno).
Qed.

Lemma accept_open_offer cfg h s orderId d o l0 a :
  store_wf s →
  orders s !! orderId = Some o →
  d ≠ "" →
  Order.currentDriverId o = Some d →
  Order.driverAssignments o = (l0 ++ [a])%list →
  Forall (λ x, Assignment.status x ≠ A_PENDING) l0 →
  Assignment.pendingFor d a →
  ∃ o' s',
    handleDriverResponse cfg h orderId d true s = (s', inr o') ∧
    s' = {| orders := <[orderId := o']> (orders s);
            assignmentTimers := delete orderId (assignmentTimers s) |} ∧
    Order.status o' = O_ACCEPTED ∧
    Order.driverAssignments o' =
      (l0 ++ [Assignment.mk (Assignment._id a) d A_ACCEPTED (Assignment.assignedAt a)
                (Some (now h)) (Some (now h - Assignment.assignedAt a)%Z)])%list ∧
    Order.currentDriverId o' = Some d ∧
    Order.reassignmentCount o' = Order.reassignmentCount o ∧
    Order.reassignmentLogs o' = Order.reassignmentLogs o ∧
    Order.timeoutAt o' = Order.timeoutAt o ∧
    ∀ h' d',
      handleDriverTimeoutReassignment cfg h' orderId d' s' = (s', inr (Order.revive h' o')).
Proof.
  intros Hwf Ho Hne Hcur Hl Hl0 Ha.
  destruct (stored_key h s orderId o Hwf Ho) as [Hk _].
  set (s1 := with_timers (delete orderId) s).
  destruct (recordDriverResponse_last h d A_ACCEPTED (Order.revive h o) s1 l0 a Hl Hl0 Ha)
    as (o' & Heq & Hid & Hst & Hcur' & Hl' & Hlogs & Hcount & Hto).
  exists o'. eexists. split.
  { unfold handleDriverResponse, mbind, M_bind.
    rewrite (findById_stored h _ _ o Ho). lazy beta iota.
    rewrite (revive_current h o d Hcur Hne).
    destruct (decide (d ≠ d)) as [Hd|_]; [done|].
    unfold modify at 1. lazy beta iota. fold s1. rewrite Heq. lazy beta iota.
    rewrite Hk. reflexivity. }
  split; [reflexivity|].
  split; [by rewrite Hst|].
  split. { rewrite Hl'. destruct Ha as [Hd _]. unfold Assignment.respond. by rewrite Hd. }
  split. { rewrite Hcur'. by apply revive_current. }
  do 3 (split; [done|]).
  intros h' d'.
  apply timer_without_offer; [apply lookup_insert_eq|].
  unfold hasPending. rewrite Hl'. apply settled_no_pending.
  apply settled_snoc; [done|]. simpl. discriminate.
Qed.

(** The current driver accepts the open offer. The order is saved with
    status accepted, whatever its status was, the offer is marked accepted
    with the date of the response and the time it took, and the order's
    timer entry is removed; history length, reassignment count and log are
    unchanged. From then on the timeout handler is a no-op on the order for
    every driver. *)
Theorem handleDriverResponse_accept
    (cfg : Config) (h : Host) (s : State) (orderId d : string) (o : Order.t)
    (l0 : list Assignment.t) (a : Assignment.t) :
  store_wf s →
  orders s !! orderId = Some o →
  d ≠ "" →
  Order.currentDriverId o = Some d →
  Order.driverAssignments o = (l0 ++ [a])%list →
  Forall (λ x, Assignment.status x ≠ A_PENDING) l0 →
  Assignment.pendingFor d a →
  ∃ o' s',
    handleDriverResponse cfg h orderId d true s = (s', inr o') ∧
    s' = {| orders := <[orderId := o']> (orders s);
            assignmentTimers := delete orderId (assignmentTimers s) |} ∧
    Order.status o' = O_ACCEPTED ∧
    Order.driverAssignments o' =
      (l0 ++ [Assignment.mk (Assignment._id a) d A_ACCEPTED (Assignment.assignedAt a)
                (Some (now h)) (Some (now h - Assignment.assignedAt a)%Z)])%list ∧
    Order.currentDriverId o' = Some d ∧
    Order.reassignmentCount o' = Order.reassignmentCount o ∧
    Order.reassignmentLogs o' = Order.reassignmentLogs o ∧
    Order.timeoutAt o' = Order.timeoutAt o ∧
    ∀ h' d',
      handleDriverTimeoutReassignment cfg h' orderId d' s' = (s', inr (Order.revive h' o')).
Proof. apply accept_open_offer. Qed.

Lemma handleDriverResponse_accept_witness :
  Order.status <$>
    orders (handleDriverResponse defaultConfig (hostAt 2000) "o1" "d1" true s_offered).1
      !! "o1"
  = Some O_ACCEPTED.
Proof.
  assert (Hwf : store_wf s_offered)
    by (apply (bool_decide_unpack _); vm_compute; exact I).
  assert (Hs : ∃ o a, orders s_offered !! "o1" = Some o ∧
                      Order.currentDriverId o = Some "d1" ∧
                      Order.driverAssignments o = ([] ++ [a])%list ∧
                      Assignment.pendingFor "d1" a).
  { eexists _, _. split; [vm_compute; reflexivity|]. repeat split. }
  destruct Hs as (o & a & Ho & Hcur & Hl & Ha).
  destruct (handleDriverResponse_accept defaultConfig (hostAt 2000) s_offered "o1" "d1"
              o [] a Hwf Ho ltac:(discriminate) Hcur Hl (Forall_nil_2 _) Ha)
    as (o' & s' & -> & -> & Hst & _).
  cbn [fst orders]. rewrite lookup_insert_eq.
  change (Some (Order.status o') = Some O_ACCEPTED). by rewrite Hst.
Defined.

Lemma getNext_answers cfg h s k o :
  orders s !! k = Some o → ∃ r, (getNextAvailableDriver cfg h k s).2 = inr r.
Proof.
  intros Ho. unfold getNextAvailableDriver, mbind, M_bind.
  rewrite (findById_stored h _ _ o Ho). lazy beta iota zeta.
  destruct (decide _); eexists; reflexivity.
Qed.

Lemma reject_open_offer cfg h s orderId d o l0 a :
  store_wf s →
  orders s !! orderId = Some o →
  d ≠ "" →
  Order.currentDriverId o = Some d →
  Order.driverAssignments o = (l0 ++ [a])%list →
  Forall (λ x, Assignment.status x ≠ A_PENDING) l0 →
  Assignment.pendingFor d a →
  match (getNextAvailableDriver cfg h orderId s).2 with
  | inr (Some nd) =>
      ∃ o',
        handleDriverResponse cfg h orderId d false s =
          ({| orders := <[orderId := o']> (orders s);
              assignmentTimers :=
                <[orderId := {| timerDriverId := Driver.driverId nd;
                                timerDelay := assignmentTimeout cfg |}]>
                  (assignmentTimers s) |},
           inr o') ∧
        Order.status o' = Order.status o ∧
        Order.driverAssignments o' =
          (l0 ++ [Assignment.respond h A_REJECTED a;
                  Assignment.offered h (Driver.driverId nd)])%list ∧
        Order.currentDriverId o' = Some (Driver.driverId nd) ∧
        Order.reassignmentCount o' = S (Order.reassignmentCount o) ∧
        Order.reassignmentLogs o' =
          (Order.reassignmentLogs o ++
             [ReassignmentLog.mk (genLogId h) d (Driver.driverId nd) "REJECTION" (now h)])%list
  | inr None =>
      ∃ o',
        handleDriverResponse cfg h orderId d false s =
          ({| orders := <[orderId := o']> (orders s);
              assignmentTimers := delete orderId (assignmentTimers s) |},
           inr o') ∧
        Order.status o' = O_TIMEOUT ∧
        Order.timeoutAt o' = Some (now h) ∧
        Order.driverAssignments o' = (l0 ++ [Assignment.respond h A_REJECTED a])%list ∧
        Order.currentDriverId o' = Some d ∧
        Order.reassignmentCount o' = Order.reassignmentCount o ∧
        Order.reassignmentLogs o' = Order.reassignmentLogs o
  | inl _ => False
  end.
Proof.
  intros Hwf Ho Hne Hcur Hl Hl0 Ha.
  destruct (stored_key h s orderId o Hwf Ho) as [Hk _].
  set (s1 := with_timers (delete orderId) s).
  destruct (recordDriverResponse_last h d A_REJECTED (Order.revive h o) s1 l0 a Hl Hl0 Ha)
    as (o1 & Heq1 & Hid1 & Hst1 & Hcur1 & Hl1 & Hlogs1 & Hcount1 & Hto1).
  rewrite Hk in Heq1.
  set (s2 := with_orders (insert orderId o1) s1) in *.
  assert (Ho1 : orders s2 !! orderId = Some o1) by apply lookup_insert_eq.
  assert (Hds : historyDrivers o = historyDrivers o1).
  { unfold historyDrivers. rewrite Hl, Hl1, !fmap_app. reflexivity. }
  assert (Hk1 : Order._id o1 = orderId) by congruence.
  assert (Hsettled : Forall (λ x, Assignment.status x ≠ A_PENDING)
                       (Order.driverAssignments o1)).
  { rewrite Hl1. apply settled_snoc; [done|]. simpl. discriminate. }
  pose proof (getNext_same_history cfg h h s s2 orderId o o1 Ho Ho1 Hds) as Hnext.
  assert (Hresp : handleDriverResponse cfg h orderId d false s =
            let (s', r) := getNextAvailableDriver cfg h orderId s2 in
            match r with
            | inl e => (s', inl e)
            | inr (Some nd) =>
                let (s'', r') := Order_recordReassignment h d (Driver.driverId nd)
                                   "REJECTION" o1 s' in
                match r' with
                | inl e => (s'', inl e)
                | inr o2 =>
                    (with_timers
                       (insert orderId {| timerDriverId := Driver.driverId nd;
                                          timerDelay := assignmentTimeout cfg |}) s'',
                     inr o2)
                end
            | inr None => Order_markAsTimedOut h o1 s'
            end).
  { unfold handleDriverResponse, mbind, M_bind.
    rewrite (findById_stored h _ _ o Ho). lazy beta iota.
    rewrite (revive_current h o d Hcur Hne).
    destruct (decide (d ≠ d)) as [Hd|_]; [done|].
    unfold modify at 1. lazy beta iota. fold s1. rewrite Heq1. lazy beta iota.
    destruct (getNextAvailableDriver cfg h orderId s2) as [s' [e|[nd|]]]; reflexivity. }
  rewrite Hresp, (getNext_pair cfg h orderId s2), Hnext.
  destruct (getNext_answers cfg h s orderId o Ho) as [[nd|] Hr]; rewrite Hr.
  - destruct (recordReassignment_settled h d (Driver.driverId nd) "REJECTION" o1 s2 Hsettled)
      as (o2 & Heq2 & Hid2 & Hst2 & Hcur2 & Hl2 & Hlogs2 & Hcount2 & Hto2).
    rewrite Heq2, Hk1. exists o2. split.
    { unfold s2, s1, with_timers, with_orders. cbn [orders assignmentTimers].
      by rewrite insert_insert_eq, insert_delete_eq. }
    split; [by rewrite Hst2, Hst1|].
    split; [by rewrite Hl2, Hl1, <- app_assoc|].
    split; [done|].
    split; [by rewrite Hcount2, Hcount1|].
    by rewrite Hlogs2, Hlogs1.
  - unfold Order_markAsTimedOut. rewrite save_eq.
    change (Order._id (Order.set_timeoutAt (Some (now h)) (Order.set_status O_TIMEOUT o1)))
      with (Order._id o1).
    rewrite Hk1. eexists. split.
    { unfold s2, s1, with_timers, with_orders. cbn [orders assignmentTimers].
      by rewrite insert_insert_eq. }
    split; [reflexivity|]. split; [reflexivity|].
    split; [exact Hl1|].
    split. { cbn. rewrite Hcur1. by apply revive_current. }
    split; [exact Hcount1|exact Hlogs1].
Qed.

(** The current driver declines the open offer. If
    [getNextAvailableDriver] has a candidate, the offer is marked rejected,
    an open offer to the candidate is appended, the candidate becomes the
    current driver, the reassignment count grows by one, a log entry with
    reason REJECTION from the one to the other is appended, the status is
    unchanged, and the order's timer is armed for the candidate. If it has
    none, the offer is marked rejected and the order is saved with status
    timeout and [timeoutAt]; nothing is appended and the order has no timer
    entry any more. *)
Theorem handleDriverResponse_reject
    (cfg : Config) (h : Host) (s : State) (orderId d : string) (o : Order.t)
    (l0 : list Assignment.t) (a : Assignment.t) :
  store_wf s →
  orders s !! orderId = Some o →
  d ≠ "" →
  Order.currentDriverId o = Some d →
  Order.driverAssignments o = (l0 ++ [a])%list →
  Forall (λ x, Assignment.status x ≠ A_PENDING) l0 →
  Assignment.pendingFor d a →
  match (getNextAvailableDriver cfg h orderId s).2 with
  | inr (Some nd) =>
      ∃ o',
        handleDriverResponse cfg h orderId d false s =
          ({| orders := <[orderId := o']> (orders s);
              assignmentTimers :=
                <[orderId := {| timerDriverId := Driver.driverId nd;
                                timerDelay := assignmentTimeout cfg |}]>
                  (assignmentTimers s) |},
           inr o') ∧
        Order.status o' = Order.status o ∧
        Order.driverAssignments o' =
          (l0 ++ [Assignment.respond h A_REJECTED a;
                  Assignment.offered h (Driver.driverId nd)])%list ∧
        Order.currentDriverId o' = Some (Driver.driverId nd) ∧
        Order.reassignmentCount o' = S (Order.reassignmentCount o) ∧
        Order.reassignmentLogs o' =
          (Order.reassignmentLogs o ++
             [ReassignmentLog.mk (genLogId h) d (Driver.driverId nd) "REJECTION" (now h)])%list
  | inr None =>
      ∃ o',
        handleDriverResponse cfg h orderId d false s =
          ({| orders := <[orderId := o']> (orders s);
              assignmentTimers := delete orderId (assignmentTimers s) |},
           inr o') ∧
        Order.status o' = O_TIMEOUT ∧
        Order.timeoutAt o' = Some (now h) ∧
        Order.driverAssignments o' = (l0 ++ [Assignment.respond h A_REJECTED a])%list ∧
        Order.currentDriverId o' = Some d ∧
        Order.reassignmentCount o' = Order.reassignmentCount o ∧
        Order.reassignmentLogs o' = Order.reassignmentLogs o
  | inl _ => False
  end.
Proof. apply reject_open_offer. Qed.

Lemma handleDriverResponse_reject_witness :
  assignmentTimers
    (handleDriverResponse defaultConfig (hostAt 2000) "o1" "d1" false s_offered).1 !! "o1"
  = Some {| timerDriverId := "6123456789abcdef01234567"; timerDelay := 15000 |}.
Proof.
  assert (Hwf : store_wf s_offered)
    by (apply (bool_decide_unpack _); vm_compute; exact I).
  assert (Hs : ∃ o a, orders s_offered !! "o1" = Some o ∧
                      Order.currentDriverId o = Some "d1" ∧
                      Order.driverAssignments o = ([] ++ [a])%list ∧
                      Assignment.pendingFor "d1" a).
  { eexists _, _. split; [vm_compute; reflexivity|]. repeat split. }
  destruct Hs as (o & a & Ho & Hcur & Hl & Ha).
  pose proof (handleDriverResponse_reject defaultConfig (hostAt 2000) s_offered "o1" "d1"
                o [] a Hwf Ho ltac:(discriminate) Hcur Hl (Forall_nil_2 _) Ha) as H.
  assert (Hn : (getNextAvailableDriver defaultConfig (hostAt 2000) "o1" s_offered).2 =
               inr (Some (Driver.mk "6123456789abcdef01234567" "Driver 1")))
    by (vm_compute; reflexivity).
  rewrite Hn in H. destruct H as (o' & -> & _).
  cbn [fst assignmentTimers]. apply lookup_insert_eq.
Defined.

(** ** A late acceptance after exhaustion *)

Lemma exhaust_by_timer cfg h s k d o :
  store_wf s →
  orders s !! k = Some o →
  hasPending d o →
  (getNextAvailableDriver cfg h k s).2 = inr None →
  handleDriverTimeoutReassignment cfg h k d s =
    ({| orders :=
          <[k := Order.set_updatedAt (now h)
                   (Order.set_timeoutAt (Some (now h))
                      (Order.set_status O_TIMEOUT (Order.revive h o)))]> (orders s);
        assignmentTimers := delete k (assignmentTimers s) |},
     inr (Order.set_updatedAt (now h)
            (Order.set_timeoutAt (Some (now h))
               (Order.set_status O_TIMEOUT (Order.revive h o))))).
Proof.
  intros Hwf Ho Hpend Hnone.
  destruct (stored_key h s k o Hwf Ho) as [Hk _].
  destruct (has_pending_find d _ Hpend) as [a Hfind].
  unfold handleDriverTimeoutReassignment, mbind, M_bind.
  rewrite (findById_stored h _ _ o Ho). lazy beta iota.
  change (Order.driverAssignments (Order.revive h o)) with (Order.driverAssignments o).
  rewrite Hfind, getNext_pair, Hnone. lazy beta iota.
  unfold Order_markAsTimedOut. rewrite save_eq. lazy beta iota.
  change (Order._id (Order.set_timeoutAt (Some (now h))
                       (Order.set_status O_TIMEOUT (Order.revive h o))))
    with (Order._id (Order.revive h o)).
  rewrite Hk. reflexivity.
Qed.

(** The handler of [handleDriverResponse] does not look at the status of
    the order. When the timer of the open offer to the current driver
    elapses and no candidate is left, the order is saved as timed out but the
    offer stays open; if that driver then accepts, the order becomes
    accepted, and keeps the [timeoutAt] of the exhaustion. *)
Theorem late_accept_after_exhaustion
    (cfg : Config) (h h' : Host) (s : State) (orderId d : string) (o : Order.t)
    (l0 : list Assignment.t) (a : Assignment.t) :
  store_wf s →
  orders s !! orderId = Some o →
  d ≠ "" →
  Order.currentDriverId o = Some d →
  Order.driverAssignments o = (l0 ++ [a])%list →
  Forall (λ x, Assignment.status x ≠ A_PENDING) l0 →
  Assignment.pendingFor d a →
  (getNextAvailableDriver cfg h orderId s).2 = inr None →
  ∃ o1 s1 o2 s2,
    handleDriverTimeoutReassignment cfg h orderId d s = (s1, inr o1) ∧
    orders s1 !! orderId = Some o1 ∧
    Order.status o1 = O_TIMEOUT ∧
    Order.driverAssignments o1 = Order.driverAssignments o ∧
    handleDriverResponse cfg h' orderId d true s1 = (s2, inr o2) ∧
    orders s2 !! orderId = Some o2 ∧
    Order.status o2 = O_ACCEPTED ∧
    Order.timeoutAt o2 = Some (now h).
Proof.
  intros Hwf Ho Hne Hcur Hl Hl0 Ha Hnone.
  assert (Hpend : hasPending d o).
  { unfold hasPending. rewrite Hl. apply Exists_app. right. by left. }
  pose proof (exhaust_by_timer cfg h s orderId d o Hwf Ho Hpend Hnone) as Heq1.
  set (o1 := Order.set_updatedAt (now h) _) in Heq1.
  set (s1 := {| orders := _; assignmentTimers := _ |}) in Heq1.
  assert (Ho1 : orders s1 !! orderId = Some o1) by apply lookup_insert_eq.
  destruct (Hwf orderId o Ho) as [Hid Hk].
  assert (Hwf1 : store_wf s1).
  { apply map_Forall_insert_2; [|exact Hwf]. split; [|done].
    change (Order._id o1) with (Order._id (Order.revive h o)).
    rewrite revive_id; congruence. }
  assert (Hcur1 : Order.currentDriverId o1 = Some d) by (by apply revive_current).
  destruct (accept_open_offer cfg h' s1 orderId d o1 l0 a Hwf1 Ho1 Hne Hcur1 Hl Hl0 Ha)
    as (o2 & s2 & Heq2 & Hs2 & Hst2 & _ & _ & _ & _ & Hto2 & _).
  exists o1, s1, o2, s2. split; [done|]. split; [done|]. split; [reflexivity|].
  split; [reflexivity|]. split; [done|].
  split; [rewrite Hs2; apply lookup_insert_eq|]. split; [done|]. by rewrite Hto2.
Qed.

Lemma late_accept_after_exhaustion_witness :
  Order.status <$>
    orders (handleDriverResponse defaultConfig (hostAt 90000) "o1"
              "6123456789abcdef01234570" true
              (handleDriverTimeoutReassignment defaultConfig (hostAt 76000) "o1"
                 "6123456789abcdef01234570" s_fourTimeouts).1).1 !! "o1"
  = Some O_ACCEPTED.
Proof.
  assert (Hwf : store_wf s_fourTimeouts)
    by (apply (bool_decide_unpack _); vm_compute; exact I).
  assert (Hs : ∃ o l0 a, orders s_fourTimeouts !! "o1" = Some o ∧
                 Order.currentDriverId o = Some "6123456789abcdef01234570" ∧
                 Order.driverAssignments o = (l0 ++ [a])%list ∧
                 Forall (λ x, Assignment.status x ≠ A_PENDING) l0 ∧
                 Assignment.pendingFor "6123456789abcdef01234570" a).
  { eexists _, [_; _; _; _], _. split; [vm_compute; reflexivity|].
    split; [reflexivity|]. split; [reflexivity|]. split; [|by split].
    repeat constructor; discriminate. }
  destruct Hs as (o & l0 & a & Ho & Hcur & Hl & Hl0 & Ha).
  assert (Hn : (getNextAvailableDriver defaultConfig (hostAt 76000) "o1" s_fourTimeouts).2 =
               inr None) by (vm_compute; reflexivity).
  destruct (late_accept_after_exhaustion defaultConfig (hostAt 76000) (hostAt 90000)
              s_fourTimeouts "o1" "6123456789abcdef01234570" o l0 a Hwf Ho
              ltac:(discriminate) Hcur Hl Hl0 Ha Hn)
    as (o1 & s1 & o2 & s2 & -> & _ & _ & _ & Heq2 & Ho2 & Hst2 & _).
  cbn [fst]. rewrite Heq2. cbn [fst]. rewrite Ho2.
  change (Some (Order.status o2) = Some O_ACCEPTED). by rewrite Hst2.
Defined.

(** ** One order at a time *)

Lemma sameElsewhere_refl k s : sameElsewhere k s s.
Proof. by intros k' _. Qed.

Lemma sameElsewhere_trans k s1 s2 s3 :
  sameElsewhere k s1 s2 → sameElsewhere k s2 s3 → sameElsewhere k s1 s3.
Proof.
  intros H12 H23 k' Hk'. destruct (H12 k' Hk') as [Ho Ht].
  destruct (H23 k' Hk') as [Ho' Ht']. split; congruence.
Qed.

Lemma sameElsewhere_orders k o s : sameElsewhere k s (with_orders (insert k o) s).
Proof. intros k' Hk'. simpl. by rewrite lookup_insert_ne. Qed.

Lemma sameElsewhere_timer k t s : sameElsewhere k s (with_timers (insert k t) s).
Proof. intros k' Hk'. simpl. by rewrite lookup_insert_ne. Qed.

Lemma sameElsewhere_no_timer k s : sameElsewhere k s (with_timers (delete k) s).
Proof. intros k' Hk'. simpl. by rewrite lookup_delete_ne. Qed.

Lemma assign_frame cfg h k d s :
  store_wf s → sameElsewhere k s (assignOrderToDriver cfg h k d s).1.
Proof.
  intros Hwf. unfold assignOrderToDriver, mbind, M_bind.
  destruct (orders s !! k) as [o|] eqn:Ho.
  - rewrite (findById_stored h _ _ o Ho). lazy beta iota.
    destruct (stored_key h s k o Hwf Ho) as [Hk _].
    destruct (decide _); [apply sameElsewhere_refl|].
    destruct (addDriverAssignment_evolves h d (Order.revive h o) s) as (o' & -> & _).
    rewrite Hk. lazy beta iota. unfold setupAutoReassignment, modify. cbn [fst].
    eapply sameElsewhere_trans; [apply sameElsewhere_orders|apply sameElsewhere_timer].
  - rewrite (findById_missing h _ _ Ho). apply sameElsewhere_refl.
Qed.

Lemma timeout_frame cfg h k d s :
  store_wf s → sameElsewhere k s (handleDriverTimeoutReassignment cfg h k d s).1.
Proof.
  intros Hwf. unfold handleDriverTimeoutReassignment, mbind, M_bind.
  destruct (orders s !! k) as [o|] eqn:Ho.
  - rewrite (findById_stored h _ _ o Ho). lazy beta iota.
    destruct (stored_key h s k o Hwf Ho) as [Hk _].
    destruct (List.find _ _); [|apply sameElsewhere_refl].
    rewrite getNext_pair.
    destruct (getNextAvailableDriver cfg h k s).2 as [e|[nd|]];
      [apply sameElsewhere_refl| |].
    + destruct (recordReassignment_evolves h d (Driver.driverId nd) "TIMEOUT"
                  (Order.revive h o) s) as (o' & -> & _).
      rewrite Hk. lazy beta iota. unfold setupAutoReassignment, modify. cbn [fst].
      eapply sameElsewhere_trans; [apply sameElsewhere_orders|apply sameElsewhere_timer].
    + destruct (markAsTimedOut_evolves h (Order.revive h o) s) as (o' & -> & _).
      rewrite Hk. lazy beta iota. unfold modify. cbn [fst].
      eapply sameElsewhere_trans; [apply sameElsewhere_orders|apply sameElsewhere_no_timer].
  - rewrite (findById_missing h _ _ Ho). apply sameElsewhere_refl.
Qed.

Lemma respond_frame cfg h k d acc s :
  store_wf s → sameElsewhere k s (handleDriverResponse cfg h k d acc s).1.
Proof.
  intros Hwf. unfold handleDriverResponse, mbind, M_bind.
  destruct (orders s !! k) as [o|] eqn:Ho.
  - rewrite (findById_stored h _ _ o Ho). lazy beta iota.
    destruct (stored_key h s k o Hwf Ho) as [Hk _].
    destruct (Order.currentDriverId _); [|apply sameElsewhere_refl].
    destruct (decide _); [apply sameElsewhere_refl|].
    unfold modify at 1. lazy beta iota.
    set (s1 := with_timers (delete k) s).
    assert (H1 : sameElsewhere k s s1) by apply sameElsewhere_no_timer.
    destruct (recordDriverResponse_evolves h d (if acc then A_ACCEPTED else A_REJECTED)
                (Order.revive h o) s1) as [->|(o1 & -> & Hev1)]; [exact H1|].
    rewrite Hk. set (s2 := with_orders (insert k o1) s1).
    assert (H2 : sameElsewhere k s s2).
    { eapply sameElsewhere_trans; [exact H1|apply sameElsewhere_orders]. }
    destruct acc; [exact H2|].
    rewrite getNext_pair.
    assert (Hk1 : Order._id o1 = k) by (rewrite (ev_id _ _ Hev1); done).
    destruct (getNextAvailableDriver cfg h k s2).2 as [e|[nd|]]; [exact H2| |].
    + destruct (recordReassignment_evolves h d (Driver.driverId nd) "REJECTION" o1 s2)
        as (o2 & -> & _).
      rewrite Hk1. lazy beta iota. unfold setupAutoReassignment, modify. cbn [fst].
      eapply sameElsewhere_trans; [exact H2|].
      eapply sameElsewhere_trans; [apply sameElsewhere_orders|apply sameElsewhere_timer].
    + destruct (markAsTimedOut_evolves h o1 s2) as (o2 & -> & _).
      rewrite Hk1. cbn [fst].
      eapply sameElsewhere_trans; [exact H2|apply sameElsewhere_orders].
  - rewrite (findById_missing h _ _ Ho). apply sameElsewhere_refl.
Qed.

Lemma step_sameElsewhere cfg h op s :
  store_wf s → sameElsewhere (opTarget op) s (step cfg h op s).1.
Proof.
  destruct op; simpl; auto using assign_frame, respond_frame, timeout_frame.
Qed.

(** An operation of the engine on one order leaves every other order and
    every other order's timer as they were, whether it succeeds or throws. *)
Theorem step_touches_one_order
    (cfg : Config) (h : Host) (op : Op) (s : State) (k : string) :
  store_wf s →
  k ≠ opTarget op →
  orders (step cfg h op s).1 !! k = orders s !! k ∧
  assignmentTimers (step cfg h op s).1 !! k = assignmentTimers s !! k.
Proof. intros Hwf Hk. by apply step_sameElsewhere. Qed.

Lemma step_touches_one_order_witness :
  orders (step defaultConfig (hostAt 16000) (TimerFired "o1" "d1") s_two).1 !! "o2" =
  orders s_two !! "o2".
Proof.
  assert (Hwf : store_wf s_two)
    by (apply (bool_decide_unpack _); vm_compute; exact I).
  exact (proj1 (step_touches_one_order defaultConfig (hostAt 16000) (TimerFired "o1" "d1")
                  s_two "o2" Hwf ltac:(discriminate))).
Defined.

(** ** Relations kept by every operation *)

Lemma responded_driver_in_history h d st o s s' o' :
  Order_recordDriverResponse h d st o s = (s', inr o') → d ∈ historyDrivers o'.
Proof.
  unfold Order_recordDriverResponse.
  destruct (list_find _ _) as [[i a]|] eqn:Hfind; [|discriminate].
  apply list_find_Some in Hfind as (Hi & [Hd _] & _).
  rewrite save_eq. intros Heq. injection Heq as _ <-.
  assert (Hin : d ∈ Assignment.driverId <$>
                  <[i := Assignment.respond h st a]> (Order.driverAssignments o)).
  { apply list_elem_of_fmap. exists (Assignment.respond h st a). split; [by rewrite <- Hd|].
    apply list_elem_of_lookup. exists i. apply list_lookup_insert_eq.
    by eapply lookup_lt_Some. }
  by destruct (decide (st = A_ACCEPTED)).
Qed.

Lemma found_driver_in_history d (l : list Assignment.t) a :
  List.find (λ a, bool_decide (Assignment.pendingFor d a)) l = Some a →
  d ∈ Assignment.driverId <$> l.
Proof.
  intros Hfind. apply find_some in Hfind as [Hin Hp].
  apply bool_decide_eq_true in Hp as [Hd _].
  apply list_elem_of_fmap. exists a. split; [done|]. by apply list_elem_of_In.
Qed.

Section OrderRelation.
Variable cfg : Config.
Variable R : Order.t → Order.t → Prop.
Hypothesis R_refl : ∀ o, R o o.
Hypothesis R_trans : ∀ o1 o2 o3, R o1 o2 → R o2 o3 → R o1 o3.
Hypothesis R_revive : ∀ h o, Order._id o ≠ "" → R o (Order.revive h o).
Hypothesis R_add : ∀ h d o s s' o',
  Order_addDriverAssignment h d o s = (s', inr o') → R o o'.
Hypothesis R_respond : ∀ h d st o s s' o',
  Order_recordDriverResponse h d st o s = (s', inr o') →
  st = A_ACCEPTED ∨ st = A_REJECTED → R o o'.
Hypothesis R_reassign : ∀ h p n r o s s' o',
  Order_recordReassignment h p n r o s = (s', inr o') →
  p ∈ historyDrivers o → r = "TIMEOUT" ∨ r = "REJECTION" → R o o'.
Hypothesis R_timedOut : ∀ h o s s' o',
  Order_markAsTimedOut h o s = (s', inr o') → R o o'.

Lemma stored_rel h s k o :
  store_wf s → orders s !! k = Some o → R o (Order.revive h o).
Proof. intros Hwf Ho. destruct (Hwf k o Ho) as [Hid Hne]. apply R_revive. congruence. Qed.

Lemma assign_rel h k d s o :
  store_wf s → orders s !! k = Some o →
  ∃ o', orders (assignOrderToDriver cfg h k d s).1 !! k = Some o' ∧ R o o'.
Proof.
  intros Hwf Ho. unfold assignOrderToDriver, mbind, M_bind.
  rewrite (findById_stored h _ _ o Ho). lazy beta iota.
  destruct (stored_key h s k o Hwf Ho) as [Hk _].
  pose proof (stored_rel h s k o Hwf Ho) as H0.
  destruct (decide _); [by exists o|].
  destruct (addDriverAssignment_evolves h d (Order.revive h o) s) as (o' & Heq & _).
  rewrite Heq, Hk. exists o'. split; [apply lookup_insert_eq|]. eauto.
Qed.

Lemma timeout_rel h k d s o :
  store_wf s → orders s !! k = Some o →
  ∃ o', orders (handleDriverTimeoutReassignment cfg h k d s).1 !! k = Some o' ∧ R o o'.
Proof.
  intros Hwf Ho. unfold handleDriverTimeoutReassignment, mbind, M_bind.
  rewrite (findById_stored h _ _ o Ho). lazy beta iota.
  destruct (stored_key h s k o Hwf Ho) as [Hk _].
  pose proof (stored_rel h s k o Hwf Ho) as H0.
  destruct (List.find _ _) as [a|] eqn:Hfind; [|by exists o].
  apply found_driver_in_history in Hfind.
  rewrite getNext_pair.
  destruct (getNextAvailableDriver cfg h k s).2 as [e|[nd|]]; [by exists o| |].
  - destruct (recordReassignment_evolves h d (Driver.driverId nd) "TIMEOUT"
                (Order.revive h o) s) as (o' & Heq & _).
    rewrite Heq, Hk. exists o'. split; [apply lookup_insert_eq|].
    eapply R_trans; [exact H0|]. eapply R_reassign; eauto.
  - destruct (markAsTimedOut_evolves h (Order.revive h o) s) as (o' & Heq & _).
    rewrite Heq, Hk. exists o'. split; [apply lookup_insert_eq|]. eauto.
Qed.

Lemma respond_rel h k d acc s o :
  store_wf s → orders s !! k = Some o →
  ∃ o', orders (handleDriverResponse cfg h k d acc s).1 !! k = Some o' ∧ R o o'.
Proof.
  intros Hwf Ho. unfold handleDriverResponse, mbind, M_bind.
  rewrite (findById_stored h _ _ o Ho). lazy beta iota.
  destruct (stored_key h s k o Hwf Ho) as [Hk _].
  pose proof (stored_rel h s k o Hwf Ho) as H0.
  destruct (Order.currentDriverId _); [|by exists o].
  destruct (decide _); [by exists o|].
  unfold modify at 1. lazy beta iota.
  set (s1 := with_timers (delete k) s).
  destruct (recordDriverResponse_evolves h d (if acc then A_ACCEPTED else A_REJECTED)
              (Order.revive h o) s1) as [->|(o1 & Heq1 & Hev1)]; [by exists o|].
  pose proof (responded_driver_in_history _ _ _ _ _ _ _ Heq1) as Hin1.
  assert (H1 : R o o1).
  { eapply R_trans; [exact H0|]. eapply R_respond; [exact Heq1|].
    destruct acc; auto. }
  rewrite Heq1, Hk.
  destruct acc; [exists o1; split; [apply lookup_insert_eq|done]|].
  rewrite getNext_pair.
  set (s2 := with_orders (insert k o1) s1).
  assert (Hk1 : Order._id o1 = k) by (rewrite (ev_id _ _ Hev1); done).
  destruct (getNextAvailableDriver cfg h k s2).2 as [e|[nd|]].
  - exists o1. split; [apply lookup_insert_eq|done].
  - destruct (recordReassignment_evolves h d (Driver.driverId nd) "REJECTION" o1 s2)
      as (o2 & Heq2 & _).
    rewrite Heq2, Hk1. exists o2. split; [apply lookup_insert_eq|].
    eapply R_trans; [exact H1|]. eapply R_reassign; eauto.
  - destruct (markAsTimedOut_evolves h o1 s2) as (o2 & Heq2 & _).
    rewrite Heq2, Hk1. exists o2. split; [apply lookup_insert_eq|]. eauto.
Qed.

Lemma step_rel h op s k o :
  store_wf s → orders s !! k = Some o →
  ∃ o', orders (step cfg h op s).1 !! k = Some o' ∧ R o o'.
Proof.
  intros Hwf Ho. destruct (decide (k = opTarget op)) as [->|Hne].
  - destruct op; simpl in *; auto using assign_rel, respond_rel, timeout_rel.
  - destruct (step_sameElsewhere cfg h op s Hwf k Hne) as [Hsame _].
    exists o. split; [congruence|done].
Qed.

Lemma run_rel tr s k o :
  store_wf s → orders s !! k = Some o →
  ∃ o', orders (run cfg tr s) !! k = Some o' ∧ R o o'.
Proof.
  revert s o. induction tr as [|[h op] tr IH]; intros s o Hwf Ho; simpl.
  - by exists o.
  - destruct (step_rel h op s k o Hwf Ho) as (o1 & Ho1 & H1).
    assert (Hwf1 : store_wf (step cfg h op s).1)
      by eauto using orders_evolve_wf, step_evolves.
    destruct (IH _ o1 Hwf1 Ho1) as (o' & Ho' & H'). eauto.
Qed.
End OrderRelation.

(** ** The audit trail *)

Lemma offerKey_respond h st a : offerKey (Assignment.respond h st a) = offerKey a.
Proof. reflexivity. Qed.

Lemma offerKeys_respond h st (l : list Assignment.t) i a :
  l !! i = Some a →
  offerKey <$> <[i := Assignment.respond h st a]> l = offerKey <$> l.
Proof.
  intros Hi. rewrite list_fmap_insert, offerKey_respond.
  apply list_insert_id. by rewrite list_lookup_fmap, Hi.
Qed.

Lemma extends_refl o : extends o o.
Proof. split; auto. Qed.

Lemma default_details_not_empty : Order.defaultOrderDetails ≠ "".
Proof. discriminate. Qed.

Lemma extends_trans o1 o2 o3 : extends o1 o2 → extends o2 o3 → extends o1 o3.
Proof.
  intros [Ha1 Hs1 Hl1 Hc1 Hd1 Ht1] [Ha2 Hs2 Hl2 Hc2 Hd2 Ht2].
  split; try congruence; try (etrans; eassumption); [eauto|].
  destruct Hd1 as [Hd1|[He1 Hd1]], Hd2 as [Hd2|[He2 Hd2]].
  - left. congruence.
  - right. split; congruence.
  - right. split; congruence.
  - exfalso. apply default_details_not_empty. congruence.
Qed.

Lemma extends_revive h o : extends o (Order.revive h o).
Proof.
  split; auto. cbn [Order.revive Order.orderDetails]. unfold Order.detailsOrDefault.
  destruct (decide (Order.orderDetails o = "")); auto.
Qed.

Lemma extends_add h d o s s' o' :
  Order_addDriverAssignment h d o s = (s', inr o') → extends o o'.
Proof.
  unfold Order_addDriverAssignment. rewrite save_eq. intros Heq. injection Heq as _ <-.
  split; simpl; auto.
  - rewrite fmap_app. by apply prefix_app_r.
  - intros i a Hi _. by apply lookup_app_l_Some.
Qed.

Lemma extends_respond h d st o s s' o' :
  Order_recordDriverResponse h d st o s = (s', inr o') → extends o o'.
Proof.
  unfold Order_recordDriverResponse.
  destruct (list_find _ _) as [[i a]|] eqn:Hfind; [|discriminate].
  pose proof Hfind as Hfind'. apply list_find_Some in Hfind' as (Hi & _ & _).
  rewrite save_eq. intros Heq. injection Heq as _ <-.
  destruct (decide (st = A_ACCEPTED)); split; simpl; auto;
    try (by rewrite (offerKeys_respond h st _ i a Hi));
    intros j b Hj Hb; eauto using respond_first_settled.
Qed.

Lemma extends_reassign h p n r o s s' o' :
  Order_recordReassignment h p n r o s = (s', inr o') → extends o o'.
Proof.
  unfold Order_recordReassignment. rewrite save_eq. intros Heq. injection Heq as _ <-.
  split; simpl; auto.
  - rewrite fmap_app. apply prefix_app_r.
    destruct (list_find _ _) as [[i a]|] eqn:Hfind; [|done].
    apply list_find_Some in Hfind as (Hi & _ & _).
    by rewrite (offerKeys_respond h A_TIMED_OUT _ i a Hi).
  - intros j b Hj Hb. apply lookup_app_l_Some.
    destruct (list_find _ _) as [[i a]|] eqn:Hfind; [|done].
    eauto using respond_first_settled.
  - by apply prefix_app_r.
Qed.

Lemma extends_timedOut h o s s' o' :
  Order_markAsTimedOut h o s = (s', inr o') → extends o o'.
Proof.
  unfold Order_markAsTimedOut. rewrite save_eq. intros Heq. injection Heq as _ <-.
  split; simpl; auto.
Qed.

(** No run of the engine rewrites the audit trail of an order. After any
    operations the order is still stored; its earlier offers are in the
    history at the same places, with the id, driver and date they had, and
    an offer that had been accepted, rejected or timed out is unchanged; the
    earlier log entries are the front of the log; customer and creation
    date are the same, and so are the order details, unless they were empty:
    the first operation that saves the order then stores the constructor's
    default details in their place. *)
Theorem audit_trail_is_append_only
    (cfg : Config) (tr : list (Host * Op)) (s : State) (k : string) (o : Order.t) :
  store_wf s →
  orders s !! k = Some o →
  ∃ o', orders (run cfg tr s) !! k = Some o' ∧ extends o o'.
Proof.
  apply (run_rel cfg extends extends_refl extends_trans).
  - intros h o0 _. apply extends_revive.
  - apply extends_add.
  - intros h d st o0 s0 s' o' Heq _. by eapply extends_respond.
  - intros h p n r o0 s0 s' o' Heq _ _. by eapply extends_reassign.
  - apply extends_timedOut.
Qed.

Lemma audit_trail_is_append_only_witness :
  is_Some (orders (run defaultConfig fiveRejections s_offered) !! "o1").
Proof.
  assert (Hwf : store_wf s_offered)
    by (apply (bool_decide_unpack _); vm_compute; exact I).
  assert (Hs : ∃ o, orders s_offered !! "o1" = Some o) by (vm_compute; eauto).
  destruct Hs as [o Ho].
  destruct (audit_trail_is_append_only defaultConfig fiveRejections s_offered "o1" o Hwf Ho)
    as (o' & Ho' & Hext).
  by exists o'.
Defined.

(** ** Orders the engine has produced *)

Lemma drivers_respond h st (l : list Assignment.t) i a :
  l !! i = Some a →
  Assignment.driverId <$> <[i := Assignment.respond h st a]> l = Assignment.driverId <$> l.
Proof.
  intros Hi. rewrite list_fmap_insert. apply list_insert_id.
  by rewrite list_lookup_fmap, Hi.
Qed.

Lemma accepted_stays h st d (l : list Assignment.t) i a :
  list_find (Assignment.pendingFor d) l = Some (i, a) →
  Exists (λ a, Assignment.status a = A_ACCEPTED) l →
  Exists (λ a, Assignment.status a = A_ACCEPTED) (<[i := Assignment.respond h st a]> l).
Proof.
  intros Hfind Hex. apply Exists_exists in Hex as (b & Hb & Hst).
  apply list_elem_of_lookup in Hb as [j Hj].
  apply Exists_exists. exists b. split; [|done].
  apply list_elem_of_lookup. exists j.
  eapply respond_first_settled; eauto. rewrite Hst. discriminate.
Qed.

Lemma sound_revive h o : orderSound o → orderSound (Order.revive h o).
Proof.
  intros [Hc Hl Hs Hr Hg Hcur Ha Ht Hre Hco]. split; auto.
  intros d. simpl. destruct (Order.currentDriverId o) as [d'|]; [|discriminate].
  destruct (decide (d' = "")); [discriminate|]. intros [= <-]. by apply Hcur.
Qed.

Lemma sound_create h c d : orderSound (Order.set_updatedAt (now h) (Order.create h c d O_PENDING)).
Proof.
  split; simpl; auto; try discriminate.
Qed.

Lemma sound_add h d o s s' o' :
  Order_addDriverAssignment h d o s = (s', inr o') → orderSound o → orderSound o'.
Proof.
  unfold Order_addDriverAssignment. rewrite save_eq. intros Heq. injection Heq as _ <-.
  intros [Hc Hl Hs Hr Hg Hcur Ha Ht Hre Hco]. split; simpl; auto.
  - rewrite length_app. simpl. lia.
  - eapply Forall_impl; [exact Hg|]. intros l [Hp Hn]. unfold historyDrivers. simpl.
    rewrite fmap_app. split; apply elem_of_app; by left.
  - intros d' [= <-]. unfold historyDrivers. simpl. rewrite fmap_app.
    apply elem_of_app. right. by left.
  - intros Hst. apply Exists_app. left. auto.
  - apply Forall_app. split; [done|]. constructor; [|constructor]. by split.
Qed.

Lemma sound_respond h d st o s s' o' :
  Order_recordDriverResponse h d st o s = (s', inr o') →
  st = A_ACCEPTED ∨ st = A_REJECTED → orderSound o → orderSound o'.
Proof.
  unfold Order_recordDriverResponse.
  destruct (list_find _ _) as [[i a]|] eqn:Hfind; [|discriminate].
  pose proof Hfind as Hfind'. apply list_find_Some in Hfind' as (Hi & _ & _).
  rewrite save_eq. intros Heq Hst. injection Heq as _ <-.
  intros [Hc Hl Hs Hr Hg Hcur Ha Ht Hre Hco].
  assert (Hre' : Forall (λ a, (Assignment.status a = A_PENDING ↔
                               Assignment.respondedAt a = None) ∧
                              Assignment.responseTime a =
                                (λ r, r - Assignment.assignedAt a)%Z
                                  <$> Assignment.respondedAt a)
                   (<[i := Assignment.respond h st a]> (Order.driverAssignments o))).
  { apply Forall_insert; [done|]. split; [|done]. simpl.
    split; [|discriminate]. destruct Hst as [-> | ->]; discriminate. }
  destruct (decide (st = A_ACCEPTED)) as [->|Hne].
  - split; simpl; auto; try discriminate.
    + by rewrite length_insert.
    + unfold historyDrivers. simpl. by rewrite (drivers_respond h _ _ i a Hi).
    + intros d'. unfold historyDrivers. simpl. rewrite (drivers_respond h _ _ i a Hi).
      apply Hcur.
    + intros _. apply Exists_exists. exists (Assignment.respond h A_ACCEPTED a).
      split; [|done]. apply list_elem_of_lookup. exists i.
      apply list_lookup_insert_eq. by eapply lookup_lt_Some.
  - split; simpl; auto.
    + by rewrite length_insert.
    + unfold historyDrivers. simpl. by rewrite (drivers_respond h _ _ i a Hi).
    + intros d'. unfold historyDrivers. simpl. rewrite (drivers_respond h _ _ i a Hi).
      apply Hcur.
    + intros Hacc. eapply accepted_stays; eauto.
Qed.

Lemma sound_reassign h p n r o s s' o' :
  Order_recordReassignment h p n r o s = (s', inr o') →
  p ∈ historyDrivers o → r = "TIMEOUT" ∨ r = "REJECTION" →
  orderSound o → orderSound o'.
Proof.
  unfold Order_recordReassignment. rewrite save_eq. intros Heq Hp Hr'. injection Heq as _ <-.
  intros [Hc Hl Hs Hr Hg Hcur Ha Ht Hre Hco].
  set (l1 := match list_find (Assignment.pendingFor p) (Order.driverAssignments o) with
             | Some (i, a) =>
                 <[i := Assignment.respond h A_TIMED_OUT a]> (Order.driverAssignments o)
             | None => Order.driverAssignments o
             end).
  assert (Hlen1 : length l1 = length (Order.driverAssignments o)).
  { subst l1. destruct (list_find _ _) as [[i a]|]; [apply length_insert|done]. }
  assert (Hds1 : Assignment.driverId <$> l1 = historyDrivers o).
  { subst l1. destruct (list_find _ _) as [[i a]|] eqn:Hfind; [|done].
    apply list_find_Some in Hfind as (Hi & _ & _). by apply drivers_respond. }
  assert (Hpos : 0 < length (Order.driverAssignments o)).
  { unfold historyDrivers in Hp. destruct (Order.driverAssignments o); [|simpl; lia].
    by apply elem_of_nil in Hp. }
  split; simpl; fold l1.
  - rewrite length_app, Hlen1. simpl. lia.
  - rewrite length_app. simpl. lia.
  - done.
  - apply Forall_app. split; [done|]. by constructor.
  - unfold historyDrivers. simpl. fold l1. rewrite fmap_app, Hds1.
    apply Forall_app. split.
    + eapply Forall_impl; [exact Hg|]. intros l [Hp' Hn].
      split; apply elem_of_app; by left.
    + constructor; [|constructor]. simpl. split; apply elem_of_app; [by left|].
      right. by left.
  - intros d' [= <-]. unfold historyDrivers. simpl. fold l1. rewrite fmap_app.
    apply elem_of_app. right. by left.
  - intros Hacc. apply Exists_app. left. subst l1.
    destruct (list_find _ _) as [[i a]|] eqn:Hfind; [|auto].
    eapply accepted_stays; eauto.
  - done.
  - apply Forall_app. split.
    + subst l1. destruct (list_find _ _) as [[i a]|] eqn:Hfind; [|done].
      apply Forall_insert; [done|]. split; [|done]. simpl. by split.
    + constructor; [|constructor]. by split.
  - done.
Qed.

Lemma sound_timedOut h o s s' o' :
  Order_markAsTimedOut h o s = (s', inr o') → orderSound o → orderSound o'.
Proof.
  unfold Order_markAsTimedOut. rewrite save_eq. intros Heq. injection Heq as _ <-.
  intros [Hc Hl Hs Hr Hg Hcur Ha Ht Hre Hco]. split; simpl; auto; discriminate.
Qed.

Lemma step_sound cfg h op s k o :
  store_wf s → orders s !! k = Some o →
  ∃ o', orders (step cfg h op s).1 !! k = Some o' ∧ (orderSound o → orderSound o').
Proof.
  apply (step_rel cfg (λ o o', orderSound o → orderSound o')); auto.
  - intros h0 o0 _. apply sound_revive.
  - intros ???????. by eapply sound_add.
  - intros ?????????. by eapply sound_respond.
  - intros ??????????? . by eapply sound_reassign.
  - intros ??????. by eapply sound_timedOut.
Qed.

Lemma reachable_wf_sound cfg s :
  reachable cfg s →
  store_wf s ∧ ∀ k o, orders s !! k = Some o → orderSound o.
Proof.
  induction 1 as [|h c d s Hr [Hwf Hsound] Hid|h op s Hr [Hwf Hsound]].
  - split; [apply map_Forall_empty|]. intros k o Hk. simpl in Hk. by rewrite lookup_empty in Hk.
  - unfold createOrder. rewrite save_eq. simpl. split.
    + by apply map_Forall_insert_2.
    + intros k o. destruct (decide (genOrderId h = k)) as [<-|Hne].
      * rewrite lookup_insert_eq. intros [= <-]. apply sound_create.
      * rewrite lookup_insert_ne by done. apply Hsound.
  - pose proof (step_evolves cfg h op s Hwf) as Hev.
    split; [eauto using orders_evolve_wf|].
    intros k o' Ho'. specialize (Hev k). rewrite Ho' in Hev.
    destruct (orders s !! k) as [o|] eqn:Ho; [|done].
    destruct (step_sound cfg h op s k o Hwf Ho) as (o'' & Ho'' & Himp).
    assert (o'' = o') by congruence. subst o''. eauto.
Qed.

(** Every order of a reachable state sits under its own id and is sound:
    the reassignment count is the number of offers beyond the first; the log
    is no longer than the count, each of its entries has reason TIMEOUT or
    REJECTION and names two drivers of the history; the status is pending,
    accepted or timeout; the current driver is in the history; an accepted
    order has an accepted offer; a timed-out order has [timeoutAt]; an offer
    is pending exactly when it has no response date, and its response time
    is the response date minus the date of the offer; [completedAt] is
    never set. *)
Theorem reachable_orders_are_sound
    (cfg : Config) (s : State) (k : string) (o : Order.t) :
  reachable cfg s →
  orders s !! k = Some o →
  Order._id o = k ∧ k ≠ "" ∧ orderSound o.
Proof.
  intros Hr Ho. destruct (reachable_wf_sound cfg s Hr) as [Hwf Hsound].
  destruct (Hwf k o Ho) as [Hid Hne]. eauto.
Qed.

Lemma reachable_orders_are_sound_witness :
  ∃ o, orders s_offered !! "o1" = Some o ∧ orderSound o.
Proof.
  assert (Hr : reachable defaultConfig s_offered).
  { change s_offered
      with (step defaultConfig (hostAt 1000) (Assign "o1" "d1") s_created).1.
    apply reachable_step.
    change s_created with (createOrder (hostAt 0) "c1" "pizza" initState).1.
    apply reachable_create; [apply reachable_init|discriminate]. }
  assert (Hs : ∃ o, orders s_offered !! "o1" = Some o) by (vm_compute; eauto).
  destruct Hs as [o Ho]. exists o. split; [done|].
  apply (reachable_orders_are_sound defaultConfig s_offered "o1" o Hr Ho).
Defined.

(** ** One open offer at a time, within the cap *)

Lemma pool_named : Forall (λ d, Driver.driverId d ≠ "") availableDrivers.
Proof. repeat constructor; discriminate. Qed.

Lemma single_same_fields cfg o o' :
  Order.driverAssignments o' = Order.driverAssignments o →
  Order.currentDriverId o' = Order.currentDriverId o →
  singleOffer cfg o → singleOffer cfg o'.
Proof.
  intros Hl Hc [Hshape Hnd Hnamed Hcap].
  split; unfold historyDrivers in *; rewrite ?Hl, ?Hc; auto.
Qed.

(** In a history with one open offer, the stored current driver survives
    the constructor: his id is not empty. *)
Lemma single_current cfg h o l0 a :
  singleOffer cfg o →
  Order.driverAssignments o = (l0 ++ [a])%list →
  Order.currentDriverId o = Some (Assignment.driverId a) →
  Order.currentDriverId (Order.revive h o) = Some (Assignment.driverId a).
Proof.
  intros [_ _ Hnamed _] Hl Hc. apply revive_current; [done|].
  rewrite Forall_forall in Hnamed. apply Hnamed.
  unfold historyDrivers. rewrite Hl, fmap_app. apply elem_of_app. right. by left.
Qed.

Lemma single_revive cfg h o : singleOffer cfg o → singleOffer cfg (Order.revive h o).
Proof.
  intros Hs. pose proof Hs as [Hshape Hnd Hnamed Hcap]. split; auto.
  destruct Hshape as [Hall|(l0 & a & Hl & Hl0 & Ha & Hc)]; [by left|].
  right. exists l0, a. repeat split; auto. by eapply single_current.
Qed.

Lemma single_after_push cfg h o o' l1 n :
  Order.driverAssignments o' = (l1 ++ [Assignment.offered h n])%list →
  Forall (λ x, Assignment.status x ≠ A_PENDING) l1 →
  Assignment.driverId <$> l1 = historyDrivers o →
  Order.currentDriverId o' = Some n →
  n ∉ historyDrivers o → n ≠ "" →
  length (Order.driverAssignments o) < maxAssignmentAttempts cfg →
  singleOffer cfg o → singleOffer cfg o'.
Proof.
  intros Hl' Hl1 Hds Hc Hfresh Hn Hlt [Hshape Hnd Hnamed Hcap].
  assert (Hds' : historyDrivers o' = (historyDrivers o ++ [n])%list).
  { unfold historyDrivers at 1. by rewrite Hl', fmap_app, Hds. }
  split.
  - right. exists l1, (Assignment.offered h n). by repeat split.
  - rewrite Hds'. apply NoDup_app. split; [done|]. split; [|apply NoDup_singleton].
    intros x Hx Hx'. apply list_elem_of_singleton in Hx'. by subst x.
  - rewrite Hds'. apply Forall_app. split; [done|]. by constructor.
  - assert (Hlen : length l1 = length (Order.driverAssignments o)).
    { rewrite <- (length_fmap Assignment.driverId l1), Hds. unfold historyDrivers.
      by rewrite length_fmap. }
    rewrite Hl', length_app, Hlen. simpl. lia.
Qed.

Lemma offer_single cfg h k d s o :
  store_wf s → orders s !! k = Some o →
  d ≠ "" → Order.driverAssignments o = [] →
  ∃ o', orders (assignOrderToDriver cfg h k d s).1 !! k = Some o' ∧ singleOffer cfg o'.
Proof.
  intros Hwf Ho Hd Hl. unfold assignOrderToDriver, mbind, M_bind.
  rewrite (findById_stored h _ _ o Ho). lazy beta iota.
  destruct (stored_key h s k o Hwf Ho) as [Hk _].
  assert (Hs0 : singleOffer cfg o).
  { split; unfold historyDrivers; rewrite Hl; simpl;
      [left; constructor|constructor|constructor|lia]. }
  destruct (decide _); [by exists o|].
  unfold Order_addDriverAssignment. rewrite save_eq. lazy beta iota.
  change (Order._id (Order.set_reassignmentCount _ _)) with (Order._id (Order.revive h o)).
  rewrite Hk. eexists. split; [apply lookup_insert_eq|].
  split; unfold historyDrivers; simpl; rewrite Hl; simpl.
  - right. exists [], (Assignment.offered h d). by repeat split.
  - apply NoDup_singleton.
  - by repeat constructor.
  - lia.
Qed.

Lemma respond_single cfg h k d acc s o :
  store_wf s → orders s !! k = Some o → singleOffer cfg o →
  ∃ o', orders (handleDriverResponse cfg h k d acc s).1 !! k = Some o' ∧
        singleOffer cfg o'.
Proof.
  intros Hwf Ho Hs. unfold handleDriverResponse, mbind, M_bind.
  rewrite (findById_stored h _ _ o Ho). lazy beta iota.
  destruct (stored_key h s k o Hwf Ho) as [Hk _].
  destruct (Order.currentDriverId (Order.revive h o)) as [cur|] eqn:Hcur; [|by exists o].
  destruct (decide (cur ≠ d)) as [|Heq]; [by exists o|].
  apply dec_stable in Heq. subst cur.
  unfold modify at 1. lazy beta iota.
  set (s1 := with_timers (delete k) s).
  pose proof Hs as [Hshape Hnd Hnamed Hcap].
  destruct Hshape as [Hall|(l0 & a & Hl & Hl0 & Ha & Hc)].
  { unfold Order_recordDriverResponse.
    change (Order.driverAssignments (Order.revive h o)) with (Order.driverAssignments o).
    rewrite (no_pending_list_find d _ (settled_no_pending d _ Hall)). by exists o. }
  assert (Hda : Assignment.driverId a = d).
  { rewrite (single_current cfg h o l0 a Hs Hl Hc) in Hcur. congruence. }
  assert (Hpa : Assignment.pendingFor d a) by (by split).
  destruct (recordDriverResponse_last h d (if acc then A_ACCEPTED else A_REJECTED)
              (Order.revive h o) s1 l0 a Hl Hl0 Hpa)
    as (o1 & Heq1 & Hid1 & _ & Hcur1 & Hl1 & _).
  rewrite Heq1, Hk.
  assert (Hsettled : Forall (λ x, Assignment.status x ≠ A_PENDING)
                       (Order.driverAssignments o1)).
  { rewrite Hl1. apply settled_snoc; [done|]. simpl. destruct acc; discriminate. }
  assert (Hds1 : historyDrivers o1 = historyDrivers o).
  { unfold historyDrivers. by rewrite Hl, Hl1, !fmap_app. }
  assert (Hs1 : singleOffer cfg o1).
  { split; [by left|by rewrite Hds1|by rewrite Hds1|].
    rewrite Hl1. rewrite Hl in Hcap. by rewrite length_app in *. }
  destruct acc; [exists o1; split; [apply lookup_insert_eq|done]|].
  rewrite getNext_pair.
  set (s2 := with_orders (insert k o1) s1).
  assert (Ho1 : orders s2 !! k = Some o1) by apply lookup_insert_eq.
  assert (Hk1 : Order._id o1 = k) by congruence.
  destruct (getNextAvailableDriver cfg h k s2).2 as [e|[nd|]] eqn:Hnext.
  - by exists o1.
  - destruct (getNext_untried cfg h s2 k o1 nd Ho1 Hnext) as (Hfresh & Hlt & Hin).
    destruct (recordReassignment_settled h d (Driver.driverId nd) "REJECTION" o1 s2 Hsettled)
      as (o2 & Heq2 & _ & _ & Hcur2 & Hl2 & _).
    rewrite Heq2, Hk1. exists o2. split; [apply lookup_insert_eq|].
    eapply (single_after_push cfg h o1 o2); eauto.
    pose proof pool_named as Hpool. rewrite Forall_forall in Hpool. by apply Hpool.
  - unfold Order_markAsTimedOut. rewrite save_eq.
    change (Order._id (Order.set_timeoutAt (Some (now h)) (Order.set_status O_TIMEOUT o1)))
      with (Order._id o1).
    rewrite Hk1. eexists. split; [apply lookup_insert_eq|].
    by apply (single_same_fields cfg o1).
Qed.

Lemma timer_single cfg h k d s o :
  store_wf s → orders s !! k = Some o → singleOffer cfg o →
  ∃ o', orders (handleDriverTimeoutReassignment cfg h k d s).1 !! k = Some o' ∧
        singleOffer cfg o'.
Proof.
  intros Hwf Ho Hs. unfold handleDriverTimeoutReassignment, mbind, M_bind.
  rewrite (findById_stored h _ _ o Ho). lazy beta iota.
  destruct (stored_key h s k o Hwf Ho) as [Hk _].
  change (Order.driverAssignments (Order.revive h o)) with (Order.driverAssignments o).
  destruct (List.find _ _) as [b|] eqn:Hfind; [|by exists o].
  apply find_some in Hfind as [Hin Hpb]. apply bool_decide_eq_true in Hpb.
  pose proof Hs as [Hshape Hnd Hnamed Hcap].
  destruct Hshape as [Hall|(l0 & a & Hl & Hl0 & Ha & Hc)].
  { exfalso. apply (settled_no_pending d _ Hall). apply Exists_exists.
    exists b. split; [by apply list_elem_of_In|done]. }
  assert (Hba : b = a).
  { apply list_elem_of_In in Hin. rewrite Hl in Hin. apply elem_of_app in Hin as [Hin|Hin].
    - rewrite Forall_forall in Hl0. destruct Hpb as [_ Hpb]. by destruct (Hl0 b Hin).
    - by apply list_elem_of_singleton in Hin. }
  subst b.
  rewrite getNext_pair.
  destruct (getNextAvailableDriver cfg h k s).2 as [e|[nd|]] eqn:Hnext.
  - by exists o.
  - destruct (getNext_untried cfg h s k o nd Ho Hnext) as (Hfresh & Hlt & Hin').
    destruct (recordReassignment_last h d (Driver.driverId nd) "TIMEOUT"
                (Order.revive h o) s l0 a Hl Hl0 Hpb)
      as (o' & Heq & _ & _ & Hcur' & Hl' & _).
    rewrite Heq, Hk. exists o'. split; [apply lookup_insert_eq|].
    apply (single_after_push cfg h o o' (l0 ++ [Assignment.respond h A_TIMED_OUT a])
             (Driver.driverId nd)); auto.
    + by rewrite Hl', <- app_assoc.
    + apply settled_snoc; [done|]. simpl. discriminate.
    + unfold historyDrivers. by rewrite Hl, !fmap_app.
    + pose proof pool_named as Hpool. rewrite Forall_forall in Hpool. by apply Hpool.
  - unfold Order_markAsTimedOut. rewrite save_eq.
    change (Order._id (Order.set_timeoutAt (Some (now h))
                         (Order.set_status O_TIMEOUT (Order.revive h o))))
      with (Order._id (Order.revive h o)).
    rewrite Hk. eexists. split; [apply lookup_insert_eq|].
    apply (single_same_fields cfg (Order.revive h o)); [done|done|].
    by apply single_revive.
Qed.

Lemma single_create cfg h c d :
  singleOffer cfg (Order.set_updatedAt (now h) (Order.create h c d O_PENDING)).
Proof.
  split; unfold historyDrivers; simpl; [left; constructor|constructor|constructor|lia].
Qed.

(** What a step keeps for all orders at once, given what it keeps for its
    own order. *)
Lemma all_single_step cfg (s s' : State) k :
  store_wf s →
  (∀ k0 o0, orders s !! k0 = Some o0 → singleOffer cfg o0) →
  orders_evolve (orders s) (orders s') →
  sameElsewhere k s s' →
  (∀ o, orders s !! k = Some o → ∃ o', orders s' !! k = Some o' ∧ singleOffer cfg o') →
  ∀ k0 o0, orders s' !! k0 = Some o0 → singleOffer cfg o0.
Proof.
  intros Hwf Hall Hev Hframe Hk k0 o0 Ho0.
  destruct (decide (k0 = k)) as [->|Hne].
  - specialize (Hev k). rewrite Ho0 in Hev.
    destruct (orders s !! k) as [o|] eqn:Ho; [|done].
    destruct (Hk o eq_refl) as (o' & Ho' & Hs'). congruence.
  - destruct (Hframe k0 Hne) as [Hsame _]. rewrite Hsame in Ho0. eauto.
Qed.

Lemma reachableFirstOffer_single cfg s :
  reachableFirstOffer cfg s →
  store_wf s ∧ ∀ k o, orders s !! k = Some o → singleOffer cfg o.
Proof.
  induction 1 as [|h c d s Hr [Hwf Hall] Hid
                  |h k d s Hr [Hwf Hall] Hd Hempty
                  |h k d acc s Hr [Hwf Hall]
                  |h k d s Hr [Hwf Hall]].
  - split; [apply map_Forall_empty|]. intros k o Hk. simpl in Hk.
    by rewrite lookup_empty in Hk.
  - unfold createOrder. rewrite save_eq. simpl. split.
    + by apply map_Forall_insert_2.
    + intros k o. destruct (decide (genOrderId h = k)) as [<-|Hne].
      * rewrite lookup_insert_eq. intros [= <-]. apply single_create.
      * rewrite lookup_insert_ne by done. apply Hall.
  - pose proof (assign_evolves cfg h k d s Hwf) as Hev.
    split; [eauto using orders_evolve_wf|].
    apply (all_single_step cfg s _ k); auto using assign_frame.
    intros o Ho. apply (offer_single cfg h k d s o); auto.
  - pose proof (respond_evolves cfg h k d acc s Hwf) as Hev.
    split; [eauto using orders_evolve_wf|].
    apply (all_single_step cfg s _ k); auto using respond_frame.
    intros o Ho. apply (respond_single cfg h k d acc s o); eauto.
  - pose proof (timeout_evolves cfg h k d s Hwf) as Hev.
    split; [eauto using orders_evolve_wf|].
    apply (all_single_step cfg s _ k); auto using timeout_frame.
    intros o Ho. apply (timer_single cfg h k d s o); eauto.
Qed.

Lemma filter_settled (l : list Assignment.t) :
  Forall (λ x, Assignment.status x ≠ A_PENDING) l →
  filter (λ a, Assignment.status a = A_PENDING) l = [].
Proof.
  induction 1 as [|a l Ha _ IH]; [reflexivity|].
  rewrite filter_cons. by destruct (decide _).
Qed.

(** If an order is offered from outside only while its history is empty
    (and to a driver whose id is not empty), then in every state the engine
    reaches: the history of each order has at most [maxAssignmentAttempts]
    entries (at most one when the cap is 0); at most one of them is pending,
    and it is the last entry and the offer to the current driver; and no
    driver occurs twice in the history. *)
Theorem first_offer_only_keeps_cap_and_single_offer
    (cfg : Config) (s : State) (k : string) (o : Order.t) :
  reachableFirstOffer cfg s →
  orders s !! k = Some o →
  length (Order.driverAssignments o) ≤ Nat.max 1 (maxAssignmentAttempts cfg) ∧
  length (pendingAssignments o) ≤ 1 ∧
  (∀ a, a ∈ pendingAssignments o →
        last (Order.driverAssignments o) = Some a ∧
        Order.currentDriverId o = Some (Assignment.driverId a)) ∧
  NoDup (historyDrivers o).
Proof.
  intros Hr Ho. destruct (reachableFirstOffer_single cfg s Hr) as [_ Hall].
  destruct (Hall k o Ho) as [Hshape Hnd _ Hcap].
  split; [done|]. unfold pendingAssignments.
  destruct Hshape as [Hsettled|(l0 & a & Hl & Hl0 & Ha & Hc)].
  - rewrite (filter_settled _ Hsettled). split; [simpl; lia|]. split; [|done].
    intros a Ha. by apply elem_of_nil in Ha.
  - rewrite Hl, filter_app, (filter_settled _ Hl0), filter_cons.
    destruct (decide _) as [_|Hn]; [|done]. rewrite filter_nil. simpl.
    split; [lia|]. split; [|done].
    intros b Hb. apply list_elem_of_singleton in Hb. subst b.
    split; [apply last_snoc|done].
Qed.

Lemma first_offer_only_keeps_cap_and_single_offer_witness :
  ∃ o, orders s_accepted !! "o1" = Some o ∧ length (pendingAssignments o) ≤ 1.
Proof.
  assert (Hr : reachableFirstOffer defaultConfig s_accepted).
  { apply rfo_respond. apply rfo_offer; [|discriminate|].
    - change s_created with (createOrder (hostAt 0) "c1" "pizza" initState).1.
      apply rfo_create; [apply rfo_init|discriminate].
    - intros o Ho. vm_compute in Ho. by injection Ho as <-. }
  assert (Hs : ∃ o, orders s_accepted !! "o1" = Some o) by (vm_compute; eauto).
  destruct Hs as [o Ho]. exists o. split; [done|].
  apply (first_offer_only_keeps_cap_and_single_offer defaultConfig s_accepted "o1" o Hr Ho).
Defined.

(** ** Deleting an order, clearing a timer, saving and reading *)

Lemma step_not_found cfg h op s :
  orders s !! opTarget op = None →
  step cfg h op s = (s, inl (OrderNotFound (opTarget op))).
Proof.
  intros Hnone. destruct op as [k d|k d acc|k d]; simpl in *;
    unfold assignOrderToDriver, handleDriverResponse, handleDriverTimeoutReassignment,
      mbind, M_bind;
    by rewrite (findById_missing h _ _ Hnone).
Qed.

(** [deleteById] tells whether the order was stored, removes it and nothing
    else; the timers are not touched, also not the timer of the deleted
    order. Afterwards every operation of the engine on that id, and
    [getOrderStatus], throw "Order not found" and change nothing, and the
    timer of the deleted order, when it fires, changes nothing either. *)
Theorem deleteById_then_not_found
    (cfg : Config) (h : Host) (s : State) (id : string) :
  ∃ s',
    Order_deleteById id s = (s', inr (bool_decide (is_Some (orders s !! id)))) ∧
    orders s' !! id = None ∧
    (∀ k, k ≠ id → orders s' !! k = orders s !! k) ∧
    assignmentTimers s' = assignmentTimers s ∧
    (∀ op, opTarget op = id → step cfg h op s' = (s', inl (OrderNotFound id))) ∧
    getOrderStatus h id s' = (s', inl (OrderNotFound id)) ∧
    fireTimer cfg h id s' = s'.
Proof.
  eexists. split; [reflexivity|].
  set (s' := with_orders (delete id) s).
  assert (Hnone : orders s' !! id = None) by apply lookup_delete_eq.
  split; [done|]. split; [intros k Hk; by apply lookup_delete_ne|].
  split; [reflexivity|]. split; [|split].
  - intros op <-. by apply step_not_found.
  - unfold getOrderStatus, mbind, M_bind. by rewrite (findById_missing h _ _ Hnone).
  - unfold fireTimer. destruct (assignmentTimers s' !! id) as [t|]; [|done].
    pose proof (step_not_found cfg h (TimerFired id (timerDriverId t)) s' Hnone) as Hst.
    cbn [step opTarget] in Hst. by rewrite Hst.
Qed.

(** [cleanupOrderTimers] removes the timer entry of the order and nothing
    else; a second call changes nothing; and the timeout of the order no
    longer happens: the elapsing of its timer leaves the state as it is, so
    an open offer stays open until a response arrives. *)
Theorem cleanupOrderTimers_cancels_the_timeout
    (cfg : Config) (h : Host) (s : State) (orderId : string) :
  ∃ s',
    cleanupOrderTimers orderId s = (s', inr tt) ∧
    orders s' = orders s ∧
    assignmentTimers s' !! orderId = None ∧
    (∀ k, k ≠ orderId → assignmentTimers s' !! k = assignmentTimers s !! k) ∧
    cleanupOrderTimers orderId s' = (s', inr tt) ∧
    fireTimer cfg h orderId s' = s'.
Proof.
  eexists. split; [reflexivity|].
  split; [reflexivity|]. split; [apply lookup_delete_eq|].
  split; [intros k Hk; by apply lookup_delete_ne|]. split.
  - unfold cleanupOrderTimers, modify, with_timers. simpl. by rewrite delete_delete_eq.
  - unfold fireTimer. simpl. by rewrite lookup_delete_eq.
Qed.

(** What [save] stores, [findById] gives back: the saved order with
    [updatedAt] set to the date of the save, provided its id, its order
    details and its current driver are not empty and its [assignmentTimeout]
    is not 0 (the falsy values the constructor replaces by its defaults). The
    other orders are read as before. *)
Theorem save_then_findById
    (h h' : Host) (s : State) (o : Order.t) :
  Order._id o ≠ "" →
  Order.orderDetails o ≠ "" →
  Order.currentDriverId o ≠ Some "" →
  Order.assignmentTimeout o ≠ 0 →
  ∃ s',
    Order_save h o s = (s', inr (Order.set_updatedAt (now h) o)) ∧
    Order_findById h' (Order._id o) s' = (s', inr (Some (Order.set_updatedAt (now h) o))) ∧
    ∀ k, k ≠ Order._id o → Order_findById h' k s' = (s', (Order_findById h' k s).2).
Proof.
  intros Hid Hdt Hcur Hto. eexists. split; [apply save_eq|]. split.
  - rewrite findById_eq. simpl. rewrite lookup_insert_eq. simpl. do 3 f_equal.
    destruct o as [id c dt st cur l ca ua co ta at_ cnt logs]. simpl in *.
    unfold Order.revive, Order.set_updatedAt, Order.detailsOrDefault. simpl.
    destruct (decide (id = "")); [done|].
    destruct (decide (dt = "")); [done|].
    assert (Hcur' : match cur with
                    | Some d => if decide (d = "") then None else Some d
                    | None => None
                    end = cur).
    { destruct cur as [d|]; [|done]. destruct (decide (d = "")); [|done]. by subst d. }
    rewrite Hcur'. destruct at_; [done|reflexivity].
  - intros k Hk. rewrite !findById_eq. simpl. by rewrite lookup_insert_ne.
Qed.

Lemma save_then_findById_witness :
  (Order_findById (hostAt 10) "o9"
     (Order_save (hostAt 5)
        (Order.mk "o9" "c9" "x" O_PENDING (Some "d9") [] 0 0 None None 15 0 [])
        initState).1).2
  = inr (Some (Order.mk "o9" "c9" "x" O_PENDING (Some "d9") [] 0 5 None None 15 0 [])).
Proof.
  destruct (save_then_findById (hostAt 5) (hostAt 10) initState
              (Order.mk "o9" "c9" "x" O_PENDING (Some "d9") [] 0 0 None None 15 0 []))
    as (s' & Hsave & Hfind & _); [discriminate|discriminate|discriminate|discriminate|].
  rewrite Hsave. cbn [fst]. cbn [Order._id] in Hfind. rewrite Hfind. reflexivity.
Defined.

(** ** Text generation on a malformed answer *)

(** When the completion has no choice, or its first choice has no content,
    or the order snapshot cannot be serialised, [generateOrderStatusMessage]
    resolves to the fallback text as well; when the first choice has a
    content, it resolves to that content, trimmed, whatever the query type. *)
Theorem generateOrderStatusMessage_on_each_answer
    (model : string) (js : OrderStatusView.t → OpenAI.JsError + string)
    (create : OpenAI.Request → OpenAI.JsError + OpenAI.Completion)
    (od : OrderStatusView.t) (q : string) :
  match js od with
  | inl _ => generateOrderStatusMessage model js create od q = inr (getFallbackMessage od q)
  | inr context =>
      match create (OpenAI.mkRequest model (systemMessageFor context) (promptFor od q) 300)
      with
      | inl _ | inr (OpenAI.mkCompletion []) | inr (OpenAI.mkCompletion (None :: _)) =>
          generateOrderStatusMessage model js create od q = inr (getFallbackMessage od q)
      | inr (OpenAI.mkCompletion (Some content :: _)) =>
          generateOrderStatusMessage model js create od q = inr (OpenAI.trim content)
      end
  end.
Proof.
  unfold generateOrderStatusMessage, generateOrderStatusMessage_try.
  destruct (js od) as [e|context]; [reflexivity|].
  destruct (create _) as [e|[[|[content|] rest]]]; reflexivity.
Qed.

(** ** The cap on notifications *)

Lemma notifyStatus_count ncfg model js create h o cu q s counters k :
  let r := notifyCustomerAboutOrderStatus ncfg model js create h o cu q s counters in
  (k ≠ o → r.1 !! k = counters !! k) ∧
  (Notification.success r.2 = true →
     getNotificationCount o counters < maxNotificationsPerOrder ncfg ∧
     is_Some (orders s !! o) ∧
     getNotificationCount o r.1 = S (getNotificationCount o counters)) ∧
  (Notification.success r.2 = false → r.1 = counters).
Proof.
  unfold notifyCustomerAboutOrderStatus, shouldLimitNotifications.
  destruct (bool_decide _) eqn:Hlim; [by repeat split|].
  apply bool_decide_eq_false in Hlim.
  unfold getOrderStatus, mbind, M_bind. rewrite findById_eq.
  destruct (orders s !! o) as [ord|] eqn:Ho; simpl; [|by repeat split].
  match goal with |- context [generateOrderStatusMessage ?m ?j ?c ?v ?q] =>
    destruct (generate_returns m j c v q) as [text ->] end.
  simpl. split; [|split; [|discriminate]].
  - intros Hk. unfold incrementNotificationCounter. by rewrite lookup_insert_ne.
  - intros _. split; [lia|]. split; [eauto|]. apply count_after_increment.
Qed.

Lemma notify_count ncfg model js create h c s counters k :
  let r := notify ncfg model js create h c s counters in
  (k ≠ callOrder c → r.1 !! k = counters !! k) ∧
  (Notification.success r.2 = true →
     getNotificationCount (callOrder c) counters < maxNotificationsPerOrder ncfg ∧
     is_Some (orders s !! callOrder c) ∧
     getNotificationCount (callOrder c) r.1 =
       S (getNotificationCount (callOrder c) counters)) ∧
  (Notification.success r.2 = false → r.1 = counters).
Proof.
  destruct c as [o cu q|o cu n|o cu]; simpl.
  - apply notifyStatus_count.
  - unfold notifyCustomerAboutReassignment.
    destruct (negb _); [by repeat split|].
    destruct (bool_decide _); [by repeat split|]. apply notifyStatus_count.
  - apply notifyStatus_count.
Qed.

Lemma notify_keeps_cap ncfg model js create h c s counters k :
  getNotificationCount k (notify ncfg model js create h c s counters).1 ≤
  Nat.max (getNotificationCount k counters) (maxNotificationsPerOrder ncfg).
Proof.
  destruct (notify_count ncfg model js create h c s counters k) as (Hother & Hok & Hfail).
  destruct (Notification.success (notify ncfg model js create h c s counters).2) eqn:Hs.
  - destruct (decide (k = callOrder c)) as [->|Hne].
    + destruct (Hok eq_refl) as (Hlt & _ & ->). lia.
    + unfold getNotificationCount. rewrite (Hother Hne). lia.
  - rewrite (Hfail eq_refl). lia.
Qed.

(** Whatever notifications are asked for, one after the other, the counter
    of an order never passes [maxNotificationsPerOrder] if it started within
    it: at most that many notifications are ever counted as sent for one
    order. A notification that succeeds is for a stored order below the cap
    and adds one to the counter of its order; one that does not succeed
    (skipped, over the cap, unknown order) leaves all counters as they were;
    the counters of the other orders are never touched. *)
Theorem notifications_stay_within_cap
    (ncfg : NotifyConfig) (model : string)
    (js : OrderStatusView.t → OpenAI.JsError + string)
    (create : OpenAI.Request → OpenAI.JsError + OpenAI.Completion)
    (calls : list (Host * State * NotifyCall)) (counters : gmap string nat) (k : string) :
  getNotificationCount k counters ≤ maxNotificationsPerOrder ncfg →
  getNotificationCount k (notifyAll ncfg model js create calls counters) ≤
    maxNotificationsPerOrder ncfg ∧
  ∀ h s c,
    let r := notify ncfg model js create h c s counters in
    (k ≠ callOrder c → r.1 !! k = counters !! k) ∧
    (Notification.success r.2 = true →
       getNotificationCount (callOrder c) counters < maxNotificationsPerOrder ncfg ∧
       is_Some (orders s !! callOrder c) ∧
       getNotificationCount (callOrder c) r.1 =
         S (getNotificationCount (callOrder c) counters)) ∧
    (Notification.success r.2 = false → r.1 = counters).
Proof.
  intros Hcap. split; [|intros h s c; apply notify_count].
  revert counters Hcap. induction calls as [|[[h s] c] calls IH]; intros counters Hcap.
  - done.
  - simpl. apply IH.
    pose proof (notify_keeps_cap ncfg model js create h c s counters k). lia.
Qed.

Lemma notifications_stay_within_cap_witness :
  getNotificationCount "o1"
    (notifyAll notifyOn "gpt-4o-mini" jsonOk apiUp
       [ (hostAt 1, s_exhausted, AboutReassignment "o1" "c1" 2);
         (hostAt 2, s_exhausted, AboutReassignment "o1" "c1" 3);
         (hostAt 3, s_exhausted, AboutReassignment "o1" "c1" 4);
         (hostAt 4, s_exhausted, AboutTimeout "o1" "c1");
         (hostAt 5, s_exhausted, AboutStatus "o1" "c1" "general_status") ] ∅) ≤ 3.
Proof.
  assert (H0 : getNotificationCount "o1" ∅ ≤ maxNotificationsPerOrder notifyOn)
    by (vm_compute; lia).
  exact (proj1 (notifications_stay_within_cap notifyOn "gpt-4o-mini" jsonOk apiUp _ ∅ "o1" H0)).
Defined.

(** A notification about an order that is not stored reports "Order not
    found" in its result instead of throwing, generates no text and is not
    counted. *)
Theorem notification_for_unknown_order
    (ncfg : NotifyConfig) (model : string)
    (js : OrderStatusView.t → OpenAI.JsError + string)
    (create : OpenAI.Request → OpenAI.JsError + OpenAI.Completion)
    (h : Host) (orderId customerId queryType : string)
    (s : State) (counters : gmap string nat) :
  orders s !! orderId = None →
  shouldLimitNotifications ncfg orderId counters = false →
  notifyCustomerAboutOrderStatus ncfg model js create h orderId customerId queryType
    s counters =
  (counters,
   Notification.mk false orderId (Some customerId) None None false
     (Some ("Order not found: " ++ orderId)) None None).
Proof.
  intros Ho Hlim. unfold notifyCustomerAboutOrderStatus. rewrite Hlim.
  unfold getOrderStatus, mbind, M_bind. by rewrite (findById_missing h _ _ Ho).
Qed.

Lemma notification_for_unknown_order_witness :
  (notifyCustomerAboutOrderStatus notifyOn "gpt-4o-mini" jsonOk apiUp (hostAt 1)
     "o7" "c1" "general_status" s_offered ∅).1 = ∅.
Proof.
  assert (Ho : orders s_offered !! "o7" = None) by (vm_compute; reflexivity).
  assert (Hlim : shouldLimitNotifications notifyOn "o7" ∅ = false)
    by (vm_compute; reflexivity).
  by rewrite (notification_for_unknown_order notifyOn "gpt-4o-mini" jsonOk apiUp (hostAt 1)
                "o7" "c1" "general_status" s_offered ∅ Ho Hlim).
Defined.

(** ** The chatbot *)

Lemma chatbot_shape toLowerCase model js create h orderId customerId query s :
  match orders s !! orderId with
  | Some _ =>
      ∃ text,
        handleCustomerChatbotQuery toLowerCase model js create h orderId customerId query s
        = ChatResponse.mk true orderId customerId
            (Some (determineQueryType toLowerCase query)) (Some text) None
            (Some (now h)) (Some (elapsed h))
  | None =>
      handleCustomerChatbotQuery toLowerCase model js create h orderId customerId query s
      = ChatResponse.mk false orderId customerId None None
          (Some ("Order not found: " ++ orderId)) None None
  end.
Proof.
  unfold handleCustomerChatbotQuery, getOrderStatus, mbind, M_bind.
  rewrite findById_eq. destruct (orders s !! orderId) as [o|]; simpl; [|done].
  match goal with |- context [generateOrderStatusMessage ?m ?j ?c ?v ?q] =>
    destruct (generate_returns m j c v q) as [text ->] end.
  eauto.
Qed.


(** ** The order routes *)

Lemma message_not_empty e : Error_message e ≠ "".
Proof. destruct e; discriminate. Qed.

Lemma errorHandler_service production e :
  errorHandler production (ServiceError e) =
    Http.mk 500 (Http.ErrorBody 500 (Error_message e)).
Proof.
  unfold errorHandler. rewrite andb_false_r.
  destruct (decide (Error_message e = "")) as [He|_]; [|reflexivity].
  by apply message_not_empty in He.
Qed.

Lemma errorHandler_badRequest production msg :
  msg ≠ "" →
  errorHandler production (badRequest msg) = Http.mk 400 (Http.ErrorBody 400 msg).
Proof.
  intros Hm. unfold errorHandler, badRequest. rewrite andb_false_r. simpl.
  destruct (decide (msg = "")); [done|reflexivity].
Qed.

Lemma errorHandler_notFound production msg :
  msg ≠ "" →
  errorHandler production (notFound msg) = Http.mk 404 (Http.ErrorBody 404 msg).
Proof.
  intros Hm. unfold errorHandler, notFound. rewrite andb_false_r. simpl.
  destruct (decide (msg = "")); [done|reflexivity].
Qed.

Ltac route_done :=
  cbn [orb negb andb fst snd Http.status missing bodyComplete];
  (split; [reflexivity|]); (split; [set_solver|]);
  (split; [split; intro; (done || discriminate || lia)|]);
  (split; [split; [(discriminate || eauto)
                  |intros (? & ? & ?); (discriminate || congruence || reflexivity)]|]);
  (intros [?|?]; (done || discriminate)).

(** The status codes of the order routes. The answer never depends on
    [NODE_ENV]: the status is 200, 201, 400, 404 or 500; 400 is answered
    exactly to a request with a missing field and 404 exactly to the read of
    an order that is not stored, and both leave the store and the
    notification counters as they were and start no notification. *)
Theorem order_routes_error_codes
    (cfg : Config) (ncfg : NotifyConfig) (production : bool) (model : string)
    (js : OrderStatusView.t → OpenAI.JsError + string)
    (create : OpenAI.Request → OpenAI.JsError + OpenAI.Completion)
    (h : Host) (req : Request) (s : State) (counters : gmap string nat) :
  let r := orderRoutes cfg ncfg production model js create h req s counters in
  r = orderRoutes cfg ncfg (negb production) model js create h req s counters ∧
  Http.status r.1.2 ∈ [200; 201; 400; 404; 500] ∧
  (Http.status r.1.2 = 400 ↔ bodyComplete req = false) ∧
  (Http.status r.1.2 = 404 ↔ ∃ k, req = GET_order k ∧ orders s !! k = None) ∧
  (Http.status r.1.2 = 400 ∨ Http.status r.1.2 = 404 →
     r.1.1 = s ∧ r.2 = (counters, None)).
Proof.
  destruct req as [c d|k|k|k d|k d acc]; cbn zeta; unfold orderRoutes.
  - unfold ctl_createOrder, createOrder.
    destruct c as [c|], d as [d|]; rewrite ?save_eq, ?errorHandler_badRequest by done;
      try (destruct (missing (Some c)) eqn:Hc, (missing (Some d)) eqn:Hd;
           rewrite ?errorHandler_badRequest by done);
      cbn [bodyComplete]; rewrite ?Hc, ?Hd; route_done.
  - unfold ctl_getOrderById. rewrite findById_eq.
    destruct (orders s !! k) as [o|] eqn:Ho; cbn [fmap option_fmap option_map];
      rewrite ?errorHandler_notFound by discriminate; route_done.
  - unfold ctl_getOrderStatus.
    destruct (getOrderStatus h k s) as [s' [e|v]];
      rewrite ?errorHandler_service; route_done.
  - unfold ctl_assignOrderToDriver.
    destruct d as [d|]; rewrite ?errorHandler_badRequest by done;
      [destruct (missing (Some d)) eqn:Hd; rewrite ?errorHandler_badRequest by done;
       [|destruct (assignOrderToDriver cfg h k d s) as [s' [e|o]];
         rewrite ?errorHandler_service]|];
      cbn [bodyComplete]; rewrite ?Hd; route_done.
  - unfold ctl_handleDriverResponse.
    destruct d as [d|], acc as [acc|]; rewrite ?errorHandler_badRequest by done;
      [destruct (handleDriverResponse cfg h k d acc s) as [s' [e|o]];
       rewrite ?errorHandler_service|..];
      cbn [bodyComplete]; route_done.
Qed.

(** An order that is not stored is answered with 404 by the read of the
    order only: the status, assign and driver-response routes answer 500.
    All four carry the message "Order not found", change nothing and start
    no notification. *)
Theorem unknown_order_is_404_only_on_read
    (cfg : Config) (ncfg : NotifyConfig) (production : bool) (model : string)
    (js : OrderStatusView.t → OpenAI.JsError + string)
    (create : OpenAI.Request → OpenAI.JsError + OpenAI.Completion)
    (h : Host) (req : Request) (k : string) (s : State) (counters : gmap string nat) :
  orders s !! k = None →
  requestOrder req = Some k →
  bodyComplete req = true →
  orderRoutes cfg ncfg production model js create h req s counters =
    (s,
     (let code := match req with GET_order _ => 404 | _ => 500 end in
      Http.mk code (Http.ErrorBody code ("Order not found: " ++ k))),
     (counters, None)).
Proof.
  intros Hnone Hreq Hbody.
  destruct req as [c d|k0|k0|k0 d|k0 d acc]; simplify_eq/=.
  - unfold ctl_getOrderById. rewrite (findById_missing h _ _ Hnone).
    by rewrite errorHandler_notFound.
  - assert (Hst : getOrderStatus h k s = (s, inl (OrderNotFound k))).
    { unfold getOrderStatus, mbind, M_bind. by rewrite (findById_missing h _ _ Hnone). }
    unfold ctl_getOrderStatus. rewrite Hst. by rewrite errorHandler_service.
  - unfold ctl_assignOrderToDriver. destruct d as [d|]; [|done].
    apply negb_true_iff in Hbody. rewrite Hbody.
    pose proof (step_not_found cfg h (Assign k d) s Hnone) as Hst.
    cbn [step opTarget] in Hst. rewrite Hst.
    by rewrite errorHandler_service.
  - unfold ctl_handleDriverResponse. destruct d as [d|], acc as [acc|]; try done.
    pose proof (step_not_found cfg h (Respond k d acc) s Hnone) as Hst.
    cbn [step opTarget] in Hst. rewrite Hst.
    by rewrite errorHandler_service.
Qed.

Lemma unknown_order_is_404_only_on_read_witness :
  Http.status
    (orderRoutes defaultConfig notifyOn true "gpt-4o-mini" jsonOk apiUp (hostAt 1)
       (POST_assign "o7" (Some "d1")) s_offered ∅).1.2 = 500.
Proof.
  assert (Ho : orders s_offered !! "o7" = None) by (vm_compute; reflexivity).
  by rewrite (unknown_order_is_404_only_on_read defaultConfig notifyOn true "gpt-4o-mini"
                jsonOk apiUp (hostAt 1) (POST_assign "o7" (Some "d1")) "o7" s_offered ∅
                Ho eq_refl eq_refl).
Defined.

(** The current driver declines the last offer the cap allows, through the
    driver-response route. The answer is 200 with the order in status
    timeout. The controller then looks at the reassignment count only: from
    two reassignments on, with notifications switched on and the cap not
    reached, the customer is sent a text of type reassignment_reason; with
    one reassignment the notification is skipped, with none it is not
    started. *)
Theorem rejection_at_exhaustion_is_announced_as_reassignment
    (cfg : Config) (ncfg : NotifyConfig) (production : bool) (model : string)
    (js : OrderStatusView.t → OpenAI.JsError + string)
    (create : OpenAI.Request → OpenAI.JsError + OpenAI.Completion)
    (h : Host) (s : State) (counters : gmap string nat)
    (orderId d : string) (o : Order.t) (l0 : list Assignment.t) (a : Assignment.t) :
  store_wf s →
  orders s !! orderId = Some o →
  d ≠ "" →
  Order.currentDriverId o = Some d →
  Order.driverAssignments o = (l0 ++ [a])%list →
  Forall (λ x, Assignment.status x ≠ A_PENDING) l0 →
  Assignment.pendingFor d a →
  (getNextAvailableDriver cfg h orderId s).2 = inr None →
  enableReassignmentNotifications ncfg = true →
  getNotificationCount orderId counters < maxNotificationsPerOrder ncfg →
  ∃ s' o' sent,
    orderRoutes cfg ncfg production model js create h
      (POST_driver_response orderId (Some d) (Some false)) s counters =
      (s',
       Http.mk 200
         (Http.OrderBody (Some ("Driver " ++ d ++ " rejected order " ++ orderId)) o'),
       sent) ∧
    orders s' !! orderId = Some o' ∧
    Order.status o' = O_TIMEOUT ∧
    Order.reassignmentCount o' = Order.reassignmentCount o ∧
    match Order.reassignmentCount o with
    | 0 => sent = (counters, None)
    | 1 =>
        sent = (counters,
                Some (Notification.mk false orderId None None None true None None None))
    | _ =>
        ∃ text,
          sent = (incrementNotificationCounter orderId counters,
                  Some (Notification.mk true orderId (Some (Order.customerId o'))
                          (Some "reassignment_reason") (Some text) false None
                          (Some (now h)) (Some (elapsed h))))
    end.
Proof.
  intros Hwf Ho Hne Hcur Hl Hl0 Ha Hnone Hon Hcap.
  pose proof (reject_open_offer cfg h s orderId d o l0 a Hwf Ho Hne Hcur Hl Hl0 Ha) as H.
  rewrite Hnone in H. destruct H as (o' & Heq & Hst & _ & _ & _ & Hcnt & _).
  unfold orderRoutes, ctl_handleDriverResponse. rewrite Heq.
  eexists _, o', _. split; [reflexivity|].
  split; [apply lookup_insert_eq|]. split; [exact Hst|]. split; [exact Hcnt|].
  rewrite Hcnt. cbn [negb andb].
  destruct (Order.reassignmentCount o) as [|[|n]].
  - reflexivity.
  - rewrite bool_decide_eq_true_2 by lia.
    unfold notifyCustomerAboutReassignment. rewrite Hon. reflexivity.
  - rewrite bool_decide_eq_true_2 by lia.
    unfold notifyCustomerAboutReassignment. rewrite Hon. cbn [negb].
    rewrite bool_decide_eq_false_2 by lia.
    match goal with |- context [notifyCustomerAboutOrderStatus ?nc ?m ?j ?c ?h ?k ?cu ?q ?st ?ct] =>
      destruct (notifyStatus_sends nc m j c h k cu q st ct o') as [text ->] end.
    + unfold shouldLimitNotifications. apply bool_decide_eq_false_2. lia.
    + apply lookup_insert_eq.
    + eauto.
Qed.

Lemma rejection_at_exhaustion_is_announced_as_reassignment_witness :
  Notification.queryType <$>
    (orderRoutes defaultConfig notifyOn true "gpt-4o-mini" jsonOk apiUp (hostAt 76000)
       (POST_driver_response "o1" (Some "6123456789abcdef01234570") (Some false))
       s_fourTimeouts ∅).2.2
  = Some (Some "reassignment_reason").
Proof.
  assert (Hwf : store_wf s_fourTimeouts)
    by (apply (bool_decide_unpack _); vm_compute; exact I).
  assert (Hs : ∃ o l0 a, orders s_fourTimeouts !! "o1" = Some o ∧
                 Order.currentDriverId o = Some "6123456789abcdef01234570" ∧
                 Order.driverAssignments o = (l0 ++ [a])%list ∧
                 Forall (λ x, Assignment.status x ≠ A_PENDING) l0 ∧
                 Assignment.pendingFor "6123456789abcdef01234570" a ∧
                 Order.reassignmentCount o = 4).
  { eexists _, [_; _; _; _], _. split; [vm_compute; reflexivity|].
    split; [reflexivity|]. split; [reflexivity|]. split; [|by split].
    repeat constructor; discriminate. }
  destruct Hs as (o & l0 & a & Ho & Hcur & Hl & Hl0 & Ha & Hcnt).
  assert (Hn : (getNextAvailableDriver defaultConfig (hostAt 76000) "o1" s_fourTimeouts).2 =
               inr None) by (vm_compute; reflexivity).
  assert (Hcap : getNotificationCount "o1" ∅ < maxNotificationsPerOrder notifyOn)
    by (vm_compute; lia).
  destruct (rejection_at_exhaustion_is_announced_as_reassignment defaultConfig notifyOn true
              "gpt-4o-mini" jsonOk apiUp (hostAt 76000) s_fourTimeouts ∅ "o1"
              "6123456789abcdef01234570" o l0 a Hwf Ho ltac:(discriminate) Hcur Hl Hl0 Ha
              Hn eq_refl Hcap)
    as (s' & o' & sent & -> & _ & _ & _ & Hsent).
  rewrite Hcnt in Hsent. destruct Hsent as [text ->]. reflexivity.
Defined.

Lemma notifyStatus_type ncfg model js create h o cu q s counters :
  let n := (notifyCustomerAboutOrderStatus ncfg model js create h o cu q s counters).2 in
  if Notification.success n then Notification.queryType n = Some q
  else Notification.queryType n = None.
Proof.
  unfold notifyCustomerAboutOrderStatus.
  destruct (shouldLimitNotifications _ _ _); [reflexivity|].
  destruct (getOrderStatus h o s).2 as [e|v]; [reflexivity|].
  destruct (generateOrderStatusMessage _ _ _ _ _); reflexivity.
Qed.

(** Which notifications the order routes start. One is started only by the
    driver-response route, for a rejection the service carried out, on an
    order that has been reassigned before or by this rejection. It is sent
    only from the second reassignment on and with notifications switched on;
    what is sent is of type reassignment_reason, never timeout_explanation,
    also when the rejection exhausted the order. No other route and no
    failed request starts one. *)
Theorem order_routes_start_only_reassignment_notifications
    (cfg : Config) (ncfg : NotifyConfig) (production : bool) (model : string)
    (js : OrderStatusView.t → OpenAI.JsError + string)
    (create : OpenAI.Request → OpenAI.JsError + OpenAI.Completion)
    (h : Host) (req : Request) (s : State) (counters : gmap string nat)
    (n : Notification.t) :
  let r := orderRoutes cfg ncfg production model js create h req s counters in
  r.2.2 = Some n →
  (∃ k d msg o,
     req = POST_driver_response k (Some d) (Some false) ∧
     r.1.2 = Http.mk 200 (Http.OrderBody msg o) ∧
     0 < Order.reassignmentCount o ∧
     (Notification.success n = true →
        2 ≤ Order.reassignmentCount o ∧
        enableReassignmentNotifications ncfg = true ∧
        getNotificationCount k counters < maxNotificationsPerOrder ncfg ∧
        getNotificationCount k r.2.1 = S (getNotificationCount k counters))) ∧
  (if Notification.success n
   then Notification.queryType n = Some "reassignment_reason"
   else Notification.queryType n = None ∧ r.2.1 = counters).
Proof.
  cbn zeta. destruct req as [c d|k|k|k d|k d acc]; try discriminate.
  unfold orderRoutes, ctl_handleDriverResponse.
  destruct d as [d|], acc as [acc|]; try discriminate.
  destruct (handleDriverResponse cfg h k d acc s) as [s' [e|o]]; [discriminate|].
  destruct acc; [discriminate|]. cbn [negb andb].
  destruct (bool_decide (0 < Order.reassignmentCount o)) eqn:Hpos; [|discriminate].
  apply bool_decide_eq_true in Hpos. cbn [fst snd]. intros [= <-].
  unfold notifyCustomerAboutReassignment.
  destruct (enableReassignmentNotifications ncfg) eqn:Hon; cbn [negb].
  2:{ cbn [snd fst Notification.success Notification.queryType].
      split; [|done]. eexists _, _, _, _. repeat split; [exact Hpos|..]; discriminate. }
  destruct (bool_decide (Order.reassignmentCount o ≤ 1)) eqn:Hle.
  { cbn [snd fst Notification.success Notification.queryType].
    split; [|done]. eexists _, _, _, _. repeat split; [exact Hpos|..]; discriminate. }
  apply bool_decide_eq_false in Hle.
  pose proof (notifyStatus_count ncfg model js create h k (Order.customerId o)
                "reassignment_reason" s' counters k) as (_ & Hyes & Hno).
  pose proof (notifyStatus_type ncfg model js create h k (Order.customerId o)
                "reassignment_reason" s' counters) as Hty.
  cbn zeta in Hyes, Hno, Hty.
  destruct (Notification.success _) eqn:Hsucc.
  - split; [|exact Hty]. eexists _, _, _, _. split; [reflexivity|].
    split; [reflexivity|]. split; [exact Hpos|]. intros _.
    destruct (Hyes eq_refl) as (Hcap & _ & Hcount).
    split; [lia|]. split; [reflexivity|]. split; [exact Hcap|exact Hcount].
  - split; [|split; [exact Hty|by apply Hno]].
    eexists _, _, _, _. split; [reflexivity|]. split; [reflexivity|].
    split; [exact Hpos|]. discriminate.
Qed.

Lemma order_routes_start_only_reassignment_notifications_witness :
  Notification.queryType <$>
    (orderRoutes defaultConfig notifyOn true "gpt-4o-mini" jsonOk apiUp (hostAt 17000)
       (POST_driver_response "o1" (Some "6123456789abcdef01234567") (Some false))
       (timeouts defaultConfig [hostAt 16000] "o1" s_offered) ∅).2.2
  = Some (Some "reassignment_reason").
Proof.
  assert (Hr : (orderRoutes defaultConfig notifyOn true "gpt-4o-mini" jsonOk apiUp
                  (hostAt 17000)
                  (POST_driver_response "o1" (Some "6123456789abcdef01234567") (Some false))
                  (timeouts defaultConfig [hostAt 16000] "o1" s_offered) ∅).2.2
               = Some (Notification.mk true "o1" (Some "c1") (Some "reassignment_reason")
                         (Some "Seu pedido foi reatribuido.") false None
                         (Some 17000%Z) (Some 120%Z)))
    by (vm_compute; reflexivity).
  pose proof (order_routes_start_only_reassignment_notifications defaultConfig notifyOn true
                "gpt-4o-mini" jsonOk apiUp (hostAt 17000)
                (POST_driver_response "o1" (Some "6123456789abcdef01234567") (Some false))
                (timeouts defaultConfig [hostAt 16000] "o1" s_offered) ∅ _ Hr) as [_ Hq].
  rewrite Hr. cbn [Notification.success] in Hq.
  cbn [fmap option_fmap option_map]. by rewrite Hq.
Defined.

(** A new order through the routes. With both fields and a generated id,
    the request is answered 201 with a pending order that has no driver, no
    history and no reassignment; the order is stored under the generated id,
    replacing what was stored there, and a read of that id at any later time
    answers 200 with the same order. *)
Theorem create_then_read
    (cfg : Config) (ncfg : NotifyConfig) (production : bool) (model : string)
    (js : OrderStatusView.t → OpenAI.JsError + string)
    (create : OpenAI.Request → OpenAI.JsError + OpenAI.Completion)
    (h h' : Host) (c d : string) (s : State) (counters : gmap string nat) :
  c ≠ "" → d ≠ "" → genOrderId h ≠ "" →
  let o := Order.create h c d O_PENDING in
  let s' := with_orders (insert (genOrderId h) o) s in
  orderRoutes cfg ncfg production model js create h
    (POST_orders (Some c) (Some d)) s counters
  = (s', Http.mk 201 (Http.OrderBody None o), (counters, None)) ∧
  orderRoutes cfg ncfg production model js create h'
    (GET_order (genOrderId h)) s' counters
  = (s', Http.mk 200 (Http.OrderBody None o), (counters, None)) ∧
  Order.status o = O_PENDING ∧ Order.currentDriverId o = None ∧
  Order.driverAssignments o = [] ∧ Order.reassignmentCount o = 0.
Proof.
  intros Hc Hd Hid o s'. split; [|split; [|done]].
  - unfold orderRoutes, ctl_createOrder, createOrder. rewrite save_eq.
    cbn [missing]. rewrite !bool_decide_eq_false_2 by done. reflexivity.
  - unfold orderRoutes, ctl_getOrderById. rewrite findById_eq.
    subst s'. cbn [with_orders orders]. rewrite lookup_insert_eq.
    cbn [fmap option_fmap option_map].
    assert (Hrev : Order.revive h' o = o).
    { subst o. unfold Order.revive, Order.create, Order.detailsOrDefault. cbn.
      destruct (decide (genOrderId h = "")); [done|].
      destruct (decide (d = "")); [done|].
      destruct (decide (d = "")); [done|reflexivity]. }
    by rewrite Hrev.
Qed.

Lemma create_then_read_witness :
  Http.status
    (orderRoutes defaultConfig notifyOn false "gpt-4o-mini" jsonOk apiUp (hostAt 9)
       (GET_order "o1")
       (orderRoutes defaultConfig notifyOn false "gpt-4o-mini" jsonOk apiUp (hostAt 0)
          (POST_orders (Some "c1") (Some "pizza")) initState ∅).1.1 ∅).1.2
  = 200.
Proof.
  destruct (create_then_read defaultConfig notifyOn false "gpt-4o-mini" jsonOk apiUp
              (hostAt 0) (hostAt 9) "c1" "pizza" initState ∅)
    as (H1 & H2 & _); [discriminate|discriminate|discriminate|].
  rewrite H1. cbn [fst]. exact (f_equal (λ r, Http.status r.1.2) H2).
Defined.

(** ** The chat routes *)

(** A chat query with its three fields is answered 200 whatever the order:
    the body carries [success: true] exactly when the order is stored, and
    for an unknown order the "Order not found" message under 200. With a
    field missing or empty the answer is 400. *)
Theorem chat_query_is_answered_200
    (production : bool) (toLowerCase : string → string) (model : string)
    (js : OrderStatusView.t → OpenAI.JsError + string)
    (create : OpenAI.Request → OpenAI.JsError + OpenAI.Completion)
    (h : Host) (orderId customerId message : option string) (s : State) :
  let r := ctl_handleChatQuery production toLowerCase model js create h
             orderId customerId message s in
  if missing orderId || missing customerId || missing message then
    r = Http.mk 400
          (Http.ErrorBody 400
             "Missing required fields: orderId, customerId, and message are required")
  else
    ∃ k resp,
      orderId = Some k ∧
      r = Http.mk 200 (Http.ChatBody resp) ∧
      (ChatResponse.success resp = true ↔ is_Some (orders s !! k)) ∧
      (orders s !! k = None →
       ChatResponse.error resp = Some ("Order not found: " ++ k)).
Proof.
  cbn zeta. unfold ctl_handleChatQuery.
  destruct orderId as [k|], customerId as [c|], message as [m|];
    rewrite ?errorHandler_badRequest by done; cbn [missing orb];
    rewrite ?orb_true_r; try reflexivity.
  destruct (bool_decide (k = "") || bool_decide (c = "") || bool_decide (m = ""));
    [reflexivity|].
  eexists k, _. split; [reflexivity|]. split; [reflexivity|].
  pose proof (chatbot_shape toLowerCase model js create h k c m s) as Hshape.
  destruct (orders s !! k) as [o|].
  - destruct Hshape as [text ->]. cbn. split; [split; eauto|discriminate].
  - rewrite Hshape. cbn. split; [split; [discriminate|by intros [? ?]]|done].
Qed.

(** The health route never answers 500: [getApiHealth] catches the failure
    of its probe, so the route answers 200, with "healthy" when
    [models.list] succeeded and "degraded", with the probe's error message,
    when it threw; the chatbot component is reported healthy in both
    cases. *)
Theorem health_route_never_fails
    (model apiVersion : string) (models_list : OpenAI.JsError + unit) :
  ∃ st error,
    ctl_getHealthStatus model apiVersion models_list =
      Http.mk 200
        (Http.HealthBody st
           (ApiHealth.mk (if decide (st = "healthy") then "healthy" else "unhealthy")
              error model apiVersion)
           "healthy") ∧
    match models_list with
    | inr _ => st = "healthy" ∧ error = None
    | inl e => st = "degraded" ∧ error = Some (OpenAI.message e)
    end.
Proof.
  unfold ctl_getHealthStatus, getApiHealth.
  destruct models_list as [e|u]; eexists _, _; (split; [|split; reflexivity]);
    reflexivity.
Qed.
